(** * WasslChat broadcasts: campaign service and dispatch processor

    A shallow embedding of
    [apps/api/src/modules/broadcasts/broadcasts.service.ts]
    ([BroadcastsService] and [BroadcastProcessor]).

    - The Prisma store is an explicit value of type [Store] that every
      operation takes and returns; an exception is a [Throw] result and
      leaves the store as it was when it was thrown.
    - The processor keeps, next to the store, the chronological list of
      what it committed, dispatched and slept ([World]); each awaited
      Prisma write is one committed store of that list.
    - What surrounds a run is an [Environment]: the answers of the WhatsApp
      channel, and the control requests (send, pause, resume, cancel) that
      the service serves for the campaign between two status checks of the
      loop.
    - Columns that no operation here reads or branches on ([nameAr],
      [description], [contentAr]) are left out of [Broadcast]; logging and
      [job.progress] have no effect on the store and are left out of the
      processor.
    - Batch sizes and delays are natural numbers. *)

From stdpp Require Import base decidable option list gmap strings sorting.
From Stdlib Require Import ZArith Lia Ascii.

Set Default Proof Using "Type".

Local Open Scope Z_scope.
Local Open Scope nat_scope.

(** ** Enumerations *)

Module BroadcastStatus.
Inductive t :=
  DRAFT | SCHEDULED | QUEUED | SENDING | PAUSED | COMPLETED | CANCELLED | FAILED.
#[global] Instance broadcast_status_eq_dec : EqDecision t.
Proof. solve_decision. Defined.
End BroadcastStatus.

Module RecipientStatus.
Inductive t := PENDING | SENT | DELIVERED | READ | FAILED.
#[global] Instance recipient_status_eq_dec : EqDecision t.
Proof. solve_decision. Defined.
End RecipientStatus.

Inductive MessageType := TEXT | IMAGE | VIDEO | DOCUMENT | TEMPLATE.

Inductive TargetType := ALL | GROUP | TAG | CUSTOM.

(** ** Records

    Identifiers that the client supplies (tenant, contact, group, tag) are
    strings as in the source.  Identifiers that the database generates
    (broadcast and recipient-row keys) are drawn from two counters of the
    store.  Time stamps are milliseconds since the epoch.  Money amounts
    are integers of the smallest currency unit. *)

Record Filters := {
  hasOrders : option bool;
  minSpent : option Z;
  maxSpent : option Z;
  lastContactAfter : option Z;
  lastContactBefore : option Z;
  governorate : option (list string);
}.

(** The targeting part of [CreateBroadcastDto]; [calculateRecipients] reads
    nothing else of the DTO.  Each field is optional, as in
    [Partial<CreateBroadcastDto>]. *)
Record Targeting := {
  targetType : option TargetType;
  targetGroupIds : option (list string);
  targetTags : option (list string);
  targetContactIds : option (list string);
  filters : option Filters;
}.

Record MessageSpec := {
  messageType : MessageType;
  content : option string;
  mediaUrl : option string;
  mediaCaption : option string;
  templateName : option string;
  templateParams : option (list (string * string));
}.

Record CreateBroadcastDto := {
  dto_name : string;
  dto_message : MessageSpec;
  dto_target : Targeting;
  dto_scheduledAt : option Z;
  dto_batchSize : option nat;
  dto_batchDelayMs : option nat;
}.

Record Contact := {
  c_tenantId : string;
  c_phone : option string;
  c_name : option string;
  c_tags : list string;
  c_ordersCount : Z;
  c_totalSpent : Z;
  c_lastContactAt : option Z;
  c_governorate : option string;
}.

Record ContactGroupMember := {
  m_groupId : string;
  m_contactId : string;
}.

Record Plan := { broadcastsLimit : Z }.

Record Tenant := { plan : Plan }.

Record Broadcast := {
  b_id : nat;
  b_tenantId : string;
  b_name : string;
  b_message : MessageSpec;
  b_targetType : TargetType;
  b_targetGroupIds : list string;
  b_targetTags : list string;
  b_targetContactIds : list string;
  b_filters : Filters;
  totalRecipients : nat;
  sentCount : nat;
  deliveredCount : nat;
  readCount : nat;
  failedCount : nat;
  b_batchSize : nat;
  b_batchDelayMs : nat;
  b_status : BroadcastStatus.t;
  b_error : option string;
  scheduledAt : option Z;
  startedAt : option Z;
  pausedAt : option Z;
  completedAt : option Z;
  cancelledAt : option Z;
}.

Record BroadcastRecipient := {
  r_id : nat;
  r_broadcastId : nat;
  r_contactId : string;
  r_status : RecipientStatus.t;
  r_messageId : option string;
  r_error : option string;
  r_sentAt : option Z;
  r_createdAt : Z;
}.

(** A job of the [broadcasts] Bull queue. *)
Inductive JobId := JobBroadcast (id : nat) | JobBroadcastResume (id : nat).

#[global] Instance JobId_eq_dec : EqDecision JobId.
Proof. solve_decision. Defined.

Record BroadcastJobData := {
  j_broadcastId : nat;
  j_tenantId : string;
  j_resume : bool;
}.

Record QueuedJob := {
  q_jobId : JobId;
  q_data : BroadcastJobData;
  q_delay : option Z;
}.

(** The tables the module touches.  [recipients] is kept in insertion
    order; the other tables are keyed by their primary key. *)
Record Store := {
  tenants : gmap string Tenant;
  contacts : gmap string Contact;
  groupMembers : list ContactGroupMember;
  broadcasts : gmap nat Broadcast;
  recipients : list BroadcastRecipient;
  broadcastQueue : list QueuedJob;
  nextBroadcastId : nat;
  nextRecipientId : nat;
}.

(** ** Exceptions and results *)

(** The texts of the [BadRequestException]s the service throws. *)
Inductive BadRequest :=
| NoMatchingRecipients           (* create: no recipient matches the criteria *)
| MonthlyLimitExceeded (limit : Z) (* create: monthly broadcast limit exceeded *)
| NotEditable                    (* update: campaign running or completed *)
| AlreadyRunningOrDone           (* send: campaign already running or completed *)
| NotSending                     (* pause: campaign is not being sent *)
| NotPaused                      (* resume: campaign is not paused *)
| CannotCancel.                  (* cancel: this campaign cannot be cancelled *)

Inductive Exception :=
| BadRequestException (m : BadRequest)
| NotFoundException
| TypeError                      (* property read on null *)
| PrismaError.                   (* rejected write *)

Inductive Result (A : Type) :=
| Ok (a : A)
| Throw (e : Exception).
Arguments Ok {A} a.
Arguments Throw {A} e.

(** ** Store updates *)

Definition setBroadcasts (m : gmap nat Broadcast) (s : Store) : Store :=
  {| tenants := tenants s; contacts := contacts s;
     groupMembers := groupMembers s; broadcasts := m;
     recipients := recipients s; broadcastQueue := broadcastQueue s;
     nextBroadcastId := nextBroadcastId s;
     nextRecipientId := nextRecipientId s |}.

Definition setRecipients (l : list BroadcastRecipient) (s : Store) : Store :=
  {| tenants := tenants s; contacts := contacts s;
     groupMembers := groupMembers s; broadcasts := broadcasts s;
     recipients := l; broadcastQueue := broadcastQueue s;
     nextBroadcastId := nextBroadcastId s;
     nextRecipientId := nextRecipientId s |}.

Definition setQueue (q : list QueuedJob) (s : Store) : Store :=
  {| tenants := tenants s; contacts := contacts s;
     groupMembers := groupMembers s; broadcasts := broadcasts s;
     recipients := recipients s; broadcastQueue := q;
     nextBroadcastId := nextBroadcastId s;
     nextRecipientId := nextRecipientId s |}.

(** [prisma.broadcast.update({ where: { id }, data })] on an existing row. *)
Definition updateBroadcast (id : nat) (f : Broadcast → Broadcast) (s : Store)
  : Store :=
  setBroadcasts (alter f id (broadcasts s)) s.

(** [prisma.broadcastRecipient.update({ where: { id }, data })]. *)
Definition updateRecipient (id : nat)
    (f : BroadcastRecipient → BroadcastRecipient) (s : Store) : Store :=
  setRecipients
    ((λ r, if decide (r_id r = id) then f r else r) <$> recipients s) s.

Definition queueAdd (j : QueuedJob) (s : Store) : Store :=
  setQueue (broadcastQueue s ++ [j]) s.

Definition queueRemoveJobs (id : JobId) (s : Store) : Store :=
  setQueue (filter (λ j, q_jobId j ≠ id) (broadcastQueue s)) s.

(** The [data] objects of the broadcast updates. *)
Definition withLifecycle (st : BroadcastStatus.t)
    (started paused completed cancelled : option Z) (err : option string)
    (b : Broadcast) : Broadcast :=
  {| b_id := b_id b; b_tenantId := b_tenantId b; b_name := b_name b;
     b_message := b_message b; b_targetType := b_targetType b;
     b_targetGroupIds := b_targetGroupIds b; b_targetTags := b_targetTags b;
     b_targetContactIds := b_targetContactIds b; b_filters := b_filters b;
     totalRecipients := totalRecipients b; sentCount := sentCount b;
     deliveredCount := deliveredCount b; readCount := readCount b;
     failedCount := failedCount b; b_batchSize := b_batchSize b;
     b_batchDelayMs := b_batchDelayMs b; b_status := st; b_error := err;
     scheduledAt := scheduledAt b; startedAt := started; pausedAt := paused;
     completedAt := completed; cancelledAt := cancelled |}.

Definition withStatus (st : BroadcastStatus.t) (b : Broadcast) : Broadcast :=
  withLifecycle st (startedAt b) (pausedAt b) (completedAt b) (cancelledAt b)
    (b_error b) b.

Definition withCounts (sent failed : nat) (b : Broadcast) : Broadcast :=
  {| b_id := b_id b; b_tenantId := b_tenantId b; b_name := b_name b;
     b_message := b_message b; b_targetType := b_targetType b;
     b_targetGroupIds := b_targetGroupIds b; b_targetTags := b_targetTags b;
     b_targetContactIds := b_targetContactIds b; b_filters := b_filters b;
     totalRecipients := totalRecipients b; sentCount := sent;
     deliveredCount := deliveredCount b; readCount := readCount b;
     failedCount := failed; b_batchSize := b_batchSize b;
     b_batchDelayMs := b_batchDelayMs b; b_status := b_status b;
     b_error := b_error b;
     scheduledAt := scheduledAt b; startedAt := startedAt b;
     pausedAt := pausedAt b; completedAt := completedAt b;
     cancelledAt := cancelledAt b |}.

Definition withOutcome (st : RecipientStatus.t) (sent : option Z)
    (mid err : option string) (r : BroadcastRecipient) : BroadcastRecipient :=
  {| r_id := r_id r; r_broadcastId := r_broadcastId r;
     r_contactId := r_contactId r; r_status := st; r_messageId := mid;
     r_error := err; r_sentAt := sent; r_createdAt := r_createdAt r |}.

(** ** Queries *)

(** [prisma.broadcast.findFirst({ where: { id, tenantId } })]. *)
Definition findFirstBroadcast (s : Store) (id : nat) (tenantId : string)
  : option Broadcast :=
  match broadcasts s !! id with
  | Some b => if decide (b_tenantId b = tenantId) then Some b else None
  | None => None
  end.

(** A comparison of a Prisma filter: [{ gte: x }] or [{ lte: x }]. *)
Inductive Bound := Gte (x : Z) | Lte (x : Z).

Definition satisfies (v : Z) (b : Bound) : bool :=
  match b with
  | Gte x => bool_decide (x ≤ v)%Z
  | Lte x => bool_decide (v ≤ x)%Z
  end.

(** The [where] object of a [prisma.contact.findMany].  Every key occurs at
    most once in an object, so there is one optional condition per key. *)
Record ContactWhere := {
  w_idIn : option (list string);
  w_tenantId : string;
  w_phoneNotNull : bool;
  w_tagsHasSome : option (list string);
  w_ordersCountGt : option Z;
  w_totalSpent : option Bound;
  w_lastContactAt : option Bound;
  w_governorateIn : option (list string);
}.

Definition holds {A} (cond : option A) (test : A → bool) : bool :=
  match cond with
  | Some a => test a
  | None => true
  end.

Definition matchesWhere (w : ContactWhere) (id : string) (c : Contact) : bool :=
  holds (w_idIn w) (λ ids, bool_decide (id ∈ ids))
  && bool_decide (c_tenantId c = w_tenantId w)
  && (if w_phoneNotNull w then bool_decide (c_phone c ≠ None) else true)
  && holds (w_tagsHasSome w)
       (λ tags, bool_decide (Exists (λ t, t ∈ c_tags c) tags))
  && holds (w_ordersCountGt w) (λ x, bool_decide (x < c_ordersCount c)%Z)
  && holds (w_totalSpent w) (satisfies (c_totalSpent c))
  && holds (w_lastContactAt w)
       (λ b, match c_lastContactAt c with
             | Some t => satisfies t b
             | None => false
             end)
  && holds (w_governorateIn w)
       (λ gs, match c_governorate c with
              | Some g => bool_decide (g ∈ gs)
              | None => false
              end).

(** [prisma.contact.findMany({ where, select: { id: true } })] followed by
    [.map((c) => c.id)]. *)
Definition findManyContactIds (s : Store) (w : ContactWhere) : list string :=
  (filter (λ kc, matchesWhere w kc.1 kc.2 = true)
          (map_to_list (contacts s))).*1.

(** [[...new Set(xs)]]: the first occurrence of every element, in order. *)
Definition setAdd (acc : list string) (x : string) : list string :=
  if decide (x ∈ acc) then acc else acc ++ [x].

Definition newSet (xs : list string) : list string := foldl setAdd [] xs.

(** JavaScript truthiness of an optional number. *)
Definition truthyNumber (o : option Z) : option Z :=
  match o with
  | Some x => if decide (x = 0%Z) then None else Some x
  | None => None
  end.

Definition whereAll (tenantId : string) : ContactWhere :=
  {| w_idIn := None; w_tenantId := tenantId; w_phoneNotNull := true;
     w_tagsHasSome := None; w_ordersCountGt := None; w_totalSpent := None;
     w_lastContactAt := None; w_governorateIn := None |}.

Definition whereTagged (tenantId : string) (tags : list string)
  : ContactWhere :=
  {| w_idIn := None; w_tenantId := tenantId; w_phoneNotNull := false;
     w_tagsHasSome := Some tags; w_ordersCountGt := None;
     w_totalSpent := None; w_lastContactAt := None;
     w_governorateIn := None |}.

(** The [where] object of the additional-filters query.  The conditional
    spreads are applied in source order, so of two spreads that set the
    same key ([totalSpent], [lastContactAt]) the later one stays. *)
Definition whereFiltered (tenantId : string) (contactIds : list string)
    (f : Filters) : ContactWhere :=
  {| w_idIn := Some contactIds;
     w_tenantId := tenantId;
     w_phoneNotNull := true;
     w_tagsHasSome := None;
     w_ordersCountGt :=
       match hasOrders f with Some true => Some 0%Z | _ => None end;
     w_totalSpent :=
       match truthyNumber (maxSpent f) with
       | Some x => Some (Lte x)
       | None => Gte <$> truthyNumber (minSpent f)
       end;
     w_lastContactAt :=
       match lastContactBefore f with
       | Some t => Some (Lte t)
       | None => Gte <$> lastContactAfter f
       end;
     w_governorateIn :=
       match governorate f with
       | Some (g :: gs) => Some (g :: gs)
       | _ => None
       end |}.

(** [BroadcastsService.calculateRecipients]. *)
Definition calculateRecipients (s : Store) (tenantId : string)
    (dto : Targeting) : list string :=
  let contactIds :=
    match targetType dto with
    | Some ALL => findManyContactIds s (whereAll tenantId)
    | Some GROUP =>
        match targetGroupIds dto with
        | Some (g :: gs) =>
            newSet (m_contactId <$>
                    filter (λ m, m_groupId m ∈ g :: gs) (groupMembers s))
        | _ => []
        end
    | Some TAG =>
        match targetTags dto with
        | Some (t :: ts) => findManyContactIds s (whereTagged tenantId (t :: ts))
        | _ => []
        end
    | Some CUSTOM => default [] (targetContactIds dto)
    | None => []
    end in
  match filters dto with
  | Some f =>
      if decide (0 < length contactIds)
      then findManyContactIds s (whereFiltered tenantId contactIds f)
      else contactIds
  | None => contactIds
  end.

(** ** [BroadcastsService] *)

(** [prisma.broadcastRecipient.count] of the monthly-limit check: rows whose
    broadcast belongs to the tenant and that were created since
    [thisMonth]. *)
Definition monthlyCount (s : Store) (tenantId : string) (thisMonth : Z)
  : nat :=
  length (filter (λ r,
            (b_tenantId <$> broadcasts s !! r_broadcastId r) = Some tenantId
            ∧ (thisMonth ≤ r_createdAt r)%Z)
          (recipients s)).

(** The rows of the nested [createMany]: one per element of [recipientIds],
    in the order of the array, with the column defaults. *)
Definition newRecipients (broadcastId first : nat) (now : Z)
    (recipientIds : list string) : list BroadcastRecipient :=
  imap (λ k contactId,
          {| r_id := first + k; r_broadcastId := broadcastId;
             r_contactId := contactId;
             r_status := RecipientStatus.PENDING;
             r_messageId := None; r_error := None; r_sentAt := None;
             r_createdAt := now |})
       recipientIds.

(** The empty object [{}]. *)
Definition emptyFilters : Filters :=
  {| hasOrders := None; minSpent := None; maxSpent := None;
     lastContactAfter := None; lastContactBefore := None;
     governorate := None |}.

(** [x || d] on an optional number. *)
Definition orDefault (o : option nat) (d : nat) : nat :=
  match o with
  | Some 0 => d
  | Some x => x
  | None => d
  end.

Definition newBroadcast (id : nat) (tenantId : string)
    (dto : CreateBroadcastDto) (ty : TargetType) (total : nat) : Broadcast :=
  {| b_id := id; b_tenantId := tenantId; b_name := dto_name dto;
     b_message := dto_message dto;
     b_targetType := ty;
     b_targetGroupIds := default [] (targetGroupIds (dto_target dto));
     b_targetTags := default [] (targetTags (dto_target dto));
     b_targetContactIds := default [] (targetContactIds (dto_target dto));
     b_filters := default emptyFilters (filters (dto_target dto));
     totalRecipients := total;
     sentCount := 0; deliveredCount := 0; readCount := 0; failedCount := 0;
     b_batchSize := orDefault (dto_batchSize dto) 50;
     b_batchDelayMs := orDefault (dto_batchDelayMs dto) 1000;
     b_status := match dto_scheduledAt dto with
                 | Some _ => BroadcastStatus.SCHEDULED
                 | None => BroadcastStatus.DRAFT
                 end;
     b_error := None;
     scheduledAt := dto_scheduledAt dto;
     startedAt := None; pausedAt := None; completedAt := None;
     cancelledAt := None |}.

(** [prisma.broadcast.create] with its nested [recipients.createMany]: one
    write. *)
Definition insertBroadcast (b : Broadcast) (rows : list BroadcastRecipient)
    (s : Store) : Store :=
  {| tenants := tenants s; contacts := contacts s;
     groupMembers := groupMembers s;
     broadcasts := <[b_id b := b]> (broadcasts s);
     recipients := recipients s ++ rows;
     broadcastQueue := broadcastQueue s;
     nextBroadcastId := S (nextBroadcastId s);
     nextRecipientId := nextRecipientId s + length rows |}.

Definition sendJob (id : nat) (tenantId : string) (delay : option Z)
  : QueuedJob :=
  {| q_jobId := JobBroadcast id;
     q_data := {| j_broadcastId := id; j_tenantId := tenantId;
                  j_resume := false |};
     q_delay := delay |}.

Definition resumeJob (id : nat) (tenantId : string) : QueuedJob :=
  {| q_jobId := JobBroadcastResume id;
     q_data := {| j_broadcastId := id; j_tenantId := tenantId;
                  j_resume := true |};
     q_delay := None |}.

(** [BroadcastsService.create].  [now] is the clock and [thisMonth] the
    local midnight of the first day of the current month, as computed by
    [setDate(1); setHours(0, 0, 0, 0)]. *)
Definition create (tenantId : string) (dto : CreateBroadcastDto)
    (now thisMonth : Z) (s : Store) : Result Broadcast * Store :=
  let tenant := tenants s !! tenantId in
  let recipientIds := calculateRecipients s tenantId (dto_target dto) in
  if decide (length recipientIds = 0) then
    (Throw (BadRequestException NoMatchingRecipients), s)
  else
    let count := monthlyCount s tenantId thisMonth in
    match tenant with
    | None => (Throw TypeError, s)
    | Some t =>
        let limit := broadcastsLimit (plan t) in
        if decide (limit ≠ (-1)%Z
                   ∧ (limit < Z.of_nat (count + length recipientIds))%Z) then
          (Throw (BadRequestException (MonthlyLimitExceeded limit)), s)
        else
          match targetType (dto_target dto) with
          | None => (Throw PrismaError, s)
          | Some ty =>
              let id := nextBroadcastId s in
              let broadcast :=
                newBroadcast id tenantId dto ty (length recipientIds) in
              let rows :=
                newRecipients id (nextRecipientId s) now recipientIds in
              let s1 := insertBroadcast broadcast rows s in
              let s2 :=
                match dto_scheduledAt dto with
                | Some at_ =>
                    if decide (0 < at_ - now)%Z
                    then queueAdd (sendJob id tenantId (Some (at_ - now)%Z)) s1
                    else s1
                | None => s1
                end in
              (Ok broadcast, s2)
          end
    end.

(** [BroadcastsService.send]. *)
Definition send (tenantId : string) (id : nat) (s : Store)
  : Result unit * Store :=
  match findFirstBroadcast s id tenantId with
  | None => (Throw NotFoundException, s)
  | Some broadcast =>
      if decide (b_status broadcast ∉
                   [BroadcastStatus.DRAFT; BroadcastStatus.SCHEDULED]) then
        (Throw (BadRequestException AlreadyRunningOrDone), s)
      else
        let s1 := queueAdd (sendJob id tenantId None) s in
        (Ok (), updateBroadcast id (withStatus BroadcastStatus.QUEUED) s1)
  end.

(** [BroadcastsService.pause]. *)
Definition pause (tenantId : string) (id : nat) (now : Z) (s : Store)
  : Result unit * Store :=
  match findFirstBroadcast s id tenantId with
  | None => (Throw NotFoundException, s)
  | Some broadcast =>
      if decide (b_status broadcast ≠ BroadcastStatus.SENDING) then
        (Throw (BadRequestException NotSending), s)
      else
        (Ok (),
         updateBroadcast id
           (λ b, withLifecycle BroadcastStatus.PAUSED (startedAt b) (Some now)
                   (completedAt b) (cancelledAt b) (b_error b) b) s)
  end.

(** [BroadcastsService.resume]. *)
Definition resume (tenantId : string) (id : nat) (s : Store)
  : Result unit * Store :=
  match findFirstBroadcast s id tenantId with
  | None => (Throw NotFoundException, s)
  | Some broadcast =>
      if decide (b_status broadcast ≠ BroadcastStatus.PAUSED) then
        (Throw (BadRequestException NotPaused), s)
      else
        let s1 := queueAdd (resumeJob id tenantId) s in
        (Ok (),
         updateBroadcast id
           (λ b, withLifecycle BroadcastStatus.SENDING (startedAt b) None
                   (completedAt b) (cancelledAt b) (b_error b) b) s1)
  end.

(** [BroadcastsService.cancel]. *)
Definition cancel (tenantId : string) (id : nat) (now : Z) (s : Store)
  : Result unit * Store :=
  match findFirstBroadcast s id tenantId with
  | None => (Throw NotFoundException, s)
  | Some broadcast =>
      if decide (b_status broadcast ∉
                   [BroadcastStatus.QUEUED; BroadcastStatus.SENDING;
                    BroadcastStatus.PAUSED; BroadcastStatus.SCHEDULED]) then
        (Throw (BadRequestException CannotCancel), s)
      else
        let s1 := queueRemoveJobs (JobBroadcast id) s in
        (Ok (),
         updateBroadcast id
           (λ b, withLifecycle BroadcastStatus.CANCELLED (startedAt b)
                   (pausedAt b) (completedAt b) (Some now) (b_error b) b) s1)
  end.

(** [Partial<CreateBroadcastDto>] as [update] receives it.  A field that
    the source tests with [!== undefined] is doubly optional: absent, or
    present with a possibly null value. *)
Record UpdateBroadcastDto := {
  u_name : option string;
  u_messageType : option MessageType;
  u_content : option (option string);
  u_mediaUrl : option (option string);
  u_mediaCaption : option (option string);
  u_templateName : option (option string);
  u_templateParams : option (option (list (string * string)));
  u_target : Targeting;
  u_scheduledAt : option (option Z);
  u_batchSize : option nat;
  u_batchDelayMs : option nat;
}.

Definition truthyString (o : option string) : option string :=
  match o with
  | Some x => if decide (x = ""%string) then None else Some x
  | None => None
  end.

Definition truthyNat (o : option nat) : option nat :=
  match o with
  | Some (S n) => Some (S n)
  | _ => None
  end.

(** [dto.x || broadcast.x]. *)
Definition orElse {A} (o : option A) (d : A) : A := default d o.

(** The targeting that [update] hands to [calculateRecipients], when any
    targeting field of the DTO is set. *)
Definition retargeting (dto : UpdateBroadcastDto) (broadcast : Broadcast)
  : option Targeting :=
  let t := u_target dto in
  if bool_decide (is_Some (targetType t)) || bool_decide (is_Some (targetGroupIds t))
     || bool_decide (is_Some (targetTags t))
     || bool_decide (is_Some (targetContactIds t))
     || bool_decide (is_Some (filters t))
  then Some {| targetType := Some (orElse (targetType t) (b_targetType broadcast));
               targetGroupIds :=
                 Some (orElse (targetGroupIds t) (b_targetGroupIds broadcast));
               targetTags := Some (orElse (targetTags t) (b_targetTags broadcast));
               targetContactIds :=
                 Some (orElse (targetContactIds t)
                         (b_targetContactIds broadcast));
               filters := Some (orElse (filters t) (b_filters broadcast)) |}
  else None.

(** The [data] object of the update of [update]. *)
Definition updatedBroadcast (dto : UpdateBroadcastDto)
    (recipientIds : option (list string)) (b : Broadcast) : Broadcast :=
  let m := b_message b in
  let t := u_target dto in
  {| b_id := b_id b; b_tenantId := b_tenantId b;
     b_name := orElse (truthyString (u_name dto)) (b_name b);
     b_message :=
       {| messageType := orElse (u_messageType dto) (messageType m);
          content := orElse (u_content dto) (content m);
          mediaUrl := orElse (u_mediaUrl dto) (mediaUrl m);
          mediaCaption := orElse (u_mediaCaption dto) (mediaCaption m);
          templateName := orElse (u_templateName dto) (templateName m);
          templateParams := orElse (u_templateParams dto) (templateParams m) |};
     b_targetType := orElse (targetType t) (b_targetType b);
     b_targetGroupIds := orElse (targetGroupIds t) (b_targetGroupIds b);
     b_targetTags := orElse (targetTags t) (b_targetTags b);
     b_targetContactIds := orElse (targetContactIds t) (b_targetContactIds b);
     b_filters := orElse (filters t) (b_filters b);
     totalRecipients := orElse (length <$> recipientIds) (totalRecipients b);
     sentCount := sentCount b; deliveredCount := deliveredCount b;
     readCount := readCount b; failedCount := failedCount b;
     b_batchSize := orElse (truthyNat (u_batchSize dto)) (b_batchSize b);
     b_batchDelayMs := orElse (truthyNat (u_batchDelayMs dto)) (b_batchDelayMs b);
     b_status := match u_scheduledAt dto with
                 | Some (Some _) => BroadcastStatus.SCHEDULED
                 | Some None => BroadcastStatus.DRAFT
                 | None => b_status b
                 end;
     b_error := b_error b;
     scheduledAt := orElse (u_scheduledAt dto) (scheduledAt b);
     startedAt := startedAt b; pausedAt := pausedAt b;
     completedAt := completedAt b; cancelledAt := cancelledAt b |}.

(** The transaction of [update]: [deleteMany] and [createMany] of the
    recipient rows when retargeting, then the broadcast update. *)
Definition replaceRecipients (id : nat) (now : Z) (recipientIds : list string)
    (s : Store) : Store :=
  let kept := filter (λ r, r_broadcastId r ≠ id) (recipients s) in
  let rows := newRecipients id (nextRecipientId s) now recipientIds in
  {| tenants := tenants s; contacts := contacts s;
     groupMembers := groupMembers s; broadcasts := broadcasts s;
     recipients := kept ++ rows; broadcastQueue := broadcastQueue s;
     nextBroadcastId := nextBroadcastId s;
     nextRecipientId := nextRecipientId s + length rows |}.

(** [BroadcastsService.update]. *)
Definition update (tenantId : string) (id : nat) (dto : UpdateBroadcastDto)
    (now : Z) (s : Store) : Result Broadcast * Store :=
  match findFirstBroadcast s id tenantId with
  | None => (Throw NotFoundException, s)
  | Some broadcast =>
      if decide (b_status broadcast ∉
                   [BroadcastStatus.DRAFT; BroadcastStatus.SCHEDULED]) then
        (Throw (BadRequestException NotEditable), s)
      else
        let recipientIds :=
          calculateRecipients s tenantId <$> retargeting dto broadcast in
        let s1 :=
          match recipientIds with
          | Some ids => replaceRecipients id now ids s
          | None => s
          end in
        let updated := updatedBroadcast dto recipientIds broadcast in
        let s2 := updateBroadcast id (updatedBroadcast dto recipientIds) s1 in
        let s3 :=
          match u_scheduledAt dto with
          | Some (Some at_) =>
              let s' := queueRemoveJobs (JobBroadcast id) s2 in
              if decide (0 < at_ - now)%Z
              then queueAdd (sendJob id tenantId (Some (at_ - now)%Z)) s'
              else s'
          | _ => s2
          end in
        (Ok updated, s3)
  end.

(** ** [BroadcastProcessor] *)

(** The calls the processor makes on [WhatsappService], and what the
    awaited call yields: a result, of which only [key.id] is read, or a
    thrown error, of which only [message] is read. *)
Inductive WaRequest :=
| SendTextMessage (tenantId : string) (to : option string) (text : string)
| SendMediaMessage (tenantId : string) (to : option string)
    (mediaType : string) (media caption : option string)
| SendTemplateMessage (tenantId : string) (to : option string)
    (template : option string) (params : list (string * string)).

Inductive WaResponse :=
| Resolved (keyId : option string)
| Rejected (message : option string).

(** The value [sendMessage] resolves to. *)
Record SendResult := {
  success : bool;
  messageId : option string;
  error : option string;
}.

Inductive ControlRequest := ReqSend | ReqPause | ReqResume | ReqCancel.

(** The handler gives up control at each [await]; the write of a control
    request can commit at any of them.  Reads are not told apart from the
    write that follows them when nothing of what is read can change in
    between. *)
Inductive Await :=
| BeforeSending          (* after the first read of the campaign, before
                            the update to SENDING *)
| BeforeCheck (i : nat)  (* before the status read at offset [i]: after the
                            update to SENDING or after the sleep *)
| BeforeRow (k : nat)    (* while the sends of a batch settle, or after the
                            update of row [k - 1]: before the update of
                            row [k] of the list *)
| BeforeCounts (i : nat) (* after the last row update of the batch at
                            offset [i], before its counter write *)
| AfterCounts (i : nat)  (* after the counter write, during
                            [job.progress] *)
| BeforeCompleted.       (* after the loop, before the completing
                            update *)

#[global] Instance Await_eq_dec : EqDecision Await.
Proof. solve_decision. Defined.

(** What surrounds one run of the processor.
    - [interpolateVariables template contactName] is the text substitution
      of the private helper of that name; its result only travels to the
      channel.
    - [whatsappService r q] is the channel's answer to the call [q] issued
      for recipient row [r].  What the channel writes for its own
      bookkeeping (contacts it creates, conversations, messages) is not
      applied to the store: no statement below is about the contact table
      after a run.
    - [arrivals a] are the control requests for this campaign whose writes
      commit at the await [a], in the order in which they commit.
    - [tieOrder] ranks the recipient rows, by key, in the order in which
      the database returns rows that [orderBy] does not tell apart.
    Not covered: a second job of the same campaign that runs at the same
    time, and [update], [delete] or [create] committing during a run. *)
Record Environment := {
  interpolateVariables : string → string → string;
  whatsappService : nat → WaRequest → WaResponse;
  arrivals : Await → list ControlRequest;
  tieOrder : nat → nat;
}.

Definition fallbackContactName : string := "عميلنا العزيز".

(** The message of the [TypeError] for a read of [property] on null, as
    V8 words it. *)
Definition nullDereference (property : string) : option string :=
  Some ("Cannot read properties of null (reading '" +:+ property +:+ "')").

Definition sendFailure (message : option string) : SendResult :=
  {| success := false; messageId := None; error := message |}.

(** [BroadcastProcessor.sendMessage].  [contact] is the joined contact of
    the recipient row; a read of a property of a missing one ([name] for a
    text or a template, [phone] for media), or the call of [replace] on
    [broadcast.content] when it is null, throws inside the [try]. *)
Definition sendMessage (interpolate : string → string → string)
    (service : WaRequest → WaResponse) (tenantId : string)
    (broadcast : Broadcast) (contact : option Contact) : SendResult :=
  match contact with
  | None =>
      sendFailure
        (nullDereference
           match messageType (b_message broadcast) with
           | TEXT | TEMPLATE => "name"
           | IMAGE | VIDEO | DOCUMENT => "phone"
           end)
  | Some c =>
      let contactName :=
        orElse (truthyString (c_name c)) fallbackContactName in
      let m := b_message broadcast in
      let media kind :=
        Some (SendMediaMessage tenantId (c_phone c) kind (mediaUrl m)
                (mediaCaption m)) in
      let request :=
        match messageType m with
        | TEXT =>
            (λ text, SendTextMessage tenantId (c_phone c)
                       (interpolate text contactName)) <$> content m
        | IMAGE => media "image"%string
        | VIDEO => media "video"%string
        | DOCUMENT => media "document"%string
        | TEMPLATE =>
            Some (SendTemplateMessage tenantId (c_phone c) (templateName m)
                    (prod_map id (λ v, interpolate v contactName) <$>
                     orElse (templateParams m) []))
        end in
      match request with
      | None => sendFailure (nullDereference "replace")
      | Some q =>
          match service q with
          | Resolved keyId =>
              {| success := true; messageId := keyId; error := None |}
          | Rejected message => sendFailure message
          end
      end
  end.

(** Everything a run does, in chronological order.  A committed write is
    tagged with its author: the processor's update of the broadcast, the
    processor's update of a recipient row, or a control request served
    meanwhile.  A status read of the loop is recorded with what it
    read. *)
Inductive Writer :=
| BroadcastWrite
| RecipientWrite (id : nat)
| ServiceWrite (q : ControlRequest).

Inductive Event :=
| Committed (by_ : Writer) (s : Store) (* a write was committed; the store is now [s] *)
| Dispatched (rows : list nat)        (* the sends of a batch went out together *)
| Slept (ms : nat)                    (* the pause between two batches *)
| Checked (status : option BroadcastStatus.t).
                                      (* [currentBroadcast?.status] was read *)

Record World := {
  db : Store;
  trace : list Event;
}.

Definition commit (by_ : Writer) (f : Store → Store) (w : World) : World :=
  {| db := f (db w); trace := trace w ++ [Committed by_ (f (db w))] |}.

Definition emit (e : Event) (w : World) : World :=
  {| db := db w; trace := trace w ++ [e] |}.

(** A control request served while the run is under way: the service
    operation is applied to the store; a rejected request changes
    nothing. *)
Definition serveRequest (tenantId : string) (id : nat) (now : Z)
    (q : ControlRequest) (s : Store) : Result unit * Store :=
  match q with
  | ReqSend => send tenantId id s
  | ReqPause => pause tenantId id now s
  | ReqResume => resume tenantId id s
  | ReqCancel => cancel tenantId id now s
  end.

Definition serve (tenantId : string) (id : nat) (now : Z) (w : World)
    (q : ControlRequest) : World :=
  match serveRequest tenantId id now q (db w) with
  | (Ok _, s') => commit (ServiceWrite q) (λ _, s') w
  | (Throw _, _) => w
  end.

(** The [data] objects of the two recipient updates. *)
Definition markSent (now : Z) (mid : option string) (r : BroadcastRecipient)
  : BroadcastRecipient :=
  withOutcome RecipientStatus.SENT (Some now)
    (match mid with Some m => Some m | None => r_messageId r end)
    (r_error r) r.

Definition markFailed (err : option string) (r : BroadcastRecipient)
  : BroadcastRecipient :=
  withOutcome RecipientStatus.FAILED (r_sentAt r) (r_messageId r)
    (Some (orElse (truthyString err) "Unknown error"%string)) r.

(** The loop state: the world and the two local counters. *)
Record Progress := {
  world : World;
  sentSoFar : nat;
  failedSoFar : nat;
}.

(** The body of the inner loop ("Update recipient statuses") for one
    settled result.  [sendMessage] never rejects, so every result is
    fulfilled. *)
Definition recordResult (now : Z) (p : Progress)
    (jr : BroadcastRecipient * SendResult) : Progress :=
  let (recipient, result) := jr in
  if success result then
    {| world := commit (RecipientWrite (r_id recipient))
                  (updateRecipient (r_id recipient)
                     (markSent now (messageId result))) (world p);
       sentSoFar := S (sentSoFar p);
       failedSoFar := failedSoFar p |}
  else
    {| world := commit (RecipientWrite (r_id recipient))
                  (updateRecipient (r_id recipient)
                     (markFailed (error result))) (world p);
       sentSoFar := sentSoFar p;
       failedSoFar := S (failedSoFar p) |}.

(** [xs.slice(i, j)]. *)
Definition slice {A} (i j : nat) (xs : list A) : list A :=
  take (j - i) (drop i xs).

(** [orderBy: { createdAt: 'asc' }]: the rows come in the order of their
    creation times; rows of equal creation time come in the order in which
    the database returns them, which [rank] gives by row key.  Rows that
    [rank] does not tell apart either stay in table order.  The sort is an
    insertion sort on the pair of creation time and rank. *)
Definition precedes (rank : nat → nat) (r x : BroadcastRecipient) : Prop :=
  (r_createdAt r < r_createdAt x)%Z
  ∨ (r_createdAt r = r_createdAt x ∧ rank (r_id r) ≤ rank (r_id x)).

#[global] Instance precedes_dec rank r x : Decision (precedes rank r x).
Proof. unfold precedes. apply _. Defined.

Fixpoint insertByCreatedAt (rank : nat → nat) (r : BroadcastRecipient)
    (l : list BroadcastRecipient) : list BroadcastRecipient :=
  match l with
  | [] => [r]
  | x :: l' =>
      if decide (precedes rank r x)
      then r :: x :: l'
      else x :: insertByCreatedAt rank r l'
  end.

Definition orderByCreatedAtAsc (rank : nat → nat)
    (l : list BroadcastRecipient) : list BroadcastRecipient :=
  foldr (insertByCreatedAt rank) [] l.

Definition isPendingOf (broadcastId : nat) (r : BroadcastRecipient) : Prop :=
  r_broadcastId r = broadcastId ∧ r_status r = RecipientStatus.PENDING.

#[global] Instance isPendingOf_dec broadcastId r
  : Decision (isPendingOf broadcastId r).
Proof. unfold isPendingOf. apply _. Defined.

(** The pending rows of a broadcast as the processor reads them:
    [findMany] with [where: { broadcastId, status: 'PENDING' }] and
    [orderBy: { createdAt: 'asc' }]. *)
Definition findManyPending (rank : nat → nat) (s : Store) (broadcastId : nat)
  : list BroadcastRecipient :=
  orderByCreatedAtAsc rank (filter (isPendingOf broadcastId) (recipients s)).

(** The same rows when the database returns rows of equal creation time
    in table order. *)
Definition findPendingRecipients (s : Store) (broadcastId : nat)
  : list BroadcastRecipient :=
  findManyPending (λ _, 0) s broadcastId.

(** What the job handler returns. *)
Inductive JobReturn :=
| Skipped                                   (* success: false, reason: 'cancelled' *)
| Stopped (reason : BroadcastStatus.t) (sent : nat)
                                            (* success: true, reason, sentCount *)
| Finished (sent failed : nat)              (* success: true, sentCount, failedCount *)
| Crashed.                                  (* the handler rethrew *)

(** The fixed data of one run, read before the loop starts. *)
Record Run := {
  run_env : Environment;
  run_now : Z;
  run_job : BroadcastJobData;
  run_broadcast : Broadcast;
  run_recipients : list BroadcastRecipient;
  run_contacts : gmap string Contact;   (* the [include: { contact }] join *)
}.

(** [broadcast.batchSize || 50] and [broadcast.batchDelayMs || 1000].  The
    two columns are integers that the controller does not validate; they
    are natural numbers here, so a campaign stored with a negative batch
    size, with which the loop below would not end, is not covered. *)
Definition batchSizeOf (broadcast : Broadcast) : nat :=
  match b_batchSize broadcast with 0 => 50 | n => n end.

Definition batchDelayMsOf (broadcast : Broadcast) : nat :=
  match b_batchDelayMs broadcast with 0 => 1000 | n => n end.

(** The resolved value of [sendMessage] for a row of the run. *)
Definition outcomeOf (c : Run) (recipient : BroadcastRecipient) : SendResult :=
  sendMessage (interpolateVariables (run_env c))
    (whatsappService (run_env c) (r_id recipient)) (j_tenantId (run_job c))
    (run_broadcast c) (run_contacts c !! r_contactId recipient).

Definition setWorld (w : World) (p : Progress) : Progress :=
  {| world := w; sentSoFar := sentSoFar p; failedSoFar := failedSoFar p |}.

(** The data of the completing update. *)
Definition completed (now : Z) (sent failed : nat) (b : Broadcast)
  : Broadcast :=
  withCounts sent failed
    (withLifecycle BroadcastStatus.COMPLETED (startedAt b) (pausedAt b)
       (Some now) (cancelledAt b) (b_error b) b).

(** The control requests whose writes commit at an await of the run. *)
Definition serveArrivals (c : Run) (a : Await) (w : World) : World :=
  foldl (serve (j_tenantId (run_job c)) (j_broadcastId (run_job c))
           (run_now c))
        w (arrivals (run_env c) a).

Definition await (c : Run) (a : Await) (p : Progress) : Progress :=
  setWorld (serveArrivals c a (world p)) p.

(** The inner loop ("Update recipient statuses") over the settled results
    of a batch, [k] being the place of the first of them in the list of
    the run: one awaited row update per result. *)
Fixpoint recordBatch (c : Run) (k : nat) (p : Progress)
    (results : list (BroadcastRecipient * SendResult)) : Progress :=
  match results with
  | [] => p
  | jr :: results' =>
      recordBatch c (S k)
        (recordResult (run_now c) (await c (BeforeRow k) p) jr) results'
  end.

(** One batch after its status check: dispatch, record each result, write
    the counters, sleep. *)
Definition processBatch (c : Run) (i : nat) (p : Progress) : Progress :=
  let broadcastId := j_broadcastId (run_job c) in
  let batchSize := batchSizeOf (run_broadcast c) in
  let batch := slice i (i + batchSize) (run_recipients c) in
  let results := outcomeOf c <$> batch in
  let p0 := setWorld (emit (Dispatched (r_id <$> batch)) (world p)) p in
  let p1 := await c (BeforeCounts i) (recordBatch c i p0 (zip batch results)) in
  let p2 :=
    setWorld
      (commit BroadcastWrite
         (updateBroadcast broadcastId
            (withCounts (sentSoFar p1) (failedSoFar p1))) (world p1)) p1 in
  let p3 := await c (AfterCounts i) p2 in
  if decide (i + batchSize < length (run_recipients c))
  then setWorld (emit (Slept (batchDelayMsOf (run_broadcast c))) (world p3)) p3
  else p3.

(** [currentBroadcast?.status]. *)
Definition currentStatus (c : Run) (w : World) : option BroadcastStatus.t :=
  b_status <$> broadcasts (db w) !! j_broadcastId (run_job c).

Definition stopRequested (o : option BroadcastStatus.t) : Prop :=
  o = Some BroadcastStatus.PAUSED ∨ o = Some BroadcastStatus.CANCELLED.

#[global] Instance stopRequested_dec o : Decision (stopRequested o).
Proof. unfold stopRequested. apply _. Defined.

(** The [for] loop over the offsets [i].  [fuel] bounds the number of
    loop tests; [None] means it ran out. *)
Fixpoint batchLoop (c : Run) (fuel : nat) (i : nat) (p : Progress)
  : option (JobReturn * World) :=
  match fuel with
  | 0 => None
  | S fuel' =>
      if decide (i < length (run_recipients c)) then
        let w := serveArrivals c (BeforeCheck i) (world p) in
        let current := currentStatus c w in
        let w1 := emit (Checked current) w in
        if decide (stopRequested current) then
          Some (Stopped (default BroadcastStatus.PAUSED current) (sentSoFar p),
                w1)
        else
          batchLoop c fuel' (i + batchSizeOf (run_broadcast c))
            (processBatch c i (setWorld w1 p))
      else
        let p1 := await c BeforeCompleted p in
        Some (Finished (sentSoFar p1) (failedSoFar p1),
              commit BroadcastWrite
                (updateBroadcast (j_broadcastId (run_job c))
                   (completed (run_now c) (sentSoFar p1) (failedSoFar p1)))
                (world p1))
  end.

(** The update "to sending" at the start of the handler. *)
Definition sending (resume_ : bool) (now : Z) (b : Broadcast) : Broadcast :=
  withLifecycle BroadcastStatus.SENDING
    (if resume_ then startedAt b else Some now)
    (pausedAt b) (completedAt b) (cancelledAt b) (b_error b) b.

(** The fixed data of the run that a job starts on a store. *)
Definition runOf (env : Environment) (job : BroadcastJobData) (now : Z)
    (broadcast : Broadcast) (s : Store) : Run :=
  {| run_env := env; run_now := now; run_job := job;
     run_broadcast := broadcast;
     run_recipients :=
       findManyPending (tieOrder env) s (j_broadcastId job);
     run_contacts := contacts s |}.

(** The world in which the handler writes SENDING: the one it read the
    campaign from, after the requests that committed meanwhile. *)
Definition beforeSending (env : Environment) (job : BroadcastJobData)
    (now : Z) (w : World) : World :=
  foldl (serve (j_tenantId job) (j_broadcastId job) now) w
    (arrivals env BeforeSending).

(** [BroadcastProcessor.handleSendBroadcast].  The store operations
    themselves do not fail; the one exception left is the missing
    broadcast, whose [catch] handler fails on the same missing row.  The
    counters, the batch size and the message are those of the first read;
    the update to SENDING and the completing update write the status
    whatever it has become. *)
Definition handleSendBroadcast (env : Environment) (job : BroadcastJobData)
    (now : Z) (w : World) : option (JobReturn * World) :=
  let broadcastId := j_broadcastId job in
  match broadcasts (db w) !! broadcastId with
  | None => Some (Crashed, w)
  | Some broadcast =>
      if decide (b_status broadcast = BroadcastStatus.CANCELLED) then
        Some (Skipped, w)
      else
        let w1 :=
          commit BroadcastWrite
            (updateBroadcast broadcastId (sending (j_resume job) now))
            (beforeSending env job now w) in
        let c := runOf env job now broadcast (db w1) in
        batchLoop c (S (length (run_recipients c))) 0
          {| world := w1; sentSoFar := sentCount broadcast;
             failedSoFar := failedCount broadcast |}
  end.

(** A run started on a store, with an empty trace. *)
Definition startWorld (s : Store) : World := {| db := s; trace := [] |}.

(** ** Sample data *)

Definition sampleContact (phone : option string) (tags : list string)
  : Contact :=
  {| c_tenantId := "t1"; c_phone := phone; c_name := None; c_tags := tags;
     c_ordersCount := 0; c_totalSpent := 0; c_lastContactAt := None;
     c_governorate := None |}.

(** Three tenants, on plans of 1000 monthly messages, of 3, and without a
    limit; five contacts with a phone number and one ([c6], tagged [vip])
    without. *)
Definition sampleStore : Store :=
  {| tenants :=
       list_to_map
         [("t1"%string, {| plan := {| broadcastsLimit := 1000 |} |});
          ("t2"%string, {| plan := {| broadcastsLimit := 3 |} |});
          ("t3"%string, {| plan := {| broadcastsLimit := -1 |} |})];
     contacts :=
       list_to_map
         [("c1"%string, sampleContact (Some "201000000001"%string) []);
          ("c2"%string, sampleContact (Some "201000000002"%string) []);
          ("c3"%string, sampleContact (Some "201000000003"%string) []);
          ("c4"%string, sampleContact (Some "201000000004"%string) []);
          ("c5"%string, sampleContact (Some "201000000005"%string) []);
          ("c6"%string, sampleContact None ["vip"%string])];
     groupMembers := [];
     broadcasts := ∅;
     recipients := [];
     broadcastQueue := [];
     nextBroadcastId := 0;
     nextRecipientId := 0 |}.

Definition textMessage : MessageSpec :=
  {| messageType := TEXT; content := Some "hello {{contactName}}"%string;
     mediaUrl := None; mediaCaption := None; templateName := None;
     templateParams := None |}.

Definition customTarget (ids : list string) : Targeting :=
  {| targetType := Some CUSTOM; targetGroupIds := None; targetTags := None;
     targetContactIds := Some ids; filters := None |}.

Definition tagTarget (tags : list string) : Targeting :=
  {| targetType := Some TAG; targetGroupIds := None; targetTags := Some tags;
     targetContactIds := None; filters := None |}.

Definition sampleDto (ids : list string) (batchSize : nat)
  : CreateBroadcastDto :=
  {| dto_name := "promo"; dto_message := textMessage;
     dto_target := customTarget ids; dto_scheduledAt := None;
     dto_batchSize := Some batchSize; dto_batchDelayMs := Some 0 |}.

(** The store after [create] of a campaign for the given contacts. *)
Definition storeWithCampaign (ids : list string) (batchSize : nat) : Store :=
  (create "t1" (sampleDto ids batchSize) 1000 0 sampleStore).2.

(** The same store after the [send] request: the campaign is QUEUED and
    its job is in the queue. *)
Definition queuedCampaign (ids : list string) (batchSize : nat) : Store :=
  (send "t1" 0 (storeWithCampaign ids batchSize)).2.

(** The campaign as that store holds it, and its first recipient row. *)
Definition queuedBroadcast (ids : list string) (batchSize : nat)
  : Broadcast :=
  withStatus BroadcastStatus.QUEUED
    (newBroadcast 0 "t1" (sampleDto ids batchSize) CUSTOM (length ids)).

Definition firstRow : BroadcastRecipient :=
  {| r_id := 0; r_broadcastId := 0; r_contactId := "c1";
     r_status := RecipientStatus.PENDING; r_messageId := None;
     r_error := None; r_sentAt := None; r_createdAt := 1000 |}.

Definition fiveContacts : list string :=
  ["c1"; "c2"; "c3"; "c4"; "c5"]%string.

Definition sampleJob : BroadcastJobData :=
  {| j_broadcastId := 0; j_tenantId := "t1"; j_resume := false |}.

(** A channel that accepts every message, one that times out on every
    message, and no control request during the run. *)
Definition channelUp : nat → WaRequest → WaResponse :=
  λ r _, Resolved (Some "wamid"%string).

Definition channelTimeout : nat → WaRequest → WaResponse :=
  λ _ _, Rejected (Some "timeout of 30000ms exceeded"%string).

Definition quiet (service : nat → WaRequest → WaResponse) : Environment :=
  {| interpolateVariables := λ template _, template;
     whatsappService := service;
     arrivals := λ _, [];
     tieOrder := λ _, 0 |}.

(** A pause request that commits while the first batch is being
    recorded, between the updates of its two rows. *)
Definition pausedAfterFirstBatch : Environment :=
  {| interpolateVariables := λ template _, template;
     whatsappService := channelUp;
     arrivals := λ a, if decide (a = BeforeRow 1) then [ReqPause] else [];
     tieOrder := λ _, 0 |}.

(** A channel that accepts every message, whatever it answers with; the
    database returns rows of equal creation time in table order. *)
Definition accepting (interpolate : string → string → string)
    (keyOf : nat → WaRequest → option string) : Environment :=
  {| interpolateVariables := interpolate;
     whatsappService := λ r q, Resolved (keyOf r q);
     arrivals := λ _, [];
     tieOrder := λ _, 0 |}.

(** A cancel request that commits between the handler's first read of the
    campaign and its update to SENDING. *)
Definition cancelledWhileStarting : Environment :=
  {| interpolateVariables := λ template _, template;
     whatsappService := channelUp;
     arrivals :=
       λ a, if decide (a = BeforeSending) then [ReqCancel] else [];
     tieOrder := λ _, 0 |}.

(** A database that returns rows of equal creation time with the higher
    key first. *)
Definition newestFirst (bound : nat) : Environment :=
  {| interpolateVariables := λ template _, template;
     whatsappService := channelUp;
     arrivals := λ _, [];
     tieOrder := λ key, bound - key |}.

Definition batchesOf (t : list Event) : list (list nat) :=
  omap (λ e, match e with Dispatched rows => Some rows | _ => None end) t.

Definition committedOf (t : list Event) : list Store :=
  omap (λ e, match e with Committed _ s => Some s | _ => None end) t.

Definition sleepsOf (t : list Event) : list nat :=
  omap (λ e, match e with Slept ms => Some ms | _ => None end) t.

(** The statuses that the checks at the start of the iterations read. *)
Definition checksOf (t : list Event) : list (option BroadcastStatus.t) :=
  omap (λ e, match e with Checked st => Some st | _ => None end) t.

(** What a store says about a campaign: its status, its ledger (total,
    sent, failed) and the state and error of each recipient row of the
    table. *)
Definition ledgerOf (b : Broadcast) : nat * nat * nat :=
  (totalRecipients b, sentCount b, failedCount b).

Record StoreSummary := {
  campaign : option (BroadcastStatus.t * (nat * nat * nat));
  rows : list (RecipientStatus.t * option string);
}.

Definition summaryOf (id : nat) (s : Store) : StoreSummary :=
  {| campaign := (λ b, (b_status b, ledgerOf b)) <$> broadcasts s !! id;
     rows := (λ r, (r_status r, r_error r)) <$> recipients s |}.

(** A run in short: what it returned, the batches, sleeps and status
    checks in order, the summary of each committed store with its writer,
    and the summary of the store it left. *)
Record RunSummary := {
  returned : JobReturn;
  batches : list (list nat);
  sleeps : list nat;
  checks : list (option BroadcastStatus.t);
  commits : list (Writer * StoreSummary);
  left_ : StoreSummary;
}.

Definition summarize (id : nat) (r : option (JobReturn * World))
  : option RunSummary :=
  (λ rw : JobReturn * World,
     {| returned := rw.1;
        batches := batchesOf (trace rw.2);
        sleeps := sleepsOf (trace rw.2);
        checks := checksOf (trace rw.2);
        commits :=
          omap (λ e, match e with
                     | Committed by_ s => Some (by_, summaryOf id s)
                     | _ => None
                     end) (trace rw.2);
        left_ := summaryOf id (db rw.2) |}) <$> r.

(** The return value and the world of a run on a store. *)
Definition outcomeOfRun (env : Environment) (job : BroadcastJobData)
    (now : Z) (s : Store) : JobReturn * World :=
  default (Crashed, startWorld s)
    (handleSendBroadcast env job now (startWorld s)).

(** ** The lifecycle table

    Which control request the lifecycle state machine permits in which
    state: send-now from DRAFT or SCHEDULED, pause from SENDING, resume
    from PAUSED, cancel from QUEUED, SENDING, PAUSED or SCHEDULED.  This
    table follows the specification; the guards of the service are in
    [send], [pause], [resume] and [cancel]. *)
Definition permitted (q : ControlRequest) (st : BroadcastStatus.t) : bool :=
  match q, st with
  | ReqSend, (BroadcastStatus.DRAFT | BroadcastStatus.SCHEDULED) => true
  | ReqPause, BroadcastStatus.SENDING => true
  | ReqResume, BroadcastStatus.PAUSED => true
  | ReqCancel, (BroadcastStatus.QUEUED | BroadcastStatus.SENDING
                | BroadcastStatus.PAUSED | BroadcastStatus.SCHEDULED) => true
  | _, _ => false
  end.

(** The validation error each operation answers with. *)
Definition rejection (q : ControlRequest) : BadRequest :=
  match q with
  | ReqSend => AlreadyRunningOrDone
  | ReqPause => NotSending
  | ReqResume => NotPaused
  | ReqCancel => CannotCancel
  end.

(** ** Properties of a resolved recipient list *)

(** A contact of the store that has no phone number. *)
Definition lacksPhone (s : Store) (id : string) : Prop :=
  ∃ c, contacts s !! id = Some c ∧ c_phone c = None.

(** What the resolver's contract asks of a result. *)
Definition wellResolved (s : Store) (ids : list string) : Prop :=
  NoDup ids ∧ ∀ id, id ∈ ids → ¬ lacksPhone s id.

(** ** Row counts and recorded outcomes *)

(** The number of rows of a campaign that are in a given state. *)
Definition rowsIn (st : RecipientStatus.t) (id : nat) (s : Store) : nat :=
  length (filter (λ r, r_broadcastId r = id ∧ r_status r = st)
            (recipients s)).

(** The state in which a row's result is recorded. *)
Definition statusFor (result : SendResult) : RecipientStatus.t :=
  if success result then RecipientStatus.SENT else RecipientStatus.FAILED.

(** A row of the run as the store holds it once its result is recorded. *)
Definition recordedRow (c : Run) (x : BroadcastRecipient)
  : BroadcastRecipient :=
  if success (outcomeOf c x)
  then markSent (run_now c) (messageId (outcomeOf c x)) x
  else markFailed (error (outcomeOf c x)) x.

(** Among the first [k] rows of the run, those recorded in state [st]. *)
Definition recordedIn (c : Run) (st : RecipientStatus.t) (k : nat) : nat :=
  length (filter (λ x, statusFor (outcomeOf c x) = st)
            (take k (run_recipients c))).

(** The two counters of a campaign as a store holds them. *)
Definition countersOf (id : nat) (s : Store) : nat * nat :=
  match broadcasts s !! id with
  | Some b => (sentCount b, failedCount b)
  | None => (0, 0)
  end.

Definition countersLe (id : nat) (s1 s2 : Store) : Prop :=
  (countersOf id s1).1 ≤ (countersOf id s2).1
  ∧ (countersOf id s1).2 ≤ (countersOf id s2).2.

(** The store that the next write of a trace starts from. *)
Definition lastStore (s0 : Store) (t : list Event) : Store :=
  default s0 (last (committedOf t)).

(** [eachEvent Q prev t]: every event of [t] satisfies [Q] with respect to
    the store it found, [prev] being the store before the first. *)
Fixpoint eachEvent (Q : Store → Event → Prop) (prev : Store)
    (t : list Event) : Prop :=
  match t with
  | [] => True
  | e :: t' =>
      Q prev e
      ∧ eachEvent Q (match e with Committed _ s => s | _ => prev end) t'
  end.

(** An update of a recipient row leaves the broadcast table as the store
    before it had it. *)
Definition keepsBroadcasts (prev : Store) (e : Event) : Prop :=
  match e with
  | Committed (RecipientWrite _) s => broadcasts s = broadcasts prev
  | _ => True
  end.

Definition rowWritesKeepBroadcasts : Store → list Event → Prop :=
  eachEvent keepsBroadcasts.

(** ** Status checks in a trace *)

(** The states of a campaign that ask its run to stop. *)
Definition halting : list (option BroadcastStatus.t) :=
  [Some BroadcastStatus.PAUSED; Some BroadcastStatus.CANCELLED].

(** Each status check of [t] read the status that the campaign had in the
    store of that moment.  A check that read PAUSED or CANCELLED is the
    last event; every other check is followed at once by the dispatch of
    a batch. *)
Definition checksDecide (id : nat) (s : Store) (t : list Event) : Prop :=
  ∀ t1 st t2,
    t = t1 ++ Checked st :: t2 →
    st = b_status <$> broadcasts (lastStore s t1) !! id
    ∧ (st ∈ halting → t2 = [])
    ∧ (st ∉ halting → ∃ rows t3, t2 = Dispatched rows :: t3).

(** No batch goes out without a status check just before it. *)
Definition dispatchesFollowChecks (t : list Event) : Prop :=
  ∀ t1 rows t2,
    t = t1 ++ Dispatched rows :: t2 → ∃ t0 st, t1 = t0 ++ [Checked st].

(** The row [r] holds the outcome [result] of its send: SENT with the time
    and the message key, or FAILED with the error text. *)
Definition holdsOutcome (now : Z) (result : SendResult)
    (r : BroadcastRecipient) : Prop :=
  if success result
  then r_status r = RecipientStatus.SENT ∧ r_sentAt r = Some now
       ∧ ∀ key, messageId result = Some key → r_messageId r = Some key
  else r_status r = RecipientStatus.FAILED
       ∧ ∃ text, r_error r = Some text
                 ∧ ∀ e, error result = Some e → e ≠ ""%string → text = e.

(** [s'] differs from [s] at most in the lifecycle fields of broadcasts
    and in the queue. *)
Definition sameLedger (s s' : Store) : Prop :=
  recipients s' = recipients s
  ∧ contacts s' = contacts s
  ∧ ∀ i, ledgerOf <$> broadcasts s' !! i = ledgerOf <$> broadcasts s !! i.

(** ** Bookkeeping statements about a store *)

(** The counters of the campaign plus its pending rows do not exceed, or
    equal, its total. *)
Definition withinTotal (id : nat) (s : Store) : Prop :=
  ∃ b, broadcasts s !! id = Some b
       ∧ sentCount b + failedCount b + rowsIn RecipientStatus.PENDING id s
         ≤ totalRecipients b.

Definition conserved (id : nat) (s : Store) : Prop :=
  ∃ b, broadcasts s !! id = Some b
       ∧ sentCount b + failedCount b + rowsIn RecipientStatus.PENDING id s
         = totalRecipients b.

Definition totalOf (id : nat) (s : Store) : option nat :=
  totalRecipients <$> broadcasts s !! id.

(** Since the run started on [s] with the campaign as [broadcast], the
    counters of the campaign in [s1] have grown by the number of rows that
    have become SENT and FAILED. *)
Definition tallied (id : nat) (s : Store) (broadcast : Broadcast)
    (s1 : Store) : Prop :=
  ∃ b1, broadcasts s1 !! id = Some b1
        ∧ sentCount b1 + rowsIn RecipientStatus.SENT id s
          = sentCount broadcast + rowsIn RecipientStatus.SENT id s1
        ∧ failedCount b1 + rowsIn RecipientStatus.FAILED id s
          = failedCount broadcast + rowsIn RecipientStatus.FAILED id s1.

(** ** Store hygiene

    What the database guarantees of the tables: row keys are unique and
    below the key counter, rows point at broadcasts below the broadcast
    counter, and creation times do not decrease along the table nor
    exceed the clock. *)
Definition wellKeyed (s : Store) : Prop :=
  NoDup (r_id <$> recipients s)
  ∧ ∀ r, r ∈ recipients s →
         r_id r < nextRecipientId s ∧ r_broadcastId r < nextBroadcastId s.

Definition inCreationOrder (now : Z) (s : Store) : Prop :=
  StronglySorted (λ x y, (r_createdAt x ≤ r_createdAt y)%Z) (recipients s)
  ∧ ∀ r, r ∈ recipients s → (r_createdAt r ≤ now)%Z.

(** ** The states a run goes through

    [Reach c p0 d k f p]: from the loop state [p0], the run [c] can be in
    loop state [p], having dispatched the first [d] rows of its list,
    recorded the results of the first [k], and written counters that
    cover the first [f].  A control request can be served in any of these
    states. *)
Inductive Reach (c : Run) (p0 : Progress)
  : nat → nat → nat → Progress → Prop :=
| reach_start : Reach c p0 0 0 0 p0
| reach_serve d k f p q :
    Reach c p0 d k f p →
    Reach c p0 d k f
      (setWorld (serve (j_tenantId (run_job c)) (j_broadcastId (run_job c))
                   (run_now c) (world p) q) p)
| reach_dispatch n p :
    Reach c p0 n n n p →
    ¬ stopRequested (currentStatus c (world p)) →
    n < length (run_recipients c) →
    Reach c p0
      (n + length (slice n (n + batchSizeOf (run_broadcast c))
                     (run_recipients c))) n n
      (setWorld
         (emit (Dispatched
                  (r_id <$> slice n (n + batchSizeOf (run_broadcast c))
                              (run_recipients c)))
            (emit (Checked (currentStatus c (world p))) (world p))) p)
| reach_record d k f p x :
    Reach c p0 d k f p →
    k < d →
    run_recipients c !! k = Some x →
    Reach c p0 d (S k) f (recordResult (run_now c) p (x, outcomeOf c x))
| reach_counts d f p :
    Reach c p0 d d f p →
    Reach c p0 d d d
      (setWorld
         (commit BroadcastWrite
            (updateBroadcast (j_broadcastId (run_job c))
               (withCounts (sentSoFar p) (failedSoFar p))) (world p)) p)
| reach_sleep d k f p ms :
    Reach c p0 d k f p →
    Reach c p0 d k f (setWorld (emit (Slept ms) (world p)) p)
| reach_complete d f p :
    Reach c p0 d d f p →
    Reach c p0 d d d
      (setWorld
         (commit BroadcastWrite
            (updateBroadcast (j_broadcastId (run_job c))
               (completed (run_now c) (sentSoFar p) (failedSoFar p)))
            (world p)) p).

(** The loop state in which the handler enters the loop, [w] being the
    world in which it writes SENDING. *)
Definition entry (job : BroadcastJobData) (now : Z) (broadcast : Broadcast)
    (w : World) : Progress :=
  {| world :=
       commit BroadcastWrite
         (updateBroadcast (j_broadcastId job) (sending (j_resume job) now)) w;
     sentSoFar := sentCount broadcast;
     failedSoFar := failedCount broadcast |}.

(** The world a run leaves is the world of the last loop state, or that
    world with the stopping status check at its end. *)
Definition leftBy (p : Progress) (w' : World) : Prop :=
  w' = world p ∨ ∃ st, w' = emit (Checked st) (world p).

(** While a run goes on, every status check made so far read a status
    that lets the run go on and was followed at once by a dispatch, and
    every dispatch followed a check. *)
Definition checksPassed (id : nat) (s : Store) (t : list Event) : Prop :=
  (∀ t1 st t2,
     t = t1 ++ Checked st :: t2 →
     st = b_status <$> broadcasts (lastStore s t1) !! id
     ∧ (st ∉ halting)
     ∧ ∃ rows t3, t2 = Dispatched rows :: t3)
  ∧ dispatchesFollowChecks t.

(** * The rest of the service and of the processor *)

(** ** [BroadcastsService.delete]

    The operation answers with a [NotFoundException], with a
    [BadRequestException] (a campaign that is being sent cannot be
    deleted), or with nothing. *)
Inductive DeleteResult :=
| Deleted
| DeleteNotFound               (* NotFoundException *)
| DeleteWhileSending.          (* BadRequestException *)

(** The transaction of [delete]: [deleteMany] of the rows of the campaign
    and [delete] of the campaign. *)
Definition deleteBroadcast (id : nat) (s : Store) : Store :=
  {| tenants := tenants s; contacts := contacts s;
     groupMembers := groupMembers s;
     broadcasts := delete id (broadcasts s);
     recipients := filter (λ r, r_broadcastId r ≠ id) (recipients s);
     broadcastQueue := broadcastQueue s;
     nextBroadcastId := nextBroadcastId s;
     nextRecipientId := nextRecipientId s |}.

Module Service.
Definition delete (tenantId : string) (id : nat) (s : Store)
  : DeleteResult * Store :=
  match findFirstBroadcast s id tenantId with
  | None => (DeleteNotFound, s)
  | Some broadcast =>
      if decide (b_status broadcast = BroadcastStatus.SENDING) then
        (DeleteWhileSending, s)
      else
        (Deleted, deleteBroadcast id (queueRemoveJobs (JobBroadcast id) s))
  end.
End Service.

(** ** [BroadcastProcessor.interpolateVariables]

    [template.replace(/\{\{(\w+)\}\}/g, ...)] on the characters of the
    template.  The pattern and the word class are ASCII, so the bytes of
    a string stand for its characters: no byte of a longer character is a
    brace or a word character. *)
Module Processor.

(** The class [\w]: digits, letters and the underscore. *)
Definition isWordChar (a : ascii) : bool :=
  let n := nat_of_ascii a in
  ((48 <=? n) && (n <=? 57)) || ((65 <=? n) && (n <=? 90))
  || ((97 <=? n) && (n <=? 122)) || (n =? 95).

(** The longest run of word characters at the head, and what follows. *)
Fixpoint spanWord (l : list ascii) : list ascii * list ascii :=
  match l with
  | a :: l' =>
      if isWordChar a
      then (a :: (spanWord l').1, (spanWord l').2)
      else ([], l)
  | [] => ([], [])
  end.

(** A match of the pattern at the head: the captured key and the rest.
    The run of word characters is taken whole; a shorter one would be
    followed by a word character, not by a closing brace. *)
Definition matchPlaceholder (l : list ascii)
  : option (list ascii * list ascii) :=
  match l with
  | a :: b :: l1 =>
      if decide (a = "{"%char ∧ b = "{"%char) then
        match spanWord l1 with
        | (k :: key, c :: d :: rest) =>
            if decide (c = "}"%char ∧ d = "}"%char)
            then Some (k :: key, rest)
            else None
        | _ => None
        end
      else None
  | _ => None
  end.

Definition placeholder (key : list ascii) : list ascii :=
  "{"%char :: "{"%char :: key ++ ["}"%char; "}"%char].

(** The callback: [variables[key] !== undefined ? String(variables[key])
    : match].  [variables key] is the text of the value when it is
    defined. *)
Definition replacement (variables : string → option string)
    (key : list ascii) : list ascii :=
  match variables (String.string_of_list_ascii key) with
  | Some v => String.list_ascii_of_string v
  | None => placeholder key
  end.

(** The global replace: at each position either a match, whose text is
    replaced and skipped, or a character that is kept.  [skip] counts the
    characters of the last match that are still to be passed over. *)
Fixpoint replaceAll (variables : string → option string) (skip : nat)
    (l : list ascii) : list ascii :=
  match l with
  | [] => []
  | a :: l' =>
      match skip with
      | S k => replaceAll variables k l'
      | 0 =>
          match matchPlaceholder l with
          | Some (key, _) =>
              replacement variables key
              ++ replaceAll variables (length key + 3) l'
          | None => a :: replaceAll variables 0 l'
          end
      end
  end.

Definition interpolateVariables (template : string)
    (variables : string → option string) : string :=
  String.string_of_list_ascii
    (replaceAll variables 0 (String.list_ascii_of_string template)).

(** [BroadcastProcessor.interpolateTemplateParams], on the entries of the
    parameter object. *)
Definition interpolateTemplateParams (params : list (string * string))
    (variables : string → option string) : list (string * string) :=
  prod_map id (λ value, interpolateVariables value variables) <$> params.

End Processor.

(** The object [{ contactName }] that [sendMessage] passes: its own
    property, and whatever [inherited] says of the names it inherits. *)
Definition contactVariables (inherited : string → option string)
    (contactName : string) : string → option string :=
  λ key,
    if decide (key = "contactName"%string) then Some contactName
    else inherited key.

(** The environment of a run whose text substitution is the processor's
    own. *)
Definition withInterpolation (inherited : string → option string)
    (service : nat → WaRequest → WaResponse)
    (requests : Await → list ControlRequest) : Environment :=
  {| interpolateVariables :=
       λ template contactName,
         Processor.interpolateVariables template
           (contactVariables inherited contactName);
     whatsappService := service;
     arrivals := requests;
     tieOrder := λ _, 0 |}.

(** ** Statements about what an operation leaves alone *)

(** [s'] has the tables of tenants, contacts and group members of [s], and
    every broadcast of [s] other than [id]. *)
Definition sameElsewhere (id : nat) (s s' : Store) : Prop :=
  tenants s' = tenants s
  ∧ contacts s' = contacts s
  ∧ groupMembers s' = groupMembers s
  ∧ ∀ j, j ≠ id → broadcasts s' !! j = broadcasts s !! j.

(** A contact of the tenant that has a phone number. *)
Definition reachable (s : Store) (tenantId : string) (id : string) : Prop :=
  ∃ c, contacts s !! id = Some c
       ∧ c_tenantId c = tenantId ∧ c_phone c ≠ None.

(** A rule without additional filters. *)
Definition plainTarget (ty : TargetType) (groups tags ids : list string)
  : Targeting :=
  {| targetType := Some ty; targetGroupIds := Some groups;
     targetTags := Some tags; targetContactIds := Some ids;
     filters := None |}.

Definition onlyMaxSpent (f : Filters) : Filters :=
  {| hasOrders := hasOrders f; minSpent := None; maxSpent := maxSpent f;
     lastContactAfter := lastContactAfter f;
     lastContactBefore := lastContactBefore f;
     governorate := governorate f |}.

Definition withFilters (t : Targeting) (f : Filters) : Targeting :=
  {| targetType := targetType t; targetGroupIds := targetGroupIds t;
     targetTags := targetTags t; targetContactIds := targetContactIds t;
     filters := Some f |}.

(** ** More sample data *)

Definition noTargeting : Targeting :=
  {| targetType := None; targetGroupIds := None; targetTags := None;
     targetContactIds := None; filters := None |}.

(** An update that renames the campaign, and one that names the contacts
    to send to. *)
Definition renameDto (name : string) : UpdateBroadcastDto :=
  {| u_name := Some name; u_messageType := None; u_content := None;
     u_mediaUrl := None; u_mediaCaption := None; u_templateName := None;
     u_templateParams := None; u_target := noTargeting;
     u_scheduledAt := None; u_batchSize := None; u_batchDelayMs := None |}.

Definition retargetDto (ids : list string) : UpdateBroadcastDto :=
  {| u_name := None; u_messageType := None; u_content := None;
     u_mediaUrl := None; u_mediaCaption := None; u_templateName := None;
     u_templateParams := None;
     u_target :=
       {| targetType := None; targetGroupIds := None; targetTags := None;
          targetContactIds := Some ids; filters := None |};
     u_scheduledAt := None; u_batchSize := None; u_batchDelayMs := None |}.

(** The sample campaign while it is being sent. *)
Definition sendingCampaign (ids : list string) (batchSize : nat) : Store :=
  updateBroadcast 0 (sending false 1500) (queuedCampaign ids batchSize).

Definition withoutFilters (t : Targeting) : Targeting :=
  {| targetType := targetType t; targetGroupIds := targetGroupIds t;
     targetTags := targetTags t; targetContactIds := targetContactIds t;
     filters := None |}.

Definition onlyBefore (f : Filters) : Filters :=
  {| hasOrders := hasOrders f; minSpent := minSpent f; maxSpent := maxSpent f;
     lastContactAfter := None;
     lastContactBefore := lastContactBefore f;
     governorate := governorate f |}.

(** A contact of the tenant that carries one of the tags. *)
Definition tagged (s : Store) (tenantId : string) (tags : list string)
    (id : string) : Prop :=
  ∃ c, contacts s !! id = Some c
       ∧ c_tenantId c = tenantId ∧ ∃ t, t ∈ tags ∧ t ∈ c_tags c.

(** A contact that a membership row puts into one of the groups. *)
Definition memberOf (s : Store) (groups : list string) (id : string) : Prop :=
  ∃ m, m ∈ groupMembers s ∧ m_groupId m ∈ groups ∧ m_contactId m = id.

(** Spending bounds of which the lower one is lost. *)
Definition spendingBetween (lo hi : Z) : Filters :=
  {| hasOrders := None; minSpent := Some lo; maxSpent := Some hi;
     lastContactAfter := None; lastContactBefore := None;
     governorate := None |}.

(** The sample store with a group [g1] that lists [c1] twice and [c6]. *)
Definition groupedStore : Store :=
  {| tenants := tenants sampleStore; contacts := contacts sampleStore;
     groupMembers :=
       [{| m_groupId := "g1"; m_contactId := "c1" |};
        {| m_groupId := "g2"; m_contactId := "c2" |};
        {| m_groupId := "g1"; m_contactId := "c1" |};
        {| m_groupId := "g1"; m_contactId := "c6" |}];
     broadcasts := broadcasts sampleStore;
     recipients := recipients sampleStore;
     broadcastQueue := broadcastQueue sampleStore;
     nextBroadcastId := nextBroadcastId sampleStore;
     nextRecipientId := nextRecipientId sampleStore |}.

(** ** The table in the course of a run

    The recipient table [l] once the results of the first [k] rows of the
    run's list are recorded. *)
Definition tableAfter (c : Run) (k : nat) (l : list BroadcastRecipient)
  : list BroadcastRecipient :=
  (λ r, if decide (r_id r ∈ r_id <$> take k (run_recipients c))
        then recordedRow c r else r) <$> l.

(** [s'] has the tables of tenants and group members of [s] and every
    broadcast of [s] other than [id]: the tables, the recipient rows
    apart, that neither the processor nor the channel writes. *)
Definition keptElsewhere (id : nat) (s s' : Store) : Prop :=
  tenants s' = tenants s
  ∧ groupMembers s' = groupMembers s
  ∧ ∀ j, j ≠ id → broadcasts s' !! j = broadcasts s !! j.

(** What a row update keeps of a row. *)
Definition rowIdentity (r : BroadcastRecipient) : nat * nat * string * Z :=
  (r_id r, r_broadcastId r, r_contactId r, r_createdAt r).

(** The channel resolves every call. *)
Definition alwaysResolves (env : Environment) : Prop :=
  ∀ r q, ∃ keyId, whatsappService env r q = Resolved keyId.

(** The channel rejects every call. *)
Definition alwaysRejects (env : Environment) : Prop :=
  ∀ r q, ∃ message, whatsappService env r q = Rejected message.

(** A campaign whose message [sendMessage] can build a call from, and
    whose pending rows all have their contact. *)
Definition sendable (s : Store) (id : nat) (broadcast : Broadcast) : Prop :=
  (messageType (b_message broadcast) = TEXT →
   is_Some (content (b_message broadcast)))
  ∧ ∀ x, x ∈ findPendingRecipients s id →
         is_Some (contacts s !! r_contactId x).

(** The sample campaign of five, paused after its first batch of two, and
    the store after the [resume] request that follows. *)
Definition resumeSampleJob : BroadcastJobData :=
  {| j_broadcastId := 0; j_tenantId := "t1"; j_resume := true |}.

Definition pausedWorld : World :=
  (outcomeOfRun pausedAfterFirstBatch sampleJob 2000
     (queuedCampaign fiveContacts 2)).2.

Definition resumedStore : Store := (resume "t1" 0 (db pausedWorld)).2.

Definition resumedWorld : World :=
  (outcomeOfRun (quiet channelUp) resumeSampleJob 3000 resumedStore).2.

(** The sample campaign of five after a run on a channel that is up. *)
Definition completedWorld : World :=
  (outcomeOfRun (quiet channelUp) sampleJob 2000
     (queuedCampaign fiveContacts 2)).2.

(** * Properties *)

(** ** Control requests *)

(** Closes a goal whose context decides a guard on a concrete status. *)
Ltac status_guard H :=
  exfalso;
  first
    [ discriminate H
    | by apply H
    | by (repeat (apply elem_of_cons in H as [H|H]; [discriminate H|]);
          apply elem_of_nil in H)
    | apply H; discriminate
    | apply H; rewrite !not_elem_of_cons; repeat split;
      first [ discriminate | apply not_elem_of_nil ]
    | apply H; rewrite !elem_of_cons; tauto ].

Lemma findFirstBroadcast_Some s id tenantId b :
  findFirstBroadcast s id tenantId = Some b →
  broadcasts s !! id = Some b ∧ b_tenantId b = tenantId.
Proof.
  unfold findFirstBroadcast. destruct (broadcasts s !! id) as [b'|]; [|done].
  case_decide; [|done]. intros [= ->]. done.
Qed.

(** C7: a control request (send-now, pause, resume, cancel) that the
    lifecycle table does not permit in the campaign's current state is
    answered with the operation's [BadRequestException], and the store it
    leaves is the store it found. *)
Theorem invalid_transition_rejected tenantId id now q s broadcast :
  findFirstBroadcast s id tenantId = Some broadcast →
  permitted q (b_status broadcast) = false →
  serveRequest tenantId id now q s
  = (Throw (BadRequestException (rejection q)), s).
Proof.
  intros Hfind Hperm.
  destruct q; simpl; unfold send, pause, resume, cancel; rewrite Hfind;
    destruct (b_status broadcast) eqn:Hst; simpl in Hperm; try discriminate;
    case_decide as Hguard; try reflexivity; status_guard Hguard.
Qed.

Lemma invalid_transition_rejected_witness :
  findFirstBroadcast (storeWithCampaign fiveContacts 2) 0 "t1"
  = Some (newBroadcast 0 "t1" (sampleDto fiveContacts 2) CUSTOM 5)
  ∧ serveRequest "t1" 0 2000 ReqPause (storeWithCampaign fiveContacts 2)
    = (Throw (BadRequestException NotSending),
       storeWithCampaign fiveContacts 2).
Proof.
  assert (H : findFirstBroadcast (storeWithCampaign fiveContacts 2) 0 "t1"
              = Some (newBroadcast 0 "t1" (sampleDto fiveContacts 2) CUSTOM 5))
    by (vm_compute; reflexivity).
  split; [exact H|].
  exact (invalid_transition_rejected "t1" 0 2000 ReqPause _ _ H eq_refl).
Defined.

(** The permitted requests, for comparison: each one is carried out and
    moves the campaign to the state the table names. *)
Lemma valid_transition_accepted tenantId id now q s broadcast :
  findFirstBroadcast s id tenantId = Some broadcast →
  permitted q (b_status broadcast) = true →
  ∃ s', serveRequest tenantId id now q s = (Ok (), s')
        ∧ b_status <$> broadcasts s' !! id
          = Some (match q with
                  | ReqSend => BroadcastStatus.QUEUED
                  | ReqPause => BroadcastStatus.PAUSED
                  | ReqResume => BroadcastStatus.SENDING
                  | ReqCancel => BroadcastStatus.CANCELLED
                  end).
Proof.
  intros Hfind Hperm.
  destruct (findFirstBroadcast_Some _ _ _ _ Hfind) as [Hb _].
  destruct q; simpl; unfold send, pause, resume, cancel; rewrite Hfind;
    destruct (b_status broadcast) eqn:Hst; simpl in Hperm; try discriminate;
    case_decide as Hguard; try (status_guard Hguard);
    eexists; (split; [reflexivity|]); simpl;
    rewrite lookup_alter_eq; simpl; rewrite Hb; reflexivity.
Qed.

(** ** Campaign creation *)

(** C8: when the targeting rule resolves to no recipient, [create] throws
    the [BadRequestException] for "no matching recipients" and the store
    is left as it was: no campaign, no recipient row, no queued job. *)
Theorem create_rejects_empty tenantId dto now thisMonth s :
  calculateRecipients s tenantId (dto_target dto) = [] →
  create tenantId dto now thisMonth s
  = (Throw (BadRequestException NoMatchingRecipients), s).
Proof.
  intros Hnone. unfold create. rewrite Hnone. reflexivity.
Qed.

Lemma create_rejects_empty_witness :
  calculateRecipients sampleStore "t1" (dto_target (sampleDto [] 2)) = []
  ∧ create "t1" (sampleDto [] 2) 1000 0 sampleStore
    = (Throw (BadRequestException NoMatchingRecipients), sampleStore).
Proof.
  split; [reflexivity|].
  exact (create_rejects_empty "t1" (sampleDto [] 2) 1000 0 sampleStore eq_refl).
Defined.

Lemma calculateRecipients_no_type s tenantId dto :
  targetType dto = None → calculateRecipients s tenantId dto = [].
Proof.
  intros H. unfold calculateRecipients. rewrite H.
  destruct (filters dto); [|done]. case_decide; [simpl in *; lia | done].
Qed.

(** C10: for a tenant whose plan has a finite limit ([broadcastsLimit] is
    not [-1]), [create] throws a [BadRequestException] and leaves the
    store untouched whenever the recipient rows of the month plus the
    recipients of the new campaign exceed the limit; with recipients to
    send to, the exception is the monthly-limit one.  With
    [broadcastsLimit = -1] the monthly-limit exception is never thrown,
    and a campaign with recipients is created. *)
Theorem create_monthly_limit tenantId dto now thisMonth s t :
  tenants s !! tenantId = Some t →
  let n := length (calculateRecipients s tenantId (dto_target dto)) in
  let limit := broadcastsLimit (plan t) in
  (limit ≠ (-1)%Z →
   (limit < Z.of_nat (monthlyCount s tenantId thisMonth + n))%Z →
   ∃ m, create tenantId dto now thisMonth s
        = (Throw (BadRequestException m), s)
        ∧ (n ≠ 0 → m = MonthlyLimitExceeded limit))
  ∧ (limit = (-1)%Z →
     (∀ l, (create tenantId dto now thisMonth s).1
           ≠ Throw (BadRequestException (MonthlyLimitExceeded l)))
     ∧ (n ≠ 0 → ∃ b, (create tenantId dto now thisMonth s).1 = Ok b)).
Proof.
  intros Ht n limit. subst n limit. unfold create. rewrite Ht. split.
  - intros Hfin Hover. case_decide as Hn.
    + eexists. split; [reflexivity|]. intros Hn'. done.
    + case_decide as Hguard.
      * eexists. split; [reflexivity|]. done.
      * exfalso. apply Hguard. done.
  - intros Hunl. split.
    + intros l. case_decide as Hn; [simpl; congruence|].
      case_decide as Hguard; [exfalso; tauto|].
      destruct (targetType (dto_target dto)); simpl; congruence.
    + intros Hn. case_decide as Hn'; [done|].
      case_decide as Hguard; [exfalso; tauto|].
      destruct (targetType (dto_target dto)) eqn:Hty.
      * eexists. reflexivity.
      * exfalso. apply Hn'.
        by rewrite calculateRecipients_no_type.
Qed.

Lemma create_monthly_limit_witness :
  tenants sampleStore !! "t2"%string
  = Some {| plan := {| broadcastsLimit := 3 |} |}
  ∧ ∃ m, create "t2" (sampleDto fiveContacts 2) 1000 0 sampleStore
         = (Throw (BadRequestException m), sampleStore)
         ∧ (5 ≠ 0 → m = MonthlyLimitExceeded 3).
Proof.
  split; [reflexivity|].
  apply (proj1 (create_monthly_limit "t2" (sampleDto fiveContacts 2) 1000 0
                  sampleStore _ eq_refl)).
  - discriminate.
  - vm_compute. reflexivity.
Defined.

(** A finite limit that is not exceeded lets the campaign through. *)
Lemma create_within_limit tenantId dto now thisMonth s t :
  tenants s !! tenantId = Some t →
  let n := length (calculateRecipients s tenantId (dto_target dto)) in
  n ≠ 0 →
  (Z.of_nat (monthlyCount s tenantId thisMonth + n)
   ≤ broadcastsLimit (plan t))%Z →
  ∃ b, (create tenantId dto now thisMonth s).1 = Ok b.
Proof.
  intros Ht n Hn Hle. subst n. unfold create. rewrite Ht.
  case_decide as Hn'; [done|].
  case_decide as Hguard; [lia|].
  destruct (targetType (dto_target dto)) eqn:Hty.
  - eexists. reflexivity.
  - exfalso. apply Hn'. by rewrite calculateRecipients_no_type.
Qed.

(** ** Recipient resolution *)

Lemma newSet_NoDup xs : NoDup (newSet xs).
Proof.
  unfold newSet.
  assert (H : ∀ acc, NoDup acc → NoDup (foldl setAdd acc xs)).
  { induction xs as [|x xs IH]; intros acc Hacc; simpl; [done|].
    apply IH. unfold setAdd. case_decide; [done|].
    apply NoDup_app. split_and!; [done| |apply NoDup_singleton].
    intros y Hy ->%list_elem_of_singleton. done. }
  apply H, NoDup_nil_2.
Qed.

Lemma findManyContactIds_NoDup s w : NoDup (findManyContactIds s w).
Proof.
  unfold findManyContactIds.
  eapply sublist_NoDup;
    [apply (NoDup_fst_map_to_list (contacts s))
    |apply fmap_sublist, sublist_filter].
Qed.

Lemma findManyContactIds_elem s w id :
  id ∈ findManyContactIds s w →
  ∃ c, contacts s !! id = Some c ∧ matchesWhere w id c = true.
Proof.
  unfold findManyContactIds. intros Hin.
  apply list_elem_of_fmap in Hin as [[id' c] [-> Hin]].
  apply list_elem_of_filter in Hin as [Hm Hin]. simpl in *.
  apply elem_of_map_to_list in Hin. eauto.
Qed.

Lemma matchesWhere_phone w id c :
  w_phoneNotNull w = true → matchesWhere w id c = true → c_phone c ≠ None.
Proof.
  unfold matchesWhere. intros ->.
  rewrite !andb_true_iff. intros [[[[[[_ Hp] _] _] _] _] _].
  by apply bool_decide_eq_true in Hp.
Qed.

(** The two paths that do meet the contract: the ALL rule, and any rule
    followed by the additional-filters query.  Both ask the contact table
    for [phone: { not: null }], and a table query yields each contact
    once. *)
Lemma calculateRecipients_ALL_wellResolved s tenantId dto :
  targetType dto = Some ALL →
  wellResolved s (calculateRecipients s tenantId dto).
Proof.
  intros Hty. unfold calculateRecipients. rewrite Hty.
  assert (Hq : ∀ w, w_phoneNotNull w = true →
                    wellResolved s (findManyContactIds s w)).
  { intros w Hw. split; [apply findManyContactIds_NoDup|].
    intros id Hin [c' [Hc' Hnone]].
    apply findManyContactIds_elem in Hin as [c [Hc Hm]].
    rewrite Hc in Hc'. injection Hc' as <-.
    revert Hnone. by eapply matchesWhere_phone. }
  destruct (filters dto); [case_decide|]; by apply Hq.
Qed.

Lemma calculateRecipients_filtered_wellResolved s tenantId dto f :
  filters dto = Some f →
  wellResolved s (calculateRecipients s tenantId dto).
Proof.
  intros Hf. unfold calculateRecipients. rewrite Hf.
  case_decide as Hlen.
  - split; [apply findManyContactIds_NoDup|].
    intros id Hin [c' [Hc' Hnone]].
    apply findManyContactIds_elem in Hin as [c [Hc Hm]].
    rewrite Hc in Hc'. injection Hc' as <-.
    revert Hnone. eapply matchesWhere_phone; [|exact Hm]. reflexivity.
  - match goal with |- wellResolved _ ?l => destruct l eqn:E end;
      [|simpl in Hlen; lia].
    split; [apply NoDup_nil_2|]. intros id Hin. by apply elem_of_nil in Hin.
Qed.

(** C2: the resolver does not meet its contract on every rule.  Without
    additional filters, the TAG rule returns a tagged contact that has no
    phone number, and the CUSTOM rule returns the list it was given,
    repetitions included. *)
Theorem calculateRecipients_not_wellResolved :
  calculateRecipients sampleStore "t1" (tagTarget ["vip"%string])
  = ["c6"%string]
  ∧ lacksPhone sampleStore "c6"
  ∧ ¬ wellResolved sampleStore
        (calculateRecipients sampleStore "t1" (tagTarget ["vip"%string]))
  ∧ calculateRecipients sampleStore "t1" (customTarget ["c1"; "c1"]%string)
    = ["c1"; "c1"]%string
  ∧ ¬ wellResolved sampleStore
        (calculateRecipients sampleStore "t1"
           (customTarget ["c1"; "c1"]%string)).
Proof.
  assert (Htag : calculateRecipients sampleStore "t1"
                   (tagTarget ["vip"%string]) = ["c6"%string])
    by (vm_compute; reflexivity).
  assert (Hphone : lacksPhone sampleStore "c6").
  { eexists. split; [vm_compute; reflexivity|reflexivity]. }
  split_and!; [exact Htag|exact Hphone| |reflexivity|].
  - rewrite Htag. intros [_ H]. apply (H "c6"%string); [|exact Hphone].
    apply list_elem_of_here.
  - intros [H _]. simpl in H. apply NoDup_cons in H as [H _].
    apply H, list_elem_of_here.
Qed.
(** ** The loop and the states it goes through *)

Lemma batchSizeOf_pos b : 0 < batchSizeOf b.
Proof. unfold batchSizeOf. destruct (b_batchSize b); lia. Qed.

Lemma slice_lookup {A} (xs : list A) i j n x :
  slice i j xs !! n = Some x → xs !! (i + n) = Some x.
Proof.
  unfold slice. intros H. apply lookup_take_Some in H as [H _].
  by rewrite lookup_drop in H.
Qed.

Lemma slice_length {A} (xs : list A) i b :
  i + length (slice i (i + b) xs) = min (i + b) (max i (length xs)).
Proof. unfold slice. rewrite length_take, length_drop. lia. Qed.

(** The requests that commit at an await leave the run where it is. *)
Lemma await_reach c p0 d k f a p :
  Reach c p0 d k f p → Reach c p0 d k f (await c a p).
Proof.
  intros Hr. unfold await, serveArrivals.
  assert (H : ∀ qs w,
            Reach c p0 d k f (setWorld w p) →
            Reach c p0 d k f
              (setWorld (foldl (serve (j_tenantId (run_job c))
                                  (j_broadcastId (run_job c)) (run_now c))
                           w qs) p)).
  { induction qs as [|q qs IHq]; intros w Hw; simpl; [done|].
    apply IHq. by apply (reach_serve _ _ _ _ _ _ q) in Hw. }
  apply H. by destruct p.
Qed.

(** The inner loop records the rows of its batch one after the other. *)
Lemma recordBatch_reach c p0 xs :
  ∀ d k f p,
    Reach c p0 d k f p →
    k + length xs ≤ d →
    (∀ n x, xs !! n = Some x → run_recipients c !! (k + n) = Some x) →
    Reach c p0 d (k + length xs) f
      (recordBatch c k p (zip xs (outcomeOf c <$> xs))).
Proof.
  induction xs as [|x xs IH]; intros d k f p Hr Hle Hrows.
  - simpl. by rewrite Nat.add_0_r.
  - change (recordBatch c k p (zip (x :: xs) (outcomeOf c <$> x :: xs)))
      with (recordBatch c (S k)
              (recordResult (run_now c) (await c (BeforeRow k) p)
                 (x, outcomeOf c x))
              (zip xs (outcomeOf c <$> xs))).
    replace (k + length (x :: xs)) with (S k + length xs) by (simpl; lia).
    apply IH.
    + apply reach_record; [by apply await_reach|simpl in Hle; lia|].
      specialize (Hrows 0 x eq_refl). by rewrite Nat.add_0_r in Hrows.
    + simpl in Hle. lia.
    + intros n y Hy. specialize (Hrows (S n) y Hy).
      by replace (S k + n) with (k + S n) by lia.
Qed.

Lemma processBatch_reach c p0 n p :
  Reach c p0 n n n p →
  ¬ stopRequested (currentStatus c (world p)) →
  n < length (run_recipients c) →
  let n' := n + length (slice n (n + batchSizeOf (run_broadcast c))
                          (run_recipients c)) in
  Reach c p0 n' n' n'
    (processBatch c n
       (setWorld (emit (Checked (currentStatus c (world p))) (world p)) p)).
Proof.
  intros Hr Hgo Hn n'. unfold processBatch.
  set (batch := slice n (n + batchSizeOf (run_broadcast c)) (run_recipients c)) in *.
  set (p1 := await c (BeforeCounts n) _).
  assert (H1 : Reach c p0 n' n' n p1).
  { subst p1 n'. apply await_reach, recordBatch_reach.
    - exact (reach_dispatch _ _ _ _ Hr Hgo Hn).
    - done.
    - intros m x Hx. by apply slice_lookup in Hx. }
  pose proof (await_reach _ _ _ _ _ (AfterCounts n) _
                (reach_counts _ _ _ _ _ H1)) as H2.
  case_decide.
  - by apply (reach_sleep _ _ _ _ _ _ (batchDelayMsOf (run_broadcast c))) in H2.
  - done.
Qed.

(** What the loop returns, in terms of the states a run goes through: it
    finishes with every row recorded and counted, its last write being
    the completing update, or it stops at a status check that reads
    PAUSED or CANCELLED, with everything dispatched so far recorded and
    counted. *)
Lemma batchLoop_reach c p0 fuel :
  ∀ i p ret w',
    let len := length (run_recipients c) in
    Reach c p0 (min i len) (min i len) (min i len) p →
    batchLoop c fuel i p = Some (ret, w') →
    (∃ p1,
       Reach c p0 len len len p1
       ∧ ret = Finished (sentSoFar p1) (failedSoFar p1)
       ∧ w' = commit BroadcastWrite
                (updateBroadcast (j_broadcastId (run_job c))
                   (completed (run_now c) (sentSoFar p1) (failedSoFar p1)))
                (world p1))
    ∨ (∃ p1 n st,
         Reach c p0 n n n p1 ∧ n < len
         ∧ ret = Stopped st (sentSoFar p1)
         ∧ currentStatus c (world p1) = Some st
         ∧ (st = BroadcastStatus.PAUSED ∨ st = BroadcastStatus.CANCELLED)
         ∧ w' = emit (Checked (Some st)) (world p1)).
Proof.
  induction fuel as [|fuel IH]; intros i p ret w' len Hr Hrun; [done|].
  simpl in Hrun. case_decide as Hi.
  - pose proof (await_reach _ _ _ _ _ (BeforeCheck i) _ Hr) as Hserved.
    unfold await in Hserved.
    case_decide as Hstop.
    + injection Hrun as <- <-. right.
      exists (setWorld (serveArrivals c (BeforeCheck i) (world p)) p),
        (min i len).
      destruct Hstop as [Hst|Hst]; rewrite Hst; simpl;
        eexists; split_and!; try done; try lia; tauto.
    + eapply IH; [|exact Hrun].
      apply processBatch_reach in Hserved; [|done|fold len; lia].
      simpl in Hserved.
      replace (min i len) with i in Hserved by lia.
      rewrite slice_length in Hserved.
      fold len in Hserved.
      replace (min (i + batchSizeOf (run_broadcast c)) (max i len))
        with (min (i + batchSizeOf (run_broadcast c)) len) in Hserved
        by lia.
      done.
  - injection Hrun as <- <-. left.
    exists (await c BeforeCompleted p).
    replace (min i len) with len in Hr by lia.
    split_and!; [by apply await_reach|done..].
Qed.

(** The loop does not run out of fuel: every test either ends it or moves
    the offset on by a batch. *)
Lemma batchLoop_total c fuel :
  ∀ i p, length (run_recipients c) - i < fuel →
         is_Some (batchLoop c fuel i p).
Proof.
  induction fuel as [|fuel IH]; intros i p Hfuel; [lia|].
  simpl. case_decide; [|by eexists]. case_decide; [by eexists|].
  apply IH. pose proof (batchSizeOf_pos (run_broadcast c)). lia.
Qed.

(** The handler always returns. *)
Lemma handleSendBroadcast_total env job now w :
  is_Some (handleSendBroadcast env job now w).
Proof.
  unfold handleSendBroadcast.
  destruct (broadcasts (db w) !! j_broadcastId job); [|by eexists].
  case_decide; [by eexists|]. apply batchLoop_total. lia.
Qed.

(** The shape of every return of the handler.  [p'] is the last loop
    state: after the completing update, or at the status check that
    stopped the run. *)
Lemma handleSendBroadcast_cases env job now w ret w' :
  handleSendBroadcast env job now w = Some (ret, w') →
  (broadcasts (db w) !! j_broadcastId job = None ∧ ret = Crashed ∧ w' = w)
  ∨ (∃ broadcast,
       broadcasts (db w) !! j_broadcastId job = Some broadcast
       ∧ ((b_status broadcast = BroadcastStatus.CANCELLED
           ∧ ret = Skipped ∧ w' = w)
          ∨ (b_status broadcast ≠ BroadcastStatus.CANCELLED
             ∧ let p0 := entry job now broadcast
                           (beforeSending env job now w) in
               let c := runOf env job now broadcast (db (world p0)) in
               ∃ p' n,
                 Reach c p0 n n n p' ∧ leftBy p' w'
                 ∧ ((ret = Finished (sentSoFar p') (failedSoFar p')
                     ∧ n = length (run_recipients c)
                     ∧ w' = world p'
                     ∧ ∃ p1,
                         Reach c p0 n n n p1
                         ∧ sentSoFar p1 = sentSoFar p'
                         ∧ failedSoFar p1 = failedSoFar p'
                         ∧ w' = commit BroadcastWrite
                                  (updateBroadcast (j_broadcastId job)
                                     (completed now (sentSoFar p')
                                        (failedSoFar p')))
                                  (world p1))
                    ∨ (∃ st, ret = Stopped st (sentSoFar p')
                             ∧ n < length (run_recipients c)
                             ∧ currentStatus c (world p') = Some st
                             ∧ (st = BroadcastStatus.PAUSED
                                ∨ st = BroadcastStatus.CANCELLED)
                             ∧ w' = emit (Checked (Some st))
                                      (world p')))))).
Proof.
  unfold handleSendBroadcast. intros Hrun.
  destruct (broadcasts (db w) !! j_broadcastId job) as [broadcast|] eqn:Hb.
  - right. exists broadcast. split; [done|].
    case_decide as Hst.
    + left. by injection Hrun as <- <-.
    + right. split; [done|]. simpl.
      eapply batchLoop_reach in Hrun; [|simpl; apply reach_start].
      destruct Hrun as [(p1&Hr&->&->)|(p1&n&st&Hr&Hn&->&Hcur&Hst'&->)].
      * eexists (setWorld _ p1), _. split; [by eapply reach_complete|].
        split; [by left|]. left. simpl.
        split_and!; [done..|]. by exists p1.
      * exists p1, n. split; [done|]. split; [right; by eexists|].
        right. exists st. by split_and!.
  - left. by injection Hrun as <- <-.
Qed.

(** What the stopping status check leaves of a world. *)
Lemma leftBy_db p w' : leftBy p w' → db w' = db (world p).
Proof. by intros [->|[st ->]]. Qed.

Lemma leftBy_batches p w' :
  leftBy p w' → batchesOf (trace w') = batchesOf (trace (world p)).
Proof.
  intros [->|[st ->]]; [done|]. simpl. unfold batchesOf.
  rewrite omap_app. simpl. by rewrite app_nil_r.
Qed.

Lemma leftBy_committed p w' by_ s :
  leftBy p w' →
  Committed by_ s ∈ trace w' → Committed by_ s ∈ trace (world p).
Proof.
  intros [->|[st ->]]; [done|]. simpl. intros Hin.
  apply elem_of_app in Hin as [Hin|Hin]; [done|].
  by apply list_elem_of_singleton in Hin.
Qed.

Lemma leftBy_committedOf p w' :
  leftBy p w' → committedOf (trace w') = committedOf (trace (world p)).
Proof.
  intros [->|[st ->]]; [done|]. simpl. unfold committedOf.
  rewrite omap_app. simpl. by rewrite app_nil_r.
Qed.

(** ** What the writes of a run change *)

Lemma sameLedger_refl s : sameLedger s s.
Proof. by split_and!. Qed.

Lemma sameLedger_trans s1 s2 s3 :
  sameLedger s1 s2 → sameLedger s2 s3 → sameLedger s1 s3.
Proof.
  intros (?&?&H12) (?&?&H23). split_and!; [congruence..|].
  intros i. by rewrite H23, H12.
Qed.

Lemma updateBroadcast_sameLedger id f s :
  (∀ b, ledgerOf (f b) = ledgerOf b) → sameLedger s (updateBroadcast id f s).
Proof.
  intros Hf. split_and!; [done..|]. intros i. simpl.
  destruct (decide (i = id)) as [->|Hne].
  - rewrite lookup_alter_eq. destruct (broadcasts s !! id); simpl; [|done].
    by rewrite Hf.
  - by rewrite lookup_alter_ne.
Qed.

Lemma serveRequest_sameLedger tenantId id now q s r s' :
  serveRequest tenantId id now q s = (r, s') → sameLedger s s'.
Proof.
  destruct q; simpl; unfold send, pause, resume, cancel;
    destruct (findFirstBroadcast s id tenantId); intros H;
    try (injection H as <- <-; apply sameLedger_refl);
    case_decide; injection H as <- <-; try apply sameLedger_refl.
  - eapply sameLedger_trans; [|by apply updateBroadcast_sameLedger].
    by split_and!.
  - by apply updateBroadcast_sameLedger.
  - eapply sameLedger_trans; [|by apply updateBroadcast_sameLedger].
    by split_and!.
  - eapply sameLedger_trans; [|by apply updateBroadcast_sameLedger].
    by split_and!.
Qed.

(** A served request adds at most one committed write to the trace. *)
Lemma serve_effect tenantId id now w q :
  let w' := serve tenantId id now w q in
  sameLedger (db w) (db w')
  ∧ (w' = w ∨ trace w' = trace w ++ [Committed (ServiceWrite q) (db w')]).
Proof.
  unfold serve.
  destruct (serveRequest tenantId id now q (db w)) as [[[]|e] s'] eqn:Hq;
    simpl.
  - split; [by eapply serveRequest_sameLedger|]. by right.
  - split; [apply sameLedger_refl|]. by left.
Qed.

Lemma rowsIn_sameLedger st id s s' :
  sameLedger s s' → rowsIn st id s' = rowsIn st id s.
Proof. intros (H&_&_). unfold rowsIn. by rewrite H. Qed.

(** *** Updates of one recipient row *)

Section update_recipient.
Context (id : nat) (g : BroadcastRecipient → BroadcastRecipient).
Hypothesis g_id : ∀ r, r_id (g r) = r_id r.

Let upd := (λ r : BroadcastRecipient, if decide (r_id r = id) then g r else r).

Lemma update_ids (l : list BroadcastRecipient) :
  r_id <$> (upd <$> l) = r_id <$> l.
Proof using g_id.
  rewrite <- list_fmap_compose. apply list_fmap_ext.
  intros ? r _. simpl. unfold upd. case_decide; [apply g_id|done].
Qed.

Lemma update_other (l : list BroadcastRecipient) r :
  r ∈ l → r_id r ≠ id → r ∈ upd <$> l.
Proof.
  intros Hr Hne. apply list_elem_of_fmap. exists r. split; [|done].
  unfold upd. by rewrite decide_False.
Qed.

Lemma update_self (l : list BroadcastRecipient) r :
  r ∈ l → r_id r = id → g r ∈ upd <$> l.
Proof.
  intros Hr He. apply list_elem_of_fmap. exists r. split; [|done].
  unfold upd. by rewrite decide_True.
Qed.

Lemma update_absent (l : list BroadcastRecipient) :
  id ∉ r_id <$> l → upd <$> l = l.
Proof.
  intros Hn. induction l as [|a l IH]; [done|].
  rewrite fmap_cons in Hn. apply not_elem_of_cons in Hn as [Hne Hn].
  rewrite fmap_cons, IH by done. unfold upd. by rewrite decide_False.
Qed.

(** With unique row keys, the update moves exactly one row from the
    count of what it was to the count of what it becomes. *)
Lemma update_count (P : BroadcastRecipient → Prop)
    `{∀ r, Decision (P r)} (l : list BroadcastRecipient) r :
  NoDup (r_id <$> l) → r ∈ l → r_id r = id →
  length (filter P (upd <$> l)) + (if decide (P r) then 1 else 0)
  = length (filter P l) + (if decide (P (g r)) then 1 else 0).
Proof.
  intros Hnd Hr He. induction l as [|a l IH]; [by apply elem_of_nil in Hr|].
  rewrite fmap_cons in Hnd. apply NoDup_cons in Hnd as [Ha Hnd].
  apply elem_of_cons in Hr as [->|Hr].
  - rewrite fmap_cons, update_absent by (by rewrite <- He).
    unfold upd at 1. rewrite decide_True by done.
    rewrite !filter_cons. repeat case_decide; simpl; first [lia|done].
  - assert (r_id a ≠ id).
    { intros Hai. apply Ha. rewrite Hai, <- He.
      apply list_elem_of_fmap. eauto. }
    rewrite fmap_cons. unfold upd at 1. rewrite decide_False by done.
    specialize (IH Hnd Hr).
    rewrite !filter_cons. repeat case_decide; simpl; first [lia|done].
Qed.
End update_recipient.

Lemma markSent_id now mid r : r_id (markSent now mid r) = r_id r.
Proof. done. Qed.

Lemma markFailed_id err r : r_id (markFailed err r) = r_id r.
Proof. done. Qed.

Lemma recordedRow_id c x : r_id (recordedRow c x) = r_id x.
Proof. unfold recordedRow. by destruct (success _). Qed.

Lemma recordedRow_broadcastId c x :
  r_broadcastId (recordedRow c x) = r_broadcastId x.
Proof. unfold recordedRow. by destruct (success _). Qed.

Lemma recordedRow_status c x :
  r_status (recordedRow c x) = statusFor (outcomeOf c x).
Proof. unfold recordedRow, statusFor. by destruct (success _). Qed.

(** The world after the result of row [x] is recorded: one committed
    update of that row, which replaces it by [recordedRow c x] if the
    store still holds it as the run read it. *)
Lemma recordResult_effect c p x :
  let p' := recordResult (run_now c) p (x, outcomeOf c x) in
  ∃ g, (∀ r, r_id (g r) = r_id r)
       ∧ g x = recordedRow c x
       ∧ db (world p') = updateRecipient (r_id x) g (db (world p))
       ∧ trace (world p')
         = trace (world p) ++ [Committed (RecipientWrite (r_id x))
                                 (db (world p'))]
       ∧ sentSoFar p'
         = sentSoFar p
           + (if decide (statusFor (outcomeOf c x) = RecipientStatus.SENT)
              then 1 else 0)
       ∧ failedSoFar p'
         = failedSoFar p
           + (if decide (statusFor (outcomeOf c x) = RecipientStatus.FAILED)
              then 1 else 0).
Proof.
  unfold recordResult, recordedRow, statusFor.
  destruct (success (outcomeOf c x)); simpl.
  - exists (markSent (run_now c) (messageId (outcomeOf c x))).
    split_and!; try done; lia.
  - exists (markFailed (error (outcomeOf c x))).
    split_and!; try done; lia.
Qed.

(** ** Invariants of a run *)

Lemma NoDup_fmap_lookup_ne {A B} (f : A → B) (l : list A) i j x y :
  NoDup (f <$> l) → l !! i = Some x → l !! j = Some y → i ≠ j → f x ≠ f y.
Proof.
  intros Hnd Hi Hj Hne Heq. apply Hne.
  eapply (NoDup_lookup _ i j (f x) Hnd).
  - by rewrite list_lookup_fmap, Hi.
  - by rewrite list_lookup_fmap, Hj, Heq.
Qed.

Lemma recordedIn_S c st k x :
  run_recipients c !! k = Some x →
  recordedIn c st (S k)
  = recordedIn c st k
    + (if decide (statusFor (outcomeOf c x) = st) then 1 else 0).
Proof.
  intros Hx. unfold recordedIn. rewrite (take_S_r _ _ _ Hx), filter_app.
  rewrite length_app, filter_cons, filter_nil. by case_decide.
Qed.

Lemma recordedIn_pending c k : recordedIn c RecipientStatus.PENDING k = 0.
Proof.
  unfold recordedIn. induction (take k (run_recipients c)) as [|x l IH];
    [done|].
  rewrite filter_cons. case_decide as H; [|done].
  unfold statusFor in H. by destruct (success _).
Qed.

Lemma statusFor_cases result :
  statusFor result = RecipientStatus.SENT
  ∨ statusFor result = RecipientStatus.FAILED.
Proof. unfold statusFor. destruct (success result); auto. Qed.

Lemma recordedIn_split c k :
  k ≤ length (run_recipients c) →
  recordedIn c RecipientStatus.SENT k + recordedIn c RecipientStatus.FAILED k
  = k.
Proof.
  intros Hk. unfold recordedIn.
  assert (H : ∀ l : list BroadcastRecipient,
            length (filter (λ x, statusFor (outcomeOf c x)
                                 = RecipientStatus.SENT) l)
            + length (filter (λ x, statusFor (outcomeOf c x)
                                   = RecipientStatus.FAILED) l)
            = length l).
  { induction l as [|x l IH]; [done|].
    rewrite !filter_cons.
    destruct (statusFor_cases (outcomeOf c x)) as [Hx|Hx]; rewrite Hx;
      repeat case_decide; simpl; first [lia|done]. }
  rewrite H. by apply length_take_le.
Qed.

Lemma recordedIn_mono c st k k' :
  k ≤ k' → recordedIn c st k ≤ recordedIn c st k'.
Proof.
  intros Hk. unfold recordedIn.
  replace (take k (run_recipients c))
    with (take k (take k' (run_recipients c)))
    by (rewrite take_take; f_equal; lia).
  rewrite <- (take_drop k (take k' (run_recipients c))) at 2.
  rewrite filter_app, length_app. lia.
Qed.

Lemma reach_bounds c p0 d k f p :
  Reach c p0 d k f p → f ≤ k ∧ k ≤ d ∧ d ≤ length (run_recipients c).
Proof.
  induction 1 as [|d k f p q _ IH|n p _ IH Hgo|d k f p x _ IH Hk Hx|d f p _ IH
                 |d k f p ms _ IH|d f p _ IH]; try lia.
  pose proof (slice_length (run_recipients c) n (batchSizeOf (run_broadcast c))). lia.
Qed.

(** The campaign stays in the store all along the run. *)
Lemma reach_ledger_lookup c p0 b0 d k f p :
  broadcasts (db (world p0)) !! j_broadcastId (run_job c) = Some b0 →
  Reach c p0 d k f p →
  is_Some (broadcasts (db (world p)) !! j_broadcastId (run_job c)).
Proof.
  intros Hb0.
  induction 1 as [|d k f p q _ IH|n p _ IH Hgo|d k f p x _ IH Hk Hx|d f p _ IH
                 |d k f p ms _ IH|d f p _ IH]; try exact IH.
  - by eexists.
  - destruct (serve_effect (j_tenantId (run_job c))
                (j_broadcastId (run_job c)) (run_now c) (world p) q)
      as [(_&_&Hl) _].
    simpl in *. specialize (Hl (j_broadcastId (run_job c))).
    destruct IH as [b Hb]. rewrite Hb in Hl.
    match type of Hl with
    | ledgerOf <$> ?o = _ => destruct o
    end; [by eexists|done].
  - destruct (recordResult_effect c p x) as (g&_&_&Hdb&_).
    rewrite Hdb. exact IH.
  - simpl. rewrite lookup_alter_eq. destruct IH as [b ->]. by eexists.
  - simpl. rewrite lookup_alter_eq. destruct IH as [b ->]. by eexists.
Qed.

(** A run that read no pending row dispatches nothing and writes to no
    row. *)
Lemma reach_idle c p0 d k f p :
  run_recipients c = [] →
  Reach c p0 d k f p →
  recipients (db (world p)) = recipients (db (world p0))
  ∧ batchesOf (trace (world p)) = batchesOf (trace (world p0)).
Proof.
  intros Hnil.
  induction 1 as [|d k f p q _ IH|n p _ IH Hgo Hn|d k f p x _ IH Hk Hx
                 |d f p _ IH|d k f p ms _ IH|d f p _ IH].
  - done.
  - destruct (serve_effect (j_tenantId (run_job c))
                (j_broadcastId (run_job c)) (run_now c) (world p) q)
      as [(Hrec&_&_) [Heq|Heq]]; simpl in *.
    + by rewrite Heq.
    + rewrite Hrec, Heq. unfold batchesOf in *. rewrite omap_app. simpl.
      by rewrite app_nil_r.
  - rewrite Hnil in Hn. simpl in Hn. lia.
  - by rewrite Hnil in Hx.
  - simpl. unfold batchesOf in *. rewrite omap_app. simpl.
    by rewrite app_nil_r.
  - simpl. unfold batchesOf in *. rewrite omap_app. simpl.
    by rewrite app_nil_r.
  - simpl. unfold batchesOf in *. rewrite omap_app. simpl.
    by rewrite app_nil_r.
Qed.

Section run_rows.
Context (c : Run) (p0 : Progress).

Local Abbreviation id := (j_broadcastId (run_job c)).
Local Abbreviation rs := (run_recipients c).
Local Abbreviation s0 := (db (world p0)).

(** The loop is entered on a table with unique row keys, with a list of
    distinct pending rows of the campaign read from that table. *)
Hypothesis table_keys : NoDup (r_id <$> recipients s0).
Hypothesis rows_read : ∀ x, x ∈ rs → x ∈ recipients s0 ∧ isPendingOf id x.
Hypothesis rows_distinct : NoDup (r_id <$> rs).

(** The rows: keys never change, a recorded row is there as recorded,
    and every other row is there as the run found it. *)
Lemma reach_rows d k f p :
  Reach c p0 d k f p →
  r_id <$> recipients (db (world p)) = r_id <$> recipients s0
  ∧ (∀ x, x ∈ take k rs → recordedRow c x ∈ recipients (db (world p)))
  ∧ (∀ r, r ∈ recipients s0 → r_id r ∉ r_id <$> take k rs →
          r ∈ recipients (db (world p))).
Proof using rows_read rows_distinct.
  induction 1 as [|d k f p q _ IH|n p _ IH Hgo|d k f p x _ IH Hk Hx|d f p _ IH
                 |d k f p ms _ IH|d f p _ IH]; try exact IH.
  - split_and!; [done| |done]. intros x Hx. by apply elem_of_nil in Hx.
  - destruct (serve_effect (j_tenantId (run_job c)) id (run_now c)
                (world p) q) as [(Hrec&_&_) _].
    simpl in *. by rewrite Hrec.
  - destruct IH as (Hids&Hdone&Hrest).
    destruct (recordResult_effect c p x) as (g&Hg&Hgx&Hdb&_).
    rewrite Hdb. simpl.
    assert (Hxin : x ∈ recipients (db (world p))).
    { apply Hrest; [by apply rows_read, (list_elem_of_lookup_2 _ k)|].
      intros Hin. apply list_elem_of_fmap in Hin as (y&Hy&Hyin).
      apply elem_of_take in Hyin as (j&Hj&Hjk).
      eapply (NoDup_fmap_lookup_ne r_id rs k j x y); eauto; lia. }
    split_and!.
    + by rewrite update_ids.
    + intros y Hy. rewrite (take_S_r _ _ _ Hx) in Hy.
      apply elem_of_app in Hy as [Hy|Hy].
      * apply update_other; [by apply Hdone|].
        rewrite recordedRow_id.
        apply elem_of_take in Hy as (j&Hj&Hjk).
        eapply (NoDup_fmap_lookup_ne r_id rs j k y x); eauto; lia.
      * apply list_elem_of_singleton in Hy as ->. rewrite <- Hgx.
        by apply update_self.
    + intros r Hr Hnot. rewrite (take_S_r _ _ _ Hx), fmap_app in Hnot.
      apply not_elem_of_app in Hnot as [Hnot Hne].
      apply update_other; [by apply Hrest|].
      intros Heq. apply Hne. rewrite Heq. apply list_elem_of_here.
Qed.

Lemma reach_keys d k f p :
  Reach c p0 d k f p → NoDup (r_id <$> recipients (db (world p))).
Proof using table_keys rows_read rows_distinct. intros H. apply reach_rows in H as (->&_). exact table_keys. Qed.

(** Two rows of a table with unique keys that share a key are one row. *)
Lemma same_key_same_row (l : list BroadcastRecipient) r r' :
  NoDup (r_id <$> l) → r ∈ l → r' ∈ l → r_id r = r_id r' → r = r'.
Proof.
  intros Hnd Hr Hr' Heq.
  apply list_elem_of_lookup in Hr as [i Hi].
  apply list_elem_of_lookup in Hr' as [j Hj].
  destruct (decide (i = j)) as [->|Hne]; [congruence|].
  by destruct (NoDup_fmap_lookup_ne r_id l i j r r' Hnd Hi Hj Hne).
Qed.

End run_rows.

Section run_ledger.
Context (c : Run) (p0 : Progress) (b0 : Broadcast).

Local Abbreviation id := (j_broadcastId (run_job c)).
Local Abbreviation rs := (run_recipients c).
Local Abbreviation s0 := (db (world p0)).

(** Moreover, the local counters are the stored ones on entry. *)
Hypothesis table_keys : NoDup (r_id <$> recipients s0).
Hypothesis rows_read : ∀ x, x ∈ rs → x ∈ recipients s0 ∧ isPendingOf id x.
Hypothesis rows_distinct : NoDup (r_id <$> rs).
Hypothesis entered : broadcasts s0 !! id = Some b0.
Hypothesis sent_entered : sentSoFar p0 = sentCount b0.
Hypothesis failed_entered : failedSoFar p0 = failedCount b0.

(** The books: the local counters cover the [k] recorded rows, the
    stored counters the [f] rows of the last counter write, and the rows
    of the campaign in each state are those of the start, moved by the
    [k] recorded results. *)
Lemma reach_ledger d k f p :
  Reach c p0 d k f p →
  sentSoFar p = sentCount b0 + recordedIn c RecipientStatus.SENT k
  ∧ failedSoFar p = failedCount b0 + recordedIn c RecipientStatus.FAILED k
  ∧ (∃ b, broadcasts (db (world p)) !! id = Some b
          ∧ totalRecipients b = totalRecipients b0
          ∧ sentCount b
            = sentCount b0 + recordedIn c RecipientStatus.SENT f
          ∧ failedCount b
            = failedCount b0 + recordedIn c RecipientStatus.FAILED f)
  ∧ (∀ st, rowsIn st id (db (world p))
           + (if decide (st = RecipientStatus.PENDING) then k else 0)
           = rowsIn st id s0 + recordedIn c st k).
Proof using All.
  intros Hreach.
  induction Hreach as [|d k f p q Hr IH|n p Hr IH Hgo|d k f p x Hr IH Hk Hx
                      |d f p Hr IH|d k f p ms Hr IH|d f p Hr IH];
    try exact IH.
  - unfold recordedIn. simpl. rewrite !Nat.add_0_r.
    split_and!; [done|done|by exists b0|].
    intros st. case_decide; lia.
  - destruct IH as (Hs&Hf&(b&Hb&Htot&Hsc&Hfc)&Hrows).
    destruct (serve_effect (j_tenantId (run_job c)) id (run_now c)
                (world p) q) as [Hl _].
    simpl in *. split_and!; [done|done| |].
    + destruct Hl as (_&_&Hl). specialize (Hl id). rewrite Hb in Hl.
      match type of Hl with
      | ledgerOf <$> ?o = _ => destruct o as [b'|] eqn:Hb'
      end; [|done].
      simpl in Hl. injection Hl as Ht' Hs' Hf'. exists b'.
      split_and!; [done|congruence..].
    + intros st. rewrite (rowsIn_sameLedger _ _ _ _ Hl). apply Hrows.
  - destruct IH as (Hs&Hf&(b&Hb&Htot&Hsc&Hfc)&Hrows).
    destruct (recordResult_effect c p x) as (g&Hg&Hgx&Hdb&_&Hs'&Hf').
    pose proof (reach_rows c p0 rows_read rows_distinct _ _ _ _ Hr)
    as (_&_&Hrest).
    assert (Hxin : x ∈ recipients (db (world p))).
    { apply Hrest; [by apply rows_read, (list_elem_of_lookup_2 _ k)|].
      intros Hin. apply list_elem_of_fmap in Hin as (y&Hy&Hyin).
      apply elem_of_take in Hyin as (j&Hj&Hjk).
      eapply (NoDup_fmap_lookup_ne r_id rs k j x y); eauto; lia. }
    destruct (rows_read x (list_elem_of_lookup_2 _ _ _ Hx)) as [_ [Hxb Hxp]].
    split_and!.
    + rewrite Hs', Hs, (recordedIn_S _ _ _ _ Hx). lia.
    + rewrite Hf', Hf, (recordedIn_S _ _ _ _ Hx). lia.
    + exists b. rewrite Hdb. by split_and!.
    + intros st. rewrite Hdb, (recordedIn_S _ _ _ _ Hx).
      specialize (Hrows st). unfold rowsIn in *. simpl.
      pose proof (update_count (r_id x) g
                    (λ r, r_broadcastId r = id ∧ r_status r = st)
                    (recipients (db (world p))) x
                    (reach_keys c p0 table_keys rows_read rows_distinct
                       _ _ _ _ Hr)
                    Hxin eq_refl) as Hcount.
      rewrite Hgx, recordedRow_broadcastId, recordedRow_status in Hcount.
      rewrite Hxp in Hcount.
      destruct (statusFor_cases (outcomeOf c x)) as [Hc|Hc];
        rewrite Hc in *; repeat case_decide; subst; try lia;
        exfalso; intuition congruence.
  - destruct IH as (Hs&Hf&(b&Hb&Htot&Hsc&Hfc)&Hrows). simpl.
    split_and!; [done|done| |done].
    rewrite lookup_alter_eq, Hb. simpl. eexists. split; [done|]. simpl.
    by split_and!.
  - destruct IH as (Hs&Hf&(b&Hb&Htot&Hsc&Hfc)&Hrows). simpl.
    split_and!; [done|done| |done].
    rewrite lookup_alter_eq, Hb. simpl. eexists. split; [done|]. simpl.
    by split_and!.
Qed.
End run_ledger.

(** ** Invariants of the trace *)

Lemma committedOf_app t1 t2 :
  committedOf (t1 ++ t2) = committedOf t1 ++ committedOf t2.
Proof. apply omap_app. Qed.

Lemma batchesOf_app t1 t2 : batchesOf (t1 ++ t2) = batchesOf t1 ++ batchesOf t2.
Proof. apply omap_app. Qed.

Lemma lastStore_commit sI t by_ s : lastStore sI (t ++ [Committed by_ s]) = s.
Proof. unfold lastStore. rewrite committedOf_app. simpl. by rewrite last_snoc. Qed.

Lemma lastStore_other sI t e :
  (∀ by_ s, e ≠ Committed by_ s) → lastStore sI (t ++ [e]) = lastStore sI t.
Proof.
  intros He. unfold lastStore. rewrite committedOf_app.
  destruct e; [by destruct (He by_ s)|..]; simpl; by rewrite app_nil_r.
Qed.

Lemma lastStore_cons sI e t :
  lastStore sI (e :: t)
  = lastStore (match e with Committed _ s => s | _ => sI end) t.
Proof.
  unfold lastStore. destruct e as [by_ s| | |]; simpl; [|done..].
  destruct (committedOf t) as [|s1 l] eqn:E; [done|].
  rewrite last_cons_cons.
  destruct (last (s1 :: l)) eqn:El; [done|]. by apply last_None in El.
Qed.

Lemma eachEvent_snoc Q t :
  ∀ prev e,
    eachEvent Q prev t → Q (lastStore prev t) e → eachEvent Q prev (t ++ [e]).
Proof.
  induction t as [|e' t IH]; intros prev e Ht He; simpl.
  - done.
  - destruct Ht as [He' Ht]. split; [done|].
    apply IH; [done|]. by rewrite lastStore_cons in He.
Qed.

Lemma eachEvent_impl (Q1 Q2 : Store → Event → Prop) t :
  (∀ prev e, Q1 prev e → Q2 prev e) →
  ∀ prev, eachEvent Q1 prev t → eachEvent Q2 prev t.
Proof.
  intros HQ. induction t as [|e t IH]; intros prev; simpl; [done|].
  intros [He Ht]. split; [by apply HQ|by apply IH].
Qed.

(** Membership in a trace, with the store the event found. *)
Lemma eachEvent_elem Q t :
  ∀ prev e, eachEvent Q prev t → e ∈ t → ∃ s, Q s e.
Proof.
  induction t as [|e' t IH]; intros prev e Ht He.
  - by apply elem_of_nil in He.
  - destruct Ht as [He' Ht]. apply elem_of_cons in He as [->|He]; eauto.
Qed.

Lemma countersLe_refl id s : countersLe id s s.
Proof. by split. Qed.

Lemma countersLe_trans id s1 s2 s3 :
  countersLe id s1 s2 → countersLe id s2 s3 → countersLe id s1 s3.
Proof. unfold countersLe. lia. Qed.

Lemma countersOf_sameLedger id s s' :
  sameLedger s s' → countersOf id s' = countersOf id s.
Proof.
  intros (_&_&H). specialize (H id). unfold countersOf.
  destruct (broadcasts s' !! id), (broadcasts s !! id); simpl in H;
    try done. by injection H as _ -> ->.
Qed.

(** Appending a committed store whose counters are not below the current
    ones keeps the committed stores ordered by their counters. *)
Lemma sorted_commit id t s s' by_ :
  StronglySorted (countersLe id) (committedOf t)
  ∧ Forall (λ s1, countersLe id s1 s) (committedOf t) →
  countersLe id s s' →
  StronglySorted (countersLe id) (committedOf (t ++ [Committed by_ s']))
  ∧ Forall (λ s1, countersLe id s1 s')
      (committedOf (t ++ [Committed by_ s'])).
Proof.
  intros [Hs Hf] Hle. rewrite committedOf_app. simpl. split.
  - apply StronglySorted_app_2; [|done|repeat constructor].
    intros s1 s2 H1 ->%list_elem_of_singleton.
    rewrite Forall_forall in Hf.
    eapply countersLe_trans; [by apply Hf|done].
  - apply Forall_app. split.
    + eapply Forall_impl; [exact Hf|]. intros s1 H1. simpl in *.
      eapply countersLe_trans; [exact H1|exact Hle].
    + constructor; [apply countersLe_refl|constructor].
Qed.

(** ** Status checks in a trace *)

Lemma halting_stopRequested st : st ∈ halting ↔ stopRequested st.
Proof.
  unfold halting, stopRequested.
  rewrite !elem_of_cons, elem_of_nil. tauto.
Qed.

(** The two ways in which a list that ends in [e] splits at an [x]. *)
Lemma snoc_split {A} (t t1 t2 : list A) e x :
  t ++ [e] = t1 ++ x :: t2 →
  (t2 = [] ∧ t = t1 ∧ e = x)
  ∨ ∃ t2', t2 = t2' ++ [e] ∧ t = t1 ++ x :: t2'.
Proof.
  intros Heq. destruct t2 as [|y t2 _] using rev_ind.
  - apply app_inj_tail in Heq as [-> ->]. by left.
  - change (t1 ++ x :: t2 ++ [y]) with (t1 ++ (x :: t2) ++ [y]) in Heq.
    rewrite (assoc_L (++)) in Heq.
    apply app_inj_tail in Heq as [-> ->]. right. by exists t2.
Qed.

Lemma checksPassed_nil id sI : checksPassed id sI [].
Proof.
  split.
  - intros t1 st t2 Heq. by destruct t1.
  - intros t1 rows t2 Heq. by destruct t1.
Qed.

Lemma checksPassed_snoc id sI t e :
  checksPassed id sI t →
  (∀ st, e ≠ Checked st) → (∀ rows, e ≠ Dispatched rows) →
  checksPassed id sI (t ++ [e]).
Proof.
  intros [Hc Hd] Hne1 Hne2. split.
  - intros t1 st t2 Heq.
    apply snoc_split in Heq as [(_&_&->)|(t2'&->&->)];
      [by destruct (Hne1 st)|].
    destruct (Hc t1 st t2' eq_refl) as (Hst&Hgo&rows&t3&->).
    split_and!; [done..|]. by exists rows, (t3 ++ [e]).
  - intros t1 rows t2 Heq.
    apply snoc_split in Heq as [(_&_&->)|(t2'&->&->)];
      [by destruct (Hne2 rows)|].
    by eapply Hd.
Qed.

Lemma checksPassed_dispatch id sI t st rows :
  checksPassed id sI t →
  st = b_status <$> broadcasts (lastStore sI t) !! id →
  st ∉ halting →
  checksPassed id sI ((t ++ [Checked st]) ++ [Dispatched rows]).
Proof.
  intros [Hc Hd] Hst Hgo. split.
  - intros t1 st' t2 Heq.
    apply snoc_split in Heq as [(_&_&?)|(t2'&->&Heq)]; [done|].
    apply snoc_split in Heq as [(->&->&Heq)|(t2''&->&->)].
    + injection Heq as <-. split_and!; [done..|]. by exists rows, [].
    + destruct (Hc t1 st' t2'' eq_refl) as (Hst'&Hgo'&rows'&t3&->).
      split_and!; [done..|].
      by exists rows', ((t3 ++ [Checked st]) ++ [Dispatched rows]).
  - intros t1 rows' t2 Heq.
    apply snoc_split in Heq as [(_&<-&_)|(t2'&->&Heq)]; [by exists t, st|].
    apply snoc_split in Heq as [(_&_&?)|(t2''&->&->)]; [done|].
    by eapply Hd.
Qed.

(** A trace whose checks all passed, and that trace with one more check
    at its end, are traces in which the checks decide. *)
Lemma checksPassed_checksDecide id sI t :
  checksPassed id sI t → checksDecide id sI t ∧ dispatchesFollowChecks t.
Proof.
  intros [Hc Hd]. split; [|done].
  intros t1 st t2 Heq. destruct (Hc t1 st t2 Heq) as (Hst&Hgo&Hnext).
  by split_and!.
Qed.

Lemma checksPassed_stop id sI t st :
  checksPassed id sI t →
  st = b_status <$> broadcasts (lastStore sI t) !! id →
  st ∈ halting →
  checksDecide id sI (t ++ [Checked st])
  ∧ dispatchesFollowChecks (t ++ [Checked st]).
Proof.
  intros [Hc Hd] Hst Hstop. split.
  - intros t1 st' t2 Heq.
    apply snoc_split in Heq as [(->&->&Heq)|(t2'&->&->)].
    + injection Heq as <-. by split_and!.
    + destruct (Hc t1 st' t2' eq_refl) as (Hst'&Hgo'&rows'&t3&->).
      split_and!; [done|done|]. intros _.
      by exists rows', (t3 ++ [Checked st]).
  - intros t1 rows t2 Heq.
    apply snoc_split in Heq as [(_&_&?)|(t2'&->&->)]; [done|].
    by eapply Hd.
Qed.

Section trace_invariants.
Context (c : Run) (p0 : Progress) (sI : Store).

Local Abbreviation id := (j_broadcastId (run_job c)).
Local Abbreviation rs := (run_recipients c).
Local Abbreviation s0 := (db (world p0)).

(** Every store that the run committed is the store of a state the run
    went through; after a write of the campaign by the run itself, the
    counters of that state cover all the rows recorded by then. *)
Lemma reach_committed d k f p :
  Reach c p0 d k f p →
  ∀ by_ s,
    Committed by_ s ∈ trace (world p) →
    Committed by_ s ∈ trace (world p0)
    ∨ ∃ d' k' f' p',
        Reach c p0 d' k' f' p' ∧ s = db (world p')
        ∧ match by_ with
          | BroadcastWrite => f' = k'
          | _ => True
          end.
Proof.
  intros Hreach.
  induction Hreach as [|d k f p q Hr IH|n p Hr IH Hgo|d k f p x Hr IH Hk Hx
                      |d f p Hr IH|d k f p ms Hr IH|d f p Hr IH];
    intros by_ s Hin.
  - by left.
  - pose proof (reach_serve _ _ _ _ _ _ q Hr) as Hr'.
    destruct (serve_effect (j_tenantId (run_job c)) id (run_now c)
                (world p) q) as [_ [Heq|Heq]]; simpl in *.
    + rewrite Heq in Hin. by apply IH.
    + rewrite Heq in Hin. apply elem_of_app in Hin as [Hin|Hin];
        [by apply IH|].
      apply list_elem_of_singleton in Hin. injection Hin as -> ->.
      right. by eexists _, _, _, _.
  - simpl in Hin. apply elem_of_app in Hin as [Hin|Hin];
      [|by apply list_elem_of_singleton in Hin].
    apply elem_of_app in Hin as [Hin|Hin]; [by apply IH|].
    by apply list_elem_of_singleton in Hin.
  - pose proof (reach_record _ _ _ _ _ _ _ Hr Hk Hx) as Hr'.
    destruct (recordResult_effect c p x) as (g&_&_&_&Heq&_).
    rewrite Heq in Hin. apply elem_of_app in Hin as [Hin|Hin];
      [by apply IH|].
    apply list_elem_of_singleton in Hin. injection Hin as -> ->.
    right. by eexists _, _, _, _.
  - pose proof (reach_counts _ _ _ _ _ Hr) as Hr'.
    simpl in Hin. apply elem_of_app in Hin as [Hin|Hin]; [by apply IH|].
    apply list_elem_of_singleton in Hin. injection Hin as -> ->.
    right. by eexists _, _, _, _.
  - simpl in Hin. apply elem_of_app in Hin as [Hin|Hin]; [by apply IH|].
    by apply list_elem_of_singleton in Hin.
  - pose proof (reach_complete _ _ _ _ _ Hr) as Hr'.
    simpl in Hin. apply elem_of_app in Hin as [Hin|Hin]; [by apply IH|].
    apply list_elem_of_singleton in Hin. injection Hin as -> ->.
    right. by eexists _, _, _, _.
Qed.

(** The trace only grows. *)
Lemma reach_extends d k f p :
  Reach c p0 d k f p → ∃ l, trace (world p) = trace (world p0) ++ l.
Proof.
  intros Hreach.
  induction Hreach as [|d k f p q Hr IH|n p Hr IH Hgo|d k f p x Hr IH Hk Hx
                      |d f p Hr IH|d k f p ms Hr IH|d f p Hr IH];
    try (destruct IH as [l IH]).
  - exists []. by rewrite app_nil_r.
  - destruct (serve_effect (j_tenantId (run_job c)) id (run_now c)
                (world p) q) as [_ [Heq|Heq]]; simpl in *.
    + rewrite Heq. eauto.
    + rewrite Heq, IH, <- app_assoc. eauto.
  - simpl. rewrite IH, <- !app_assoc. eauto.
  - destruct (recordResult_effect c p x) as (g&_&_&_&Heq&_).
    rewrite Heq, IH, <- app_assoc. eauto.
  - simpl. rewrite IH, <- app_assoc. eauto.
  - simpl. rewrite IH, <- app_assoc. eauto.
  - simpl. rewrite IH, <- app_assoc. eauto.
Qed.

(** The rows dispatched so far are the first [d] rows of the run's list,
    in the order of the list. *)
Lemma reach_batches d k f p :
  Reach c p0 d k f p →
  concat (batchesOf (trace (world p)))
  = concat (batchesOf (trace (world p0))) ++ (r_id <$> take d rs).
Proof.
  intros Hreach.
  induction Hreach as [|d k f p q Hr IH|n p Hr IH Hgo|d k f p x Hr IH Hk Hx
                      |d f p Hr IH|d k f p ms Hr IH|d f p Hr IH].
  - simpl. by rewrite app_nil_r.
  - destruct (serve_effect (j_tenantId (run_job c)) id (run_now c)
                (world p) q) as [_ [Heq|Heq]]; simpl in *.
    + by rewrite Heq.
    + rewrite Heq, batchesOf_app. simpl. by rewrite app_nil_r.
  - simpl. rewrite !batchesOf_app, concat_app. simpl.
    rewrite app_nil_r, IH. simpl.
    rewrite app_nil_r, <- app_assoc, <- fmap_app. do 2 f_equal.
    unfold slice. replace (n + batchSizeOf (run_broadcast c) - n)
      with (batchSizeOf (run_broadcast c)) by lia.
    rewrite take_take_drop, length_take, length_drop.
    destruct (decide (n + batchSizeOf (run_broadcast c) ≤ length rs)).
    + f_equal. lia.
    + rewrite !take_ge; [done|lia..].
  - destruct (recordResult_effect c p x) as (g&_&_&_&Heq&_).
    rewrite Heq, batchesOf_app. simpl. by rewrite app_nil_r.
  - simpl. rewrite batchesOf_app. simpl. by rewrite app_nil_r.
  - simpl. rewrite batchesOf_app. simpl. by rewrite app_nil_r.
  - simpl. rewrite batchesOf_app. simpl. by rewrite app_nil_r.
Qed.

Hypothesis trace_entered :
  rowWritesKeepBroadcasts sI (trace (world p0))
  ∧ lastStore sI (trace (world p0)) = s0.

Lemma reach_keeps d k f p :
  Reach c p0 d k f p →
  rowWritesKeepBroadcasts sI (trace (world p))
  ∧ lastStore sI (trace (world p)) = db (world p).
Proof using trace_entered.
  unfold rowWritesKeepBroadcasts. intros Hreach.
  induction Hreach as [|d k f p q Hr IH|n p Hr IH Hgo|d k f p x Hr IH Hk Hx
                      |d f p Hr IH|d k f p ms Hr IH|d f p Hr IH].
  - exact trace_entered.
  - destruct (serve_effect (j_tenantId (run_job c)) id (run_now c)
                (world p) q) as [_ [Heq|Heq]]; simpl in *.
    + by rewrite Heq.
    + destruct IH as [IH1 IH2].
      rewrite Heq. split; [|apply lastStore_commit].
      by apply eachEvent_snoc.
  - simpl. destruct IH as [IH1 IH2]. split.
    + by do 2 (apply eachEvent_snoc; [|done]).
    + by rewrite !lastStore_other.
  - destruct (recordResult_effect c p x) as (g&_&_&Hdb&Heq&_).
    destruct IH as [IH1 IH2].
    rewrite Heq. split; [|apply lastStore_commit].
    apply eachEvent_snoc; [done|].
    unfold keepsBroadcasts. by rewrite IH2, Hdb.
  - simpl. destruct IH as [IH1 IH2]. split; [|apply lastStore_commit].
    by apply eachEvent_snoc.
  - simpl. destruct IH as [IH1 IH2]. split.
    + by apply eachEvent_snoc.
    + by rewrite lastStore_other.
  - simpl. destruct IH as [IH1 IH2]. split; [|apply lastStore_commit].
    by apply eachEvent_snoc.
Qed.

Hypothesis checks_entered : checksPassed id sI (trace (world p0)).

Lemma reach_checks d k f p :
  Reach c p0 d k f p → checksPassed id sI (trace (world p)).
Proof using trace_entered checks_entered.
  intros Hreach.
  induction Hreach as [|d k f p q Hr IH|n p Hr IH Hgo|d k f p x Hr IH Hk Hx
                      |d f p Hr IH|d k f p ms Hr IH|d f p Hr IH].
  - exact checks_entered.
  - destruct (serve_effect (j_tenantId (run_job c)) id (run_now c)
                (world p) q) as [_ [Heq|Heq]]; simpl in *.
    + by rewrite Heq.
    + rewrite Heq. by apply checksPassed_snoc.
  - simpl. apply checksPassed_dispatch; [done| |].
    + unfold currentStatus.
      by rewrite (proj2 (reach_keeps _ _ _ _ Hr)).
    + by rewrite halting_stopRequested.
  - destruct (recordResult_effect c p x) as (g&_&_&_&Heq&_).
    rewrite Heq. by apply checksPassed_snoc.
  - simpl. by apply checksPassed_snoc.
  - simpl. by apply checksPassed_snoc.
  - simpl. by apply checksPassed_snoc.
Qed.
End trace_invariants.

Section counters_never_decrease.
Context (c : Run) (p0 : Progress) (b0 : Broadcast).

Local Abbreviation id := (j_broadcastId (run_job c)).
Local Abbreviation rs := (run_recipients c).
Local Abbreviation s0 := (db (world p0)).

Hypothesis table_keys : NoDup (r_id <$> recipients s0).
Hypothesis rows_read : ∀ x, x ∈ rs → x ∈ recipients s0 ∧ isPendingOf id x.
Hypothesis rows_distinct : NoDup (r_id <$> rs).
Hypothesis entered : broadcasts s0 !! id = Some b0.
Hypothesis sent_entered : sentSoFar p0 = sentCount b0.
Hypothesis failed_entered : failedSoFar p0 = failedCount b0.
Hypothesis sorted_entered :
  StronglySorted (countersLe id) (committedOf (trace (world p0)))
  ∧ Forall (λ s1, countersLe id s1 s0) (committedOf (trace (world p0))).

(** What a counter write stores is not below what was stored. *)
Lemma counters_written d f p g :
  Reach c p0 d d f p →
  (∀ b, sentCount (g b) = sentSoFar p ∧ failedCount (g b) = failedSoFar p) →
  countersLe id (db (world p)) (updateBroadcast id g (db (world p))).
Proof using table_keys rows_read rows_distinct entered sent_entered failed_entered.
  intros Hr Hg.
  destruct (reach_ledger c p0 b0 table_keys rows_read rows_distinct entered
              sent_entered failed_entered _ _ _ _ Hr)
    as (Hs&Hf&(b&Hb&_&Hsc&Hfc)&_).
  destruct (reach_bounds c p0 _ _ _ _ Hr) as (Hfk&_).
  unfold countersLe, countersOf. simpl.
  rewrite lookup_alter_eq, Hb. simpl. destruct (Hg b) as [-> ->].
  pose proof (recordedIn_mono c RecipientStatus.SENT _ _ Hfk).
  pose proof (recordedIn_mono c RecipientStatus.FAILED _ _ Hfk).
  lia.
Qed.

(** Along the trace, the counters of each committed store are at least
    those of every earlier one. *)
Lemma reach_sorted d k f p :
  Reach c p0 d k f p →
  StronglySorted (countersLe id) (committedOf (trace (world p)))
  ∧ Forall (λ s1, countersLe id s1 (db (world p)))
      (committedOf (trace (world p))).
Proof using All.
  intros Hreach.
  induction Hreach as [|d k f p q Hr IH|n p Hr IH Hgo|d k f p x Hr IH Hk Hx
                      |d f p Hr IH|d k f p ms Hr IH|d f p Hr IH].
  - exact sorted_entered.
  - destruct (serve_effect (j_tenantId (run_job c)) id (run_now c)
                (world p) q) as [Hl [Heq|Heq]]; simpl in *.
    + by rewrite Heq.
    + rewrite Heq. eapply sorted_commit; [exact IH|].
      unfold countersLe. by rewrite (countersOf_sameLedger _ _ _ Hl).
  - simpl. rewrite !committedOf_app. simpl. by rewrite !app_nil_r.
  - destruct (recordResult_effect c p x) as (g&_&_&Hdb&Heq&_).
    rewrite Heq. eapply sorted_commit; [exact IH|].
    rewrite Hdb. by split.
  - simpl. eapply sorted_commit; [exact IH|].
    by eapply counters_written.
  - simpl. rewrite committedOf_app. simpl. by rewrite app_nil_r.
  - simpl. eapply sorted_commit; [exact IH|].
    by eapply counters_written.
Qed.
End counters_never_decrease.

(** ** The list of rows a run reads *)

Lemma insertByCreatedAt_Permutation rank r l :
  insertByCreatedAt rank r l ≡ₚ r :: l.
Proof.
  induction l as [|x l IH]; simpl; [done|].
  case_decide; [done|]. rewrite IH. apply Permutation_swap.
Qed.

Lemma orderByCreatedAtAsc_Permutation rank l :
  orderByCreatedAtAsc rank l ≡ₚ l.
Proof.
  induction l as [|x l IH]; simpl; [done|].
  by rewrite insertByCreatedAt_Permutation, IH.
Qed.

(** With ties returned in the order of the table, rows that already are
    in the order of their creation times come back as they are. *)
Lemma orderByCreatedAtAsc_sorted l :
  StronglySorted (λ x y, (r_createdAt x ≤ r_createdAt y)%Z) l →
  orderByCreatedAtAsc (λ _, 0) l = l.
Proof.
  induction 1 as [|x l Hs IH Hx]; simpl; [done|].
  rewrite IH. destruct l as [|y l]; simpl; [done|].
  rewrite decide_True; [done|]. unfold precedes.
  inversion Hx; subst. lia.
Qed.

(** The order of the rows read: by creation time, and by the database's
    order of ties among rows of one creation time. *)
Lemma precedes_trans rank x y z :
  precedes rank x y → precedes rank y z → precedes rank x z.
Proof. unfold precedes. lia. Qed.

Lemma precedes_total rank x y : ¬ precedes rank x y → precedes rank y x.
Proof. unfold precedes. lia. Qed.

Lemma precedes_createdAt rank x y :
  precedes rank x y → (r_createdAt x ≤ r_createdAt y)%Z.
Proof. unfold precedes. lia. Qed.

Lemma insertByCreatedAt_StronglySorted rank r l :
  StronglySorted (precedes rank) l →
  StronglySorted (precedes rank) (insertByCreatedAt rank r l).
Proof.
  induction 1 as [|x l Hs IH Hx]; simpl; [repeat constructor|].
  case_decide as Hle.
  - constructor; [by constructor|]. constructor; [done|].
    eapply Forall_impl; [exact Hx|]. simpl. intros y Hy.
    by eapply precedes_trans.
  - constructor; [done|]. rewrite insertByCreatedAt_Permutation.
    constructor; [by apply precedes_total|done].
Qed.

Lemma orderByCreatedAtAsc_StronglySorted rank l :
  StronglySorted (precedes rank) (orderByCreatedAtAsc rank l).
Proof.
  induction l as [|x l IH]; simpl; [constructor|].
  by apply insertByCreatedAt_StronglySorted.
Qed.

(** A database that does not reorder ties returns rows that are in the
    order of their creation times as the table has them. *)
Lemma orderByCreatedAtAsc_tableOrder rank l :
  (∀ key key', rank key = rank key') →
  StronglySorted (λ x y, (r_createdAt x ≤ r_createdAt y)%Z) l →
  orderByCreatedAtAsc rank l = l.
Proof.
  intros Hrank. induction 1 as [|x l Hs IH Hx]; simpl; [done|].
  rewrite IH. destruct l as [|y l]; simpl; [done|].
  rewrite decide_True; [done|]. unfold precedes.
  rewrite (Hrank (r_id x) (r_id y)). inversion Hx; subst. lia.
Qed.

Lemma StronglySorted_filter {A} (R : relation A) (P : A → Prop)
    `{∀ x, Decision (P x)} l :
  StronglySorted R l → StronglySorted R (filter P l).
Proof.
  induction 1 as [|x l Hs IH Hx]; [constructor|].
  rewrite filter_cons. case_decide; [|done].
  constructor; [done|]. rewrite Forall_forall in *.
  intros y Hy. apply list_elem_of_filter in Hy as [_ Hy]. by apply Hx.
Qed.

(** Whatever the order of ties, the rows read are the pending rows of the
    campaign, each once. *)
Lemma findManyPending_Permutation rank s id :
  findManyPending rank s id ≡ₚ filter (isPendingOf id) (recipients s).
Proof. apply orderByCreatedAtAsc_Permutation. Qed.

Lemma findManyPending_elem rank s id x :
  x ∈ findManyPending rank s id ↔ x ∈ recipients s ∧ isPendingOf id x.
Proof.
  rewrite findManyPending_Permutation, list_elem_of_filter. tauto.
Qed.

Lemma findManyPending_NoDup rank s id :
  NoDup (r_id <$> recipients s) →
  NoDup (r_id <$> findManyPending rank s id).
Proof.
  intros Hnd. rewrite findManyPending_Permutation.
  eapply sublist_NoDup; [exact Hnd|]. apply fmap_sublist, sublist_filter.
Qed.

Lemma findManyPending_length rank s id :
  length (findManyPending rank s id) = rowsIn RecipientStatus.PENDING id s.
Proof. by rewrite findManyPending_Permutation. Qed.

Lemma findPendingRecipients_Permutation s id :
  findPendingRecipients s id ≡ₚ filter (isPendingOf id) (recipients s).
Proof. apply findManyPending_Permutation. Qed.

Lemma findPendingRecipients_elem s id x :
  x ∈ findPendingRecipients s id → x ∈ recipients s ∧ isPendingOf id x.
Proof. apply findManyPending_elem. Qed.

Lemma findPendingRecipients_NoDup s id :
  NoDup (r_id <$> recipients s) →
  NoDup (r_id <$> findPendingRecipients s id).
Proof. apply findManyPending_NoDup. Qed.

Lemma findPendingRecipients_length s id :
  length (findPendingRecipients s id) = rowsIn RecipientStatus.PENDING id s.
Proof. apply findManyPending_length. Qed.

(** ** The requests that commit while the job starts *)

Lemma serveAll_effect tenantId id now qs :
  ∀ w sI,
    rowWritesKeepBroadcasts sI (trace w) ∧ lastStore sI (trace w) = db w →
    checksPassed id sI (trace w) →
    StronglySorted (countersLe id) (committedOf (trace w))
    ∧ Forall (λ s1, countersLe id s1 (db w)) (committedOf (trace w)) →
    let w' := foldl (serve tenantId id now) w qs in
    sameLedger (db w) (db w')
    ∧ (rowWritesKeepBroadcasts sI (trace w')
       ∧ lastStore sI (trace w') = db w')
    ∧ checksPassed id sI (trace w')
    ∧ (StronglySorted (countersLe id) (committedOf (trace w'))
       ∧ Forall (λ s1, countersLe id s1 (db w')) (committedOf (trace w')))
    ∧ (∀ by_ s, Committed by_ s ∈ trace w' →
                Committed by_ s ∈ trace w
                ∨ (sameLedger (db w) s ∧ ∃ q, by_ = ServiceWrite q))
    ∧ batchesOf (trace w') = batchesOf (trace w).
Proof.
  induction qs as [|q qs IH]; intros w sI Hk Hc Hs; simpl.
  - split; [apply sameLedger_refl|]. do 3 (split; [done|]).
    split; [|done]. intros by_ s Hin. by left.
  - destruct (serve_effect tenantId id now w q) as [Hl [Heq|Heq]];
      simpl in Hl, Heq.
    + rewrite Heq. by apply IH.
    + destruct Hk as [Hk1 Hk2]. unfold rowWritesKeepBroadcasts in *.
      destruct (IH (serve tenantId id now w q) sI)
        as (Hl'&Hk'&Hc'&Hs'&Hin'&Hbat').
      * rewrite Heq. split; [|apply lastStore_commit].
        by apply eachEvent_snoc.
      * rewrite Heq. by apply checksPassed_snoc.
      * rewrite Heq. eapply sorted_commit; [exact Hs|].
        unfold countersLe. by rewrite (countersOf_sameLedger _ _ _ Hl).
      * split; [eapply sameLedger_trans; [exact Hl|exact Hl']|].
        do 3 (split; [done|]).
        split;
          [|rewrite Hbat', Heq, batchesOf_app; simpl; by rewrite app_nil_r].
        intros by_ s Hin. apply Hin' in Hin as [Hin|[Hls Hby]].
        -- rewrite Heq in Hin. apply elem_of_app in Hin as [Hin|Hin];
             [by left|].
           apply list_elem_of_singleton in Hin. injection Hin as -> ->.
           right. split; [done|by eexists].
        -- right. split; [|done].
           eapply sameLedger_trans; [exact Hl|exact Hls].
Qed.

(** ** Entering the loop *)

Lemma NoDup_fmap_drop_take {A B} (f : A → B) (l : list A) n x :
  NoDup (f <$> l) → x ∈ drop n l → f x ∉ f <$> take n l.
Proof.
  intros Hnd Hx Hin.
  apply list_elem_of_lookup in Hx as [i Hi]. rewrite lookup_drop in Hi.
  apply list_elem_of_fmap in Hin as (y&Hxy&Hy).
  apply elem_of_take in Hy as (j&Hj&Hjn).
  by eapply (NoDup_fmap_lookup_ne f l (n + i) j x y); [..|lia|].
Qed.

(** The requests that commit while the job starts change no row and no
    contact, so the run reads the rows of the store the job found, and
    nothing is dispatched before the loop. *)
Lemma entry_run env job now s broadcast :
  let p0 := entry job now broadcast
              (beforeSending env job now (startWorld s)) in
  runOf env job now broadcast (db (world p0))
  = runOf env job now broadcast s
  ∧ batchesOf (trace (world p0)) = [].
Proof.
  destruct (serveAll_effect (j_tenantId job) (j_broadcastId job) now
              (arrivals env BeforeSending) (startWorld s) s)
    as ((Hr&Hct&_)&_&_&_&_&Hbat).
  { done. }
  { apply checksPassed_nil. }
  { split; constructor. }
  fold (beforeSending env job now (startWorld s)) in *.
  simpl in *. split.
  - unfold runOf, findManyPending. simpl. by rewrite Hr, Hct.
  - by rewrite batchesOf_app, Hbat.
Qed.

(** What the handler knows when it enters the loop on a store with unique
    row keys: whatever was requested between its read of the campaign and
    its update to SENDING, the rows and the counters are those it read. *)
Lemma entry_facts env job now s broadcast :
  NoDup (r_id <$> recipients s) →
  broadcasts s !! j_broadcastId job = Some broadcast →
  let p0 := entry job now broadcast
              (beforeSending env job now (startWorld s)) in
  let c := runOf env job now broadcast s in
  runOf env job now broadcast (db (world p0)) = c
  ∧ NoDup (r_id <$> recipients (db (world p0)))
  ∧ (∀ x, x ∈ run_recipients c →
          x ∈ recipients (db (world p0))
          ∧ isPendingOf (j_broadcastId (run_job c)) x)
  ∧ NoDup (r_id <$> run_recipients c)
  ∧ (∃ b0, broadcasts (db (world p0)) !! j_broadcastId (run_job c) = Some b0
           ∧ ledgerOf b0 = ledgerOf broadcast
           ∧ b_status b0 = BroadcastStatus.SENDING)
  ∧ (rowWritesKeepBroadcasts s (trace (world p0))
     ∧ lastStore s (trace (world p0)) = db (world p0))
  ∧ checksPassed (j_broadcastId (run_job c)) s (trace (world p0))
  ∧ (StronglySorted (countersLe (j_broadcastId (run_job c)))
       (committedOf (trace (world p0)))
     ∧ Forall (λ s1, countersLe (j_broadcastId (run_job c)) s1
                        (db (world p0)))
         (committedOf (trace (world p0))))
  ∧ sameLedger s (db (world p0))
  ∧ (∀ by_ s1, Committed by_ s1 ∈ trace (world p0) → sameLedger s s1)
  ∧ batchesOf (trace (world p0)) = [].
Proof.
  intros Hnd Hb p0 c.
  destruct (serveAll_effect (j_tenantId job) (j_broadcastId job) now
              (arrivals env BeforeSending) (startWorld s) s)
    as (Hl&[Hk Hlast]&Hc&Hs&Hin&Hbat).
  { done. }
  { apply checksPassed_nil. }
  { split; constructor. }
  fold (beforeSending env job now (startWorld s)) in *.
  set (w0 := beforeSending env job now (startWorld s)) in *.
  simpl in Hl.
  assert (Hl0 : sameLedger s (db (world p0))).
  { destruct Hl as (Hr&Hct&Hled). subst p0. simpl. split_and!; [done..|].
    intros i. rewrite <- Hled. unfold updateBroadcast. simpl.
    destruct (decide (i = j_broadcastId job)) as [->|Hne].
    - rewrite lookup_alter_eq. by destruct (broadcasts (db w0) !! _).
    - by rewrite lookup_alter_ne. }
  destruct Hl0 as (Hr0&Hct0&Hled0).
  assert (Hle : countersLe (j_broadcastId job) (db w0)
                  (updateBroadcast (j_broadcastId job)
                     (sending (j_resume job) now) (db w0))).
  { unfold countersLe, countersOf, updateBroadcast. simpl.
    rewrite lookup_alter_eq.
    by destruct (broadcasts (db w0) !! j_broadcastId job). }
  split; [unfold runOf, findManyPending; by rewrite Hr0, Hct0|].
  split; [by rewrite Hr0|].
  split.
  { intros x Hx. rewrite Hr0. by apply findManyPending_elem in Hx. }
  split; [by apply findManyPending_NoDup|].
  split.
  { destruct Hl as (_&_&Hled). specialize (Hled (j_broadcastId job)).
    simpl in Hb. rewrite Hb in Hled. subst p0. simpl.
    rewrite lookup_alter_eq.
    destruct (broadcasts (db w0) !! j_broadcastId job) as [b'|]; [|done].
    simpl in Hled. injection Hled as Ht Hsn Hf.
    eexists. split; [done|]. unfold ledgerOf. simpl.
    by rewrite Ht, Hsn, Hf. }
  split.
  { subst p0. simpl. unfold rowWritesKeepBroadcasts in *.
    split; [|apply lastStore_commit]. by apply eachEvent_snoc. }
  split; [subst p0; simpl; by apply checksPassed_snoc|].
  split.
  { subst p0. simpl. eapply sorted_commit; [exact Hs|exact Hle]. }
  split; [by split_and!|].
  split.
  - intros by_ s1 Hin1. subst p0. simpl in Hin1.
    apply elem_of_app in Hin1 as [Hin1|Hin1].
    + apply Hin in Hin1 as [Hin1|[Hls _]]; [|done].
      simpl in Hin1. by apply elem_of_nil in Hin1.
    + apply list_elem_of_singleton in Hin1. injection Hin1 as -> ->.
      by split_and!.
  - subst p0. simpl. rewrite batchesOf_app, Hbat. done.
Qed.

(** The returns of the handler on a store that holds the campaign, with
    the run's data in terms of that store. *)
Lemma run_cases env job now s broadcast ret w' :
  NoDup (r_id <$> recipients s) →
  broadcasts s !! j_broadcastId job = Some broadcast →
  handleSendBroadcast env job now (startWorld s) = Some (ret, w') →
  (b_status broadcast = BroadcastStatus.CANCELLED
   ∧ ret = Skipped ∧ w' = startWorld s)
  ∨ (b_status broadcast ≠ BroadcastStatus.CANCELLED
     ∧ ∃ p' n,
         Reach (runOf env job now broadcast s)
           (entry job now broadcast
              (beforeSending env job now (startWorld s))) n n n p'
         ∧ leftBy p' w'
         ∧ ((ret = Finished (sentSoFar p') (failedSoFar p')
             ∧ n = length (findManyPending (tieOrder env) s
                             (j_broadcastId job))
             ∧ w' = world p'
             ∧ (∃ b1, broadcasts (db w') !! j_broadcastId job
                      = Some (completed now (sentSoFar p') (failedSoFar p')
                                b1))
             ∧ last (trace w') = Some (Committed BroadcastWrite (db w')))
            ∨ (∃ st, ret = Stopped st (sentSoFar p')
                     ∧ n < length (findManyPending (tieOrder env) s
                                     (j_broadcastId job))
                     ∧ b_status <$> broadcasts (db (world p'))
                                    !! j_broadcastId job = Some st
                     ∧ (st = BroadcastStatus.PAUSED
                        ∨ st = BroadcastStatus.CANCELLED)
                     ∧ w' = emit (Checked (Some st)) (world p')))).
Proof.
  intros Hnd Hb Hrun.
  destruct (entry_facts env job now s broadcast Hnd Hb)
    as (Hc&_&_&_&(b0&Hb0&_)&_).
  apply handleSendBroadcast_cases in Hrun as [(Hnone&_)|(b&Hb'&Hcase)];
    [simpl in Hnone; congruence|].
  simpl in Hb'. rewrite Hb in Hb'. injection Hb' as <-.
  destruct Hcase as [?|(Hst&p'&n&Hr&Hleft&Hret)]; [by left|].
  right. split; [done|]. rewrite Hc in Hr, Hret.
  exists p', n. split; [done|]. split; [done|].
  destruct Hret as [(->&->&->&p1&Hr1&_&_&Hw)|(st&->&Hn&Hcur&Hst'&->)].
  - left. split_and!; [done..| |].
    + rewrite Hw. simpl. rewrite lookup_alter_eq.
      destruct (reach_ledger_lookup _ _ _ _ _ _ _ Hb0 Hr1) as [b1 Hb1].
      simpl in Hb1. rewrite Hb1. by exists b1.
    + rewrite Hw. simpl. by rewrite last_snoc.
  - right. exists st. by split_and!.
Qed.
(** ** Pause and cancel *)

Lemma recordedRow_holdsOutcome c x :
  holdsOutcome (run_now c) (outcomeOf c x) (recordedRow c x).
Proof.
  unfold holdsOutcome, recordedRow.
  destruct (success (outcomeOf c x)); simpl.
  - split_and!; [done..|]. by intros key ->.
  - split; [done|]. eexists. split; [done|].
    intros e -> He. unfold truthyString. by rewrite decide_False.
Qed.

(** C5, as the processor has it: what the dispatcher observes is the
    status of the campaign that it reads at the start of each batch
    iteration.  Each status check reads the status of the store of that
    moment; a check that reads PAUSED or CANCELLED is the last thing the
    run does, every other check is followed at once by the dispatch of
    the next batch, and no batch is dispatched without a check just
    before it.  The run dispatches the first [n] rows of the list it
    read and no more.  When it returns, whatever was requested while a
    batch was in flight, every dispatched row is in the store with the
    outcome of its own send in its fields (SENT with the time and the
    message key, or FAILED with the error text), and the rows after them
    are as the run found them.  A run that stops returns the status of
    its last check; a run that finishes has dispatched every row. *)
Theorem pause_cancel_observed_between_batches env job now s broadcast ret w' :
  NoDup (r_id <$> recipients s) →
  broadcasts s !! j_broadcastId job = Some broadcast →
  handleSendBroadcast env job now (startWorld s) = Some (ret, w') →
  let rows := findManyPending (tieOrder env) s (j_broadcastId job) in
  ∃ n,
    concat (batchesOf (trace w')) = r_id <$> take n rows
    ∧ checksDecide (j_broadcastId job) s (trace w')
    ∧ dispatchesFollowChecks (trace w')
    ∧ (∀ x, x ∈ take n rows →
            (∃ r, r ∈ recipients (db w') ∧ r_id r = r_id x)
            ∧ ∀ r, r ∈ recipients (db w') → r_id r = r_id x →
                   holdsOutcome now
                     (outcomeOf (runOf env job now broadcast s) x) r)
    ∧ (∀ x, x ∈ drop n rows → x ∈ recipients (db w'))
    ∧ match ret with
      | Finished _ _ => n = length rows
      | Stopped st _ =>
          n < length rows
          ∧ last (trace w') = Some (Checked (Some st))
          ∧ (st = BroadcastStatus.PAUSED ∨ st = BroadcastStatus.CANCELLED)
      | Skipped => n = 0 ∧ b_status broadcast = BroadcastStatus.CANCELLED
      | Crashed => False
      end.
Proof.
  intros Hnd Hb Hrun rows.
  apply (run_cases _ _ _ _ broadcast) in Hrun
    as [(Hst&->&->)|(Hst&p'&n&Hr&Hleft&Hret)]; [| |done..].
  - exists 0. simpl. rewrite take_0, drop_0. split_and!; try done.
    + intros t1 st t2 Heq. by destruct t1.
    + intros t1 ids t2 Heq. by destruct t1.
    + intros x Hx. by apply elem_of_nil in Hx.
    + intros x Hx. by apply findManyPending_elem in Hx as [? _].
  - destruct (entry_facts env job now s broadcast Hnd Hb)
      as (_&Hkeys&Hread&Hdist&_&Htr&Hchk&_&_&_&Hbat0).
    exists n.
    pose proof (reach_batches _ _ _ _ _ _ Hr) as Hbat.
    rewrite Hbat0 in Hbat. simpl in Hbat.
    pose proof (reach_rows _ _ Hread Hdist _ _ _ _ Hr) as (_&Hdone&Hrest).
    pose proof (reach_keys _ _ Hkeys Hread Hdist _ _ _ _ Hr) as Hkeys'.
    pose proof (reach_keeps _ _ s Htr _ _ _ _ Hr) as [_ Hlast].
    pose proof (reach_checks _ _ s Htr Hchk _ _ _ _ Hr) as Hchecks.
    simpl in Hchecks.
    rewrite (leftBy_db _ _ Hleft), (leftBy_batches _ _ Hleft).
    assert (Hprot : checksDecide (j_broadcastId job) s (trace w')
                    ∧ dispatchesFollowChecks (trace w')).
    { destruct Hret as [(_&_&->&_)|(st&_&_&Hcur&Hst'&->)].
      - by apply checksPassed_checksDecide.
      - simpl. apply checksPassed_stop; [done|by rewrite Hlast|].
        apply halting_stopRequested. unfold stopRequested.
        destruct Hst' as [->| ->]; auto. }
    destruct Hprot as [Hdec Hfol].
    split_and!.
    + exact Hbat.
    + exact Hdec.
    + exact Hfol.
    + intros x Hx. specialize (Hdone x Hx). split.
      * exists (recordedRow (runOf env job now broadcast s) x).
        split; [done|]. apply recordedRow_id.
      * intros r Hrin Heq.
        rewrite (same_key_same_row _ r (recordedRow _ x) Hkeys' Hrin Hdone).
        -- apply (recordedRow_holdsOutcome (runOf env job now broadcast s)).
        -- by rewrite recordedRow_id.
    + intros x Hx. apply Hrest.
      * apply Hread. by eapply subseteq_drop.
      * by apply NoDup_fmap_drop_take.
    + destruct Hret as [(->&->&_)|(st&->&Hn&Hcur&Hst'&->)]; [done|].
      simpl. by rewrite last_snoc.
Qed.

(** ** Failed sends *)

(** C1, as the processor has it: a row whose send does not succeed, for
    whatever reason the channel gave, is written FAILED with the error
    text when the results of its batch are recorded.  It was dispatched
    once in the run, it is the only row of its key, and no later run will
    read it as pending: there is no retry and no attempt counter. *)
Theorem failed_send_marks_row_failed env job now s broadcast ret w' x :
  NoDup (r_id <$> recipients s) →
  broadcasts s !! j_broadcastId job = Some broadcast →
  handleSendBroadcast env job now (startWorld s) = Some (ret, w') →
  x ∈ findPendingRecipients s (j_broadcastId job) →
  r_id x ∈ concat (batchesOf (trace w')) →
  success (outcomeOf (runOf env job now broadcast s) x) = false →
  markFailed (error (outcomeOf (runOf env job now broadcast s) x)) x
  ∈ recipients (db w')
  ∧ (∀ r, r ∈ recipients (db w') → r_id r = r_id x →
          r_status r = RecipientStatus.FAILED)
  ∧ NoDup (concat (batchesOf (trace w')))
  ∧ (∀ y, y ∈ findPendingRecipients (db w') (j_broadcastId job) →
          r_id y ≠ r_id x).
Proof.
  intros Hnd Hb Hrun Hx Hdisp Hfail.
  apply (run_cases _ _ _ _ broadcast) in Hrun
    as [(Hst&->&->)|(Hst&p'&n&Hr&Hleft&Hret)]; [| |done..].
  { simpl in Hdisp. by apply elem_of_nil in Hdisp. }
  destruct (entry_facts env job now s broadcast Hnd Hb)
    as (_&Hkeys&Hread&Hdist&_&_&_&_&_&_&Hbat0).
  pose proof (reach_batches _ _ _ _ _ _ Hr) as Hbat.
  rewrite Hbat0 in Hbat. simpl in Hbat.
  pose proof (reach_rows _ _ Hread Hdist _ _ _ _ Hr) as (_&Hdone&_).
  pose proof (reach_keys _ _ Hkeys Hread Hdist _ _ _ _ Hr) as Hkeys'.
  rewrite (leftBy_batches _ _ Hleft) in Hdisp |- *.
  rewrite (leftBy_db _ _ Hleft). clear Hleft Hret.
  set (c := runOf env job now broadcast s) in *.
  assert (Hxc : x ∈ run_recipients c).
  { apply findPendingRecipients_elem in Hx.
    by apply findManyPending_elem. }
  assert (Hxn : x ∈ take n (run_recipients c)).
  { rewrite Hbat in Hdisp.
    apply list_elem_of_fmap in Hdisp as (y&Hxy&Hy).
    assert (y = x) as ->; [|done].
    eapply (same_key_same_row (run_recipients c)); [done| |done|done].
    by eapply subseteq_take. }
  assert (Hrow : markFailed (error (outcomeOf c x)) x
                 ∈ recipients (db (world p'))).
  { specialize (Hdone x Hxn). unfold recordedRow in Hdone.
    by rewrite Hfail in Hdone. }
  split_and!.
  - exact Hrow.
  - intros r Hr' Heq.
    by rewrite (same_key_same_row _ _ _ Hkeys' Hr' Hrow Heq).
  - rewrite Hbat. eapply sublist_NoDup; [exact Hdist|].
    apply fmap_sublist, sublist_take.
  - intros y Hy Heq.
    apply findPendingRecipients_elem in Hy as [Hy [_ Hpend]].
    rewrite (same_key_same_row _ _ _ Hkeys' Hy Hrow Heq) in Hpend.
    discriminate Hpend.
Qed.

(** ** The books of a run *)

(** A store with the rows and the ledgers of the store the job found has
    its books. *)
Lemma sameLedger_books id s s1 broadcast :
  broadcasts s !! id = Some broadcast →
  sameLedger s s1 →
  tallied id s broadcast s1
  ∧ totalOf id s1 = totalOf id s
  ∧ countersOf id s1 = countersOf id s
  ∧ (conserved id s → conserved id s1).
Proof.
  intros Hb Hl.
  pose proof (rowsIn_sameLedger RecipientStatus.SENT id _ _ Hl) as Hs.
  pose proof (rowsIn_sameLedger RecipientStatus.FAILED id _ _ Hl) as Hf.
  pose proof (rowsIn_sameLedger RecipientStatus.PENDING id _ _ Hl) as Hp.
  pose proof (countersOf_sameLedger id _ _ Hl) as Hc.
  destruct Hl as (_&_&Hl). specialize (Hl id). rewrite Hb in Hl.
  destruct (broadcasts s1 !! id) as [b1|] eqn:Hb1; [|done].
  simpl in Hl. injection Hl as Ht Hsn Hfl.
  split_and!.
  - exists b1. split; [done|]. lia.
  - unfold totalOf. rewrite Hb1, Hb. simpl. by rewrite Ht.
  - done.
  - intros (b&Hb'&Hsum). rewrite Hb in Hb'. injection Hb' as <-.
    exists b1. split; [done|]. lia.
Qed.

(** The ledger of a state the run goes through, in terms of the store the
    job found. *)
Lemma run_books env job now s broadcast d k f p :
  NoDup (r_id <$> recipients s) →
  broadcasts s !! j_broadcastId job = Some broadcast →
  Reach (runOf env job now broadcast s)
    (entry job now broadcast (beforeSending env job now (startWorld s)))
    d k f p →
  f ≤ k
  ∧ k ≤ length (findManyPending (tieOrder env) s (j_broadcastId job))
  ∧ ∃ b, broadcasts (db (world p)) !! j_broadcastId job = Some b
         ∧ totalRecipients b = totalRecipients broadcast
         ∧ sentCount b
           = sentCount broadcast
             + recordedIn (runOf env job now broadcast s)
                 RecipientStatus.SENT f
         ∧ failedCount b
           = failedCount broadcast
             + recordedIn (runOf env job now broadcast s)
                 RecipientStatus.FAILED f
         ∧ ∀ st, rowsIn st (j_broadcastId job) (db (world p))
                 + (if decide (st = RecipientStatus.PENDING) then k else 0)
                 = rowsIn st (j_broadcastId job) s
                   + recordedIn (runOf env job now broadcast s) st k.
Proof.
  intros Hnd Hb Hr.
  destruct (entry_facts env job now s broadcast Hnd Hb)
    as (_&Hkeys&Hread&Hdist&(b0&Hent&Hled&_)&_&_&_&Hl0&_).
  injection Hled as Ht0 Hs0 Hf0.
  destruct (reach_ledger _ _ b0 Hkeys Hread Hdist Hent
              (eq_sym Hs0) (eq_sym Hf0) _ _ _ _ Hr)
    as (_&_&(b&Hb1&Htot&Hsc&Hfc)&Hrows).
  destruct (reach_bounds _ _ _ _ _ _ Hr) as (Hfk&Hkd&Hdn).
  split_and!; [done|simpl in Hdn; lia|].
  exists b. split_and!; [done|congruence..|].
  intros st. rewrite <- (rowsIn_sameLedger st _ _ _ Hl0). apply Hrows.
Qed.

(** Every committed store of the trace of a run has the rows and ledgers
    of the store the job found, or is the store of a state the run went
    through in its loop. *)
Lemma run_committed env job now s broadcast n p' by_ s1 :
  NoDup (r_id <$> recipients s) →
  broadcasts s !! j_broadcastId job = Some broadcast →
  Reach (runOf env job now broadcast s)
    (entry job now broadcast (beforeSending env job now (startWorld s)))
    n n n p' →
  Committed by_ s1 ∈ trace (world p') →
  sameLedger s s1
  ∨ ∃ d k f p,
      Reach (runOf env job now broadcast s)
        (entry job now broadcast (beforeSending env job now (startWorld s)))
        d k f p
      ∧ s1 = db (world p)
      ∧ (by_ = BroadcastWrite → f = k).
Proof.
  intros Hnd Hb Hr Hin.
  destruct (entry_facts env job now s broadcast Hnd Hb)
    as (_&_&_&_&_&_&_&_&_&Hin0&_).
  destruct (reach_committed _ _ _ _ _ _ Hr _ _ Hin)
    as [Hin1|(d&k&f&p&Hp&->&Hby)].
  - left. by eapply Hin0.
  - right. exists d, k, f, p. split_and!; [done..|].
    by intros ->.
Qed.

Lemma books_tallied env job now s broadcast d k p :
  NoDup (r_id <$> recipients s) →
  broadcasts s !! j_broadcastId job = Some broadcast →
  Reach (runOf env job now broadcast s)
    (entry job now broadcast (beforeSending env job now (startWorld s)))
    d k k p →
  tallied (j_broadcastId job) s broadcast (db (world p)).
Proof.
  intros Hnd Hb Hr.
  destruct (run_books _ _ _ _ _ _ _ _ _ Hnd Hb Hr)
    as (_&_&b&Hb1&_&Hsc&Hfc&Hrows).
  exists b. split; [done|].
  pose proof (Hrows RecipientStatus.SENT) as H1.
  pose proof (Hrows RecipientStatus.FAILED) as H2.
  rewrite decide_False in H1 by done.
  rewrite decide_False in H2 by done. lia.
Qed.

Lemma books_withinTotal env job now s broadcast d k f p :
  NoDup (r_id <$> recipients s) →
  broadcasts s !! j_broadcastId job = Some broadcast →
  conserved (j_broadcastId job) s →
  Reach (runOf env job now broadcast s)
    (entry job now broadcast (beforeSending env job now (startWorld s)))
    d k f p →
  totalOf (j_broadcastId job) (db (world p)) = totalOf (j_broadcastId job) s
  ∧ withinTotal (j_broadcastId job) (db (world p))
  ∧ (f = k → conserved (j_broadcastId job) (db (world p))).
Proof.
  intros Hnd Hb (b'&Hb'&Hcons) Hr.
  rewrite Hb in Hb'. injection Hb' as <-.
  destruct (run_books _ _ _ _ _ _ _ _ _ Hnd Hb Hr)
    as (Hfk&Hkn&b&Hb1&Htot&Hsc&Hfc&Hrows).
  pose proof (Hrows RecipientStatus.PENDING) as Hp.
  rewrite decide_True, recordedIn_pending in Hp by done.
  assert (Hf : f ≤ length (run_recipients (runOf env job now broadcast s)))
    by (simpl; lia).
  pose proof (recordedIn_split _ _ Hf) as Hsplit.
  split_and!.
  - unfold totalOf. rewrite Hb1, Hb. simpl. by rewrite Htot.
  - exists b. split; [done|]. lia.
  - intros ->. exists b. split; [done|]. lia.
Qed.

Lemma conserved_withinTotal id s : conserved id s → withinTotal id s.
Proof. intros (b&Hb&Hsum). exists b. split; [done|lia]. Qed.

(** C3, as the processor has it: recording a row's outcome is a write of
    that row alone, which leaves the broadcast table, and so the
    campaign's counters, as the store before it had them.  The counters
    are counted in local variables and written by a separate update of the
    campaign at the end of the row's batch: in every store committed by
    an update of the campaign that the run itself makes (to SENDING, the
    counters of a batch, to COMPLETED), and in the store the run leaves,
    the counters have grown since the start of the run by the numbers of
    rows that have become SENT and FAILED.  Nothing of the kind holds of
    the stores committed in between, by a row update or by a control
    request that commits while a batch is being recorded. *)
Theorem row_update_then_counter_write env job now s broadcast ret w' :
  NoDup (r_id <$> recipients s) →
  broadcasts s !! j_broadcastId job = Some broadcast →
  handleSendBroadcast env job now (startWorld s) = Some (ret, w') →
  rowWritesKeepBroadcasts s (trace w')
  ∧ (∀ s1, Committed BroadcastWrite s1 ∈ trace w' →
           tallied (j_broadcastId job) s broadcast s1)
  ∧ tallied (j_broadcastId job) s broadcast (db w').
Proof.
  intros Hnd Hb Hrun.
  assert (Hstart : tallied (j_broadcastId job) s broadcast s)
    by (exists broadcast; by split_and!).
  apply (run_cases _ _ _ _ broadcast) in Hrun
    as [(Hst&->&->)|(Hst&p'&n&Hr&Hleft&Hret)]; [| |done..].
  { simpl. split_and!; [done| |done].
    intros ? Hin. by apply elem_of_nil in Hin. }
  destruct (entry_facts env job now s broadcast Hnd Hb)
    as (_&_&_&_&_&Htr&_).
  pose proof (reach_keeps _ _ s Htr _ _ _ _ Hr) as [Hkeep _].
  rewrite (leftBy_db _ _ Hleft).
  split_and!.
  - destruct Hleft as [->|[st ->]]; [done|]. simpl.
    by apply eachEvent_snoc.
  - intros s1 Hin. apply (leftBy_committed _ _ _ _ Hleft) in Hin.
    destruct (run_committed _ _ _ _ _ _ _ _ _ Hnd Hb Hr Hin)
      as [Hl|(d&k&f&p&Hp&->&Hfk)].
    + by apply sameLedger_books.
    + rewrite (Hfk eq_refl) in Hp. by eapply books_tallied.
  - by eapply books_tallied.
Qed.

(** C4, as the processor has it, for a run during which no other run of
    the campaign and no update or deletion of it commits.  A run that
    starts on a store in which the campaign's counters and pending rows
    add up to its total keeps, in every store committed while it runs,
    the total as it was and the sum of [sentCount], [failedCount] and the
    pending rows within it.  The sum equals the total in every store
    committed by an update of the campaign that the run itself makes, and
    in the store the run leaves; it is short of the total in between.
    Along the trace the counters never decrease. *)
Theorem counters_within_total env job now s broadcast ret w' :
  NoDup (r_id <$> recipients s) →
  broadcasts s !! j_broadcastId job = Some broadcast →
  conserved (j_broadcastId job) s →
  handleSendBroadcast env job now (startWorld s) = Some (ret, w') →
  (∀ by_ s1, Committed by_ s1 ∈ trace w' →
             totalOf (j_broadcastId job) s1 = totalOf (j_broadcastId job) s
             ∧ withinTotal (j_broadcastId job) s1
             ∧ (by_ = BroadcastWrite → conserved (j_broadcastId job) s1))
  ∧ StronglySorted (countersLe (j_broadcastId job))
      (s :: committedOf (trace w'))
  ∧ totalOf (j_broadcastId job) (db w') = totalOf (j_broadcastId job) s
  ∧ conserved (j_broadcastId job) (db w').
Proof.
  intros Hnd Hb Hcons Hrun.
  apply (run_cases _ _ _ _ broadcast) in Hrun
    as [(Hst&->&->)|(Hst&p'&n&Hr&Hleft&Hret)]; [| |done..].
  { simpl. split_and!; [|repeat constructor|done|done].
    intros ?? Hin. by apply elem_of_nil in Hin. }
  destruct (entry_facts env job now s broadcast Hnd Hb)
    as (_&Hkeys&Hread&Hdist&(b0&Hent&Hled&_)&_&_&Hss&Hl0&Hin0&_).
  injection Hled as Ht0 Hs0 Hf0.
  pose proof (reach_sorted _ _ b0 Hkeys Hread Hdist Hent (eq_sym Hs0)
                (eq_sym Hf0) Hss _ _ _ _ Hr) as [Hsorted _].
  rewrite (leftBy_db _ _ Hleft), (leftBy_committedOf _ _ Hleft).
  split_and!.
  - intros by_ s1 Hin. apply (leftBy_committed _ _ _ _ Hleft) in Hin.
    destruct (run_committed _ _ _ _ _ _ _ _ _ Hnd Hb Hr Hin)
      as [Hl|(d&k&f&p&Hp&->&Hfk)].
    + destruct (sameLedger_books _ _ _ _ Hb Hl) as (_&Htot&_&Hc).
      split_and!; [done|by apply conserved_withinTotal, Hc|by intros _; apply Hc].
    + destruct (books_withinTotal _ _ _ _ _ _ _ _ _ Hnd Hb Hcons Hp)
        as (Ht&Hw&Hc).
      split_and!; [done..|]. intros Hby. by apply Hc, Hfk.
  - apply StronglySorted_cons. split; [|done].
    apply Forall_forall. intros s1 Hs1.
    assert (Hin : ∃ by_, Committed by_ s1 ∈ trace (world p')).
    { unfold committedOf in Hs1. apply list_elem_of_omap in Hs1
        as (e&He&Hs1). destruct e; try done. injection Hs1 as ->.
      by eexists. }
    destruct Hin as [by_ Hin].
    destruct (run_committed _ _ _ _ _ _ _ _ _ Hnd Hb Hr Hin)
      as [Hl|(d&k&f&p&Hp&->&Hfk)].
    + destruct (sameLedger_books _ _ _ _ Hb Hl) as (_&_&Hc&_).
      unfold countersLe. rewrite Hc. lia.
    + destruct (run_books _ _ _ _ _ _ _ _ _ Hnd Hb Hp)
        as (_&_&b&Hb1&_&Hsc&Hfc&_).
      unfold countersLe, countersOf. rewrite Hb1, Hb. simpl. lia.
  - by destruct (books_withinTotal _ _ _ _ _ _ _ _ _ Hnd Hb Hcons Hr).
  - destruct (books_withinTotal _ _ _ _ _ _ _ _ _ Hnd Hb Hcons Hr)
      as (_&_&Hc). by apply Hc.
Qed.

(** ** Processing order *)

(** C9, as the processor has it: a run reads the pending rows of the
    campaign once, ordered by creation time, and dispatches them in the
    order of that list in consecutive batches, with no prioritization; a
    run that finishes has dispatched them all.  The list holds each
    pending row once, in the order of the creation times and, among rows
    of one creation time, in the order in which the database returns
    ties.  It is the order of the table, which is the order of insertion,
    when the database does not reorder ties and the creation times do not
    decrease along the table. *)
Theorem rows_processed_in_creation_order env job now s ret w' :
  handleSendBroadcast env job now (startWorld s) = Some (ret, w') →
  let rows := findManyPending (tieOrder env) s (j_broadcastId job) in
  rows ≡ₚ filter (isPendingOf (j_broadcastId job)) (recipients s)
  ∧ StronglySorted (precedes (tieOrder env)) rows
  ∧ ((∀ key key', tieOrder env key = tieOrder env key') →
     StronglySorted (λ x y, (r_createdAt x ≤ r_createdAt y)%Z)
       (recipients s) →
     rows = filter (isPendingOf (j_broadcastId job)) (recipients s))
  ∧ ∃ n,
      concat (batchesOf (trace w')) = r_id <$> take n rows
      ∧ ∀ sent failed, ret = Finished sent failed → n = length rows.
Proof.
  intros Hrun rows. split_and!.
  - apply findManyPending_Permutation.
  - apply orderByCreatedAtAsc_StronglySorted.
  - intros Hties Hsorted.
    apply orderByCreatedAtAsc_tableOrder; [done|].
    by apply StronglySorted_filter.
  - apply handleSendBroadcast_cases in Hrun as [(_&->&->)|(b&Hb&Hcase)].
    { exists 0. by split. }
    destruct Hcase as [(Hst&->&->)|(Hst&p'&n&Hr&Hleft&Hret)].
    { exists 0. by split. }
    destruct (entry_run env job now s b) as [Hc Hbat0].
    rewrite Hc in Hr, Hret. exists n.
    pose proof (reach_batches _ _ _ _ _ _ Hr) as Hbat.
    rewrite Hbat0 in Hbat. simpl in Hbat.
    rewrite (leftBy_batches _ _ Hleft). split; [done|].
    intros sent failed ->.
    by destruct Hret as [(_&->&_)|(st&Hne&_)].
Qed.

(** ** The scenario of five recipients *)

(** C6: a campaign of five recipients with batch size 2, created with an
    inter-batch delay of 0 and queued, on a channel that accepts every
    message: the run dispatches the batches of rows 0-1, 2-3 and 4,
    returns with 5 sent and 0 failed, and leaves the campaign COMPLETED
    with [sentCount = 5] and [failedCount = 0] and every row SENT. *)
Theorem five_recipients_three_batches interpolate keyOf :
  (λ r, (returned r, batches r, left_ r))
  <$> summarize 0
        (handleSendBroadcast (accepting interpolate keyOf) sampleJob 2000
           (startWorld (queuedCampaign fiveContacts 2)))
  = Some (Finished 5 0,
          [[0; 1]; [2; 3]; [4]],
          {| campaign := Some (BroadcastStatus.COMPLETED, (5, 5, 0));
             rows := replicate 5 (RecipientStatus.SENT, None) |}).
Proof. vm_compute. reflexivity. Qed.

(** The delay of 0 does not survive [create]: the stored delay is the
    default, and the run sleeps that long between the batches. *)
Lemma zero_delay_becomes_default :
  b_batchDelayMs <$> broadcasts (queuedCampaign fiveContacts 2) !! 0
  = Some 1000
  ∧ sleeps
    <$> summarize 0
          (handleSendBroadcast (quiet channelUp) sampleJob 2000
             (startWorld (queuedCampaign fiveContacts 2)))
    = Some [1000; 1000].
Proof. split; vm_compute; reflexivity. Qed.

(** ** Where the statements of the specification fail *)

(** Against C1: the channel times out on the only row of a campaign; the
    run dispatches the row once and leaves it FAILED, counted in
    [failedCount], on this first failure. *)
Lemma timeout_fails_row_at_once :
  (λ r, (returned r, batches r, left_ r))
  <$> summarize 0
        (handleSendBroadcast (quiet channelTimeout) sampleJob 2000
           (startWorld (queuedCampaign ["c1"%string] 2)))
  = Some (Finished 0 1,
          [[0]],
          {| campaign := Some (BroadcastStatus.COMPLETED, (1, 0, 1));
             rows := [(RecipientStatus.FAILED,
                       Some "timeout of 30000ms exceeded"%string)] |}).
Proof. vm_compute. reflexivity. Qed.

(** Against C3: in the scenario of five recipients, the store committed
    by the update of row 0 has the row SENT and the campaign's
    [sentCount] still 0; the counter write comes two commits later. *)
Lemma row_sent_before_counter :
  (λ r, take 3 (drop 1 (commits r)))
  <$> summarize 0
        (handleSendBroadcast (quiet channelUp) sampleJob 2000
           (startWorld (queuedCampaign fiveContacts 2)))
  = Some
      [(RecipientWrite 0,
        {| campaign := Some (BroadcastStatus.SENDING, (5, 0, 0));
           rows := (RecipientStatus.SENT, None)
                   :: replicate 4 (RecipientStatus.PENDING, None) |});
       (RecipientWrite 1,
        {| campaign := Some (BroadcastStatus.SENDING, (5, 0, 0));
           rows := replicate 2 (RecipientStatus.SENT, None)
                   ++ replicate 3 (RecipientStatus.PENDING, None) |});
       (BroadcastWrite,
        {| campaign := Some (BroadcastStatus.SENDING, (5, 2, 0));
           rows := replicate 2 (RecipientStatus.SENT, None)
                   ++ replicate 3 (RecipientStatus.PENDING, None) |})].
Proof. vm_compute. reflexivity. Qed.

(** The same with a control request in between: a pause that commits
    between the updates of rows 0 and 1 commits a store in which row 0 is
    SENT and [sentCount] is 0, the counters and the pending rows adding up
    to 4 of 5. *)
Lemma pause_commits_before_counter :
  (λ r, take 1 (drop 2 (commits r)))
  <$> summarize 0
        (handleSendBroadcast pausedAfterFirstBatch sampleJob 2000
           (startWorld (queuedCampaign fiveContacts 2)))
  = Some
      [(ServiceWrite ReqPause,
        {| campaign := Some (BroadcastStatus.PAUSED, (5, 0, 0));
           rows := (RecipientStatus.SENT, None)
                   :: replicate 4 (RecipientStatus.PENDING, None) |})].
Proof. vm_compute. reflexivity. Qed.

(** Against C4: the run of the scenario commits a store, by the update of
    row 0, in which the counters and the pending rows add up to 4, one
    short of the total of 5. *)
Lemma sum_short_of_total_mid_batch :
  match handleSendBroadcast (quiet channelUp) sampleJob 2000
          (startWorld (queuedCampaign fiveContacts 2)) with
  | Some (_, w') =>
      ∃ s1, Committed (RecipientWrite 0) s1 ∈ trace w'
            ∧ ledgerOf <$> broadcasts s1 !! 0 = Some (5, 0, 0)
            ∧ rowsIn RecipientStatus.PENDING 0 s1 = 4
            ∧ ¬ conserved 0 s1
  | None => False
  end.
Proof.
  destruct (handleSendBroadcast _ _ _ _) as [[ret w']|] eqn:Hrun; [|
    by destruct (handleSendBroadcast_total (quiet channelUp) sampleJob 2000
                   (startWorld (queuedCampaign fiveContacts 2)))
         as [? H]; rewrite Hrun in H].
  assert (Hs1 : (λ rw : JobReturn * World,
                   (λ e, match e with
                         | Committed by_ s =>
                             Some (by_, ledgerOf <$> broadcasts s !! 0,
                                   rowsIn RecipientStatus.PENDING 0 s)
                         | _ => None
                         end) <$> trace rw.2 !! 3) <$>
                handleSendBroadcast (quiet channelUp) sampleJob 2000
                  (startWorld (queuedCampaign fiveContacts 2))
                = Some (Some (Some (RecipientWrite 0, Some (5, 0, 0), 4))))
    by (vm_compute; reflexivity).
  rewrite Hrun in Hs1. simpl in Hs1.
  destruct (trace w' !! 3) as [[by_ s1| | |]|] eqn:He; simpl in Hs1;
    try discriminate Hs1.
  injection Hs1 as -> Hl Hp. exists s1.
  split_and!; [by eapply list_elem_of_lookup_2|done|done|].
  intros (b&Hb&Hsum). rewrite Hb in Hl. injection Hl as Ht Hs Hf.
  rewrite Hp in Hsum. lia.
Qed.

(** Against C5: a cancel request is accepted between the handler's read
    of the campaign and its update to SENDING.  The update overwrites
    CANCELLED, every status check of the run reads SENDING, and the run
    dispatches all three batches and completes the campaign: the request
    is not observed at the start of any batch iteration. *)
Lemma cancel_lost_while_starting :
  (λ r, (take 2 (commits r), checks r, batches r, returned r,
         campaign (left_ r)))
  <$> summarize 0
        (handleSendBroadcast cancelledWhileStarting sampleJob 2000
           (startWorld (queuedCampaign fiveContacts 2)))
  = Some
      ([(ServiceWrite ReqCancel,
         {| campaign := Some (BroadcastStatus.CANCELLED, (5, 0, 0));
            rows := replicate 5 (RecipientStatus.PENDING, None) |});
        (BroadcastWrite,
         {| campaign := Some (BroadcastStatus.SENDING, (5, 0, 0));
            rows := replicate 5 (RecipientStatus.PENDING, None) |})],
       replicate 3 (Some BroadcastStatus.SENDING),
       [[0; 1]; [2; 3]; [4]],
       Finished 5 0,
       Some (BroadcastStatus.COMPLETED, (5, 5, 0))).
Proof. vm_compute. reflexivity. Qed.

(** Against C9: the five rows of the scenario are inserted with keys 0 to
    4 by one [createMany] and share their creation time.  On a database
    that returns rows of equal creation time with the higher key first,
    the run dispatches them in the batches 4-3, 2-1 and 0: not in the
    order of their insertion. *)
Lemma ties_dispatched_newest_first :
  r_id <$> recipients (queuedCampaign fiveContacts 2) = [0; 1; 2; 3; 4]
  ∧ r_createdAt <$> recipients (queuedCampaign fiveContacts 2)
    = replicate 5 1000%Z
  ∧ (λ r, (batches r, returned r))
    <$> summarize 0
          (handleSendBroadcast (newestFirst 4) sampleJob 2000
             (startWorld (queuedCampaign fiveContacts 2)))
    = Some ([[4; 3]; [2; 1]; [0]], Finished 5 0).
Proof. split_and!; vm_compute; reflexivity. Qed.

(** ** The theorems at work on the sample campaigns *)

Lemma sample_keys ids batchSize :
  bool_decide (NoDup (r_id <$> recipients (queuedCampaign ids batchSize)))
  = true →
  NoDup (r_id <$> recipients (queuedCampaign ids batchSize)).
Proof. apply bool_decide_eq_true_1. Defined.

Lemma failed_send_marks_row_failed_witness :
  ∃ ret w',
    handleSendBroadcast (quiet channelTimeout) sampleJob 2000
      (startWorld (queuedCampaign ["c1"%string] 2))
    = Some (ret, w')
    ∧ r_id firstRow ∈ concat (batchesOf (trace w'))
    ∧ markFailed (Some "timeout of 30000ms exceeded"%string) firstRow
      ∈ recipients (db w')
    ∧ (∀ r, r ∈ recipients (db w') → r_id r = 0 →
            r_status r = RecipientStatus.FAILED)
    ∧ NoDup (concat (batchesOf (trace w')))
    ∧ (∀ y, y ∈ findPendingRecipients (db w') 0 → r_id y ≠ 0).
Proof.
  set (ret := (outcomeOfRun (quiet channelTimeout) sampleJob 2000
                 (queuedCampaign ["c1"%string] 2)).1).
  set (w' := (outcomeOfRun (quiet channelTimeout) sampleJob 2000
                (queuedCampaign ["c1"%string] 2)).2).
  assert (Hrun : handleSendBroadcast (quiet channelTimeout) sampleJob 2000
                   (startWorld (queuedCampaign ["c1"%string] 2))
                 = Some (ret, w'))
    by (vm_compute; reflexivity).
  exists ret, w'. split; [exact Hrun|].
  assert (Hdisp : r_id firstRow ∈ concat (batchesOf (trace w'))).
  { vm_compute. apply list_elem_of_here. }
  split; [exact Hdisp|].
  apply (failed_send_marks_row_failed (quiet channelTimeout) sampleJob 2000
           (queuedCampaign ["c1"%string] 2)
           (queuedBroadcast ["c1"%string] 2) ret w' firstRow).
  - apply sample_keys. vm_compute. reflexivity.
  - vm_compute. reflexivity.
  - exact Hrun.
  - vm_compute. apply list_elem_of_here.
  - exact Hdisp.
  - vm_compute. reflexivity.
Defined.

Lemma row_update_then_counter_write_witness :
  ∃ ret w',
    handleSendBroadcast pausedAfterFirstBatch sampleJob 2000
      (startWorld (queuedCampaign fiveContacts 2))
    = Some (ret, w')
    ∧ rowWritesKeepBroadcasts (queuedCampaign fiveContacts 2) (trace w')
    ∧ (∀ s1, Committed BroadcastWrite s1 ∈ trace w' →
             tallied 0 (queuedCampaign fiveContacts 2)
               (queuedBroadcast fiveContacts 2) s1)
    ∧ tallied 0 (queuedCampaign fiveContacts 2)
        (queuedBroadcast fiveContacts 2) (db w').
Proof.
  set (ret := (outcomeOfRun pausedAfterFirstBatch sampleJob 2000
                 (queuedCampaign fiveContacts 2)).1).
  set (w' := (outcomeOfRun pausedAfterFirstBatch sampleJob 2000
                (queuedCampaign fiveContacts 2)).2).
  assert (Hrun : handleSendBroadcast pausedAfterFirstBatch sampleJob 2000
                   (startWorld (queuedCampaign fiveContacts 2))
                 = Some (ret, w'))
    by (vm_compute; reflexivity).
  exists ret, w'. split; [exact Hrun|].
  apply (row_update_then_counter_write pausedAfterFirstBatch sampleJob 2000
           (queuedCampaign fiveContacts 2) (queuedBroadcast fiveContacts 2)
           ret w').
  - apply sample_keys. vm_compute. reflexivity.
  - vm_compute. reflexivity.
  - exact Hrun.
Defined.

Lemma counters_within_total_witness :
  ∃ ret w',
    handleSendBroadcast pausedAfterFirstBatch sampleJob 2000
      (startWorld (queuedCampaign fiveContacts 2))
    = Some (ret, w')
    ∧ (∀ by_ s1, Committed by_ s1 ∈ trace w' →
                 totalOf 0 s1 = totalOf 0 (queuedCampaign fiveContacts 2)
                 ∧ withinTotal 0 s1
                 ∧ (by_ = BroadcastWrite → conserved 0 s1))
    ∧ StronglySorted (countersLe 0)
        (queuedCampaign fiveContacts 2 :: committedOf (trace w'))
    ∧ totalOf 0 (db w') = totalOf 0 (queuedCampaign fiveContacts 2)
    ∧ conserved 0 (db w').
Proof.
  set (ret := (outcomeOfRun pausedAfterFirstBatch sampleJob 2000
                 (queuedCampaign fiveContacts 2)).1).
  set (w' := (outcomeOfRun pausedAfterFirstBatch sampleJob 2000
                (queuedCampaign fiveContacts 2)).2).
  assert (Hrun : handleSendBroadcast pausedAfterFirstBatch sampleJob 2000
                   (startWorld (queuedCampaign fiveContacts 2))
                 = Some (ret, w'))
    by (vm_compute; reflexivity).
  exists ret, w'. split; [exact Hrun|].
  apply (counters_within_total pausedAfterFirstBatch sampleJob 2000
           (queuedCampaign fiveContacts 2) (queuedBroadcast fiveContacts 2)
           ret w').
  - apply sample_keys. vm_compute. reflexivity.
  - vm_compute. reflexivity.
  - exists (queuedBroadcast fiveContacts 2).
    split; vm_compute; reflexivity.
  - exact Hrun.
Defined.

Lemma pause_cancel_observed_between_batches_witness :
  ∃ ret w' n,
    handleSendBroadcast pausedAfterFirstBatch sampleJob 2000
      (startWorld (queuedCampaign fiveContacts 2))
    = Some (ret, w')
    ∧ concat (batchesOf (trace w'))
      = r_id <$> take n (findManyPending (tieOrder pausedAfterFirstBatch)
                           (queuedCampaign fiveContacts 2) 0)
    ∧ checksDecide 0 (queuedCampaign fiveContacts 2) (trace w')
    ∧ dispatchesFollowChecks (trace w')
    ∧ (∀ x, x ∈ take n (findManyPending (tieOrder pausedAfterFirstBatch)
                          (queuedCampaign fiveContacts 2) 0) →
            (∃ r, r ∈ recipients (db w') ∧ r_id r = r_id x)
            ∧ ∀ r, r ∈ recipients (db w') → r_id r = r_id x →
                   holdsOutcome 2000
                     (outcomeOf
                        (runOf pausedAfterFirstBatch sampleJob 2000
                           (queuedBroadcast fiveContacts 2)
                           (queuedCampaign fiveContacts 2)) x) r)
    ∧ (∀ x, x ∈ drop n (findManyPending (tieOrder pausedAfterFirstBatch)
                          (queuedCampaign fiveContacts 2) 0) →
            x ∈ recipients (db w')).
Proof.
  set (ret := (outcomeOfRun pausedAfterFirstBatch sampleJob 2000
                 (queuedCampaign fiveContacts 2)).1).
  set (w' := (outcomeOfRun pausedAfterFirstBatch sampleJob 2000
                (queuedCampaign fiveContacts 2)).2).
  assert (Hrun : handleSendBroadcast pausedAfterFirstBatch sampleJob 2000
                   (startWorld (queuedCampaign fiveContacts 2))
                 = Some (ret, w'))
    by (vm_compute; reflexivity).
  exists ret, w'.
  destruct (pause_cancel_observed_between_batches pausedAfterFirstBatch
              sampleJob 2000 (queuedCampaign fiveContacts 2)
              (queuedBroadcast fiveContacts 2) ret w'
              (sample_keys fiveContacts 2 eq_refl) eq_refl Hrun)
    as (n&H1&H2&H3&H4&H5&_).
  exists n. by split_and!.
Defined.

(** The pause in numbers: the first batch is dispatched and recorded, the
    campaign is PAUSED with three rows pending, and nothing else went
    out. *)
Lemma pause_after_first_batch :
  (λ r, (returned r, batches r, left_ r))
  <$> summarize 0
        (handleSendBroadcast pausedAfterFirstBatch sampleJob 2000
           (startWorld (queuedCampaign fiveContacts 2)))
  = Some (Stopped BroadcastStatus.PAUSED 2,
          [[0; 1]],
          {| campaign := Some (BroadcastStatus.PAUSED, (5, 2, 0));
             rows := replicate 2 (RecipientStatus.SENT, None)
                     ++ replicate 3 (RecipientStatus.PENDING, None) |}).
Proof. vm_compute. reflexivity. Qed.

Lemma rows_processed_in_creation_order_witness :
  ∃ ret w' n,
    handleSendBroadcast (newestFirst 4) sampleJob 2000
      (startWorld (queuedCampaign fiveContacts 2))
    = Some (ret, w')
    ∧ findManyPending (tieOrder (newestFirst 4))
        (queuedCampaign fiveContacts 2) 0
      ≡ₚ filter (isPendingOf 0) (recipients (queuedCampaign fiveContacts 2))
    ∧ StronglySorted (precedes (tieOrder (newestFirst 4)))
        (findManyPending (tieOrder (newestFirst 4))
           (queuedCampaign fiveContacts 2) 0)
    ∧ concat (batchesOf (trace w'))
      = r_id <$> take n (findManyPending (tieOrder (newestFirst 4))
                           (queuedCampaign fiveContacts 2) 0)
    ∧ ∀ sent failed,
        ret = Finished sent failed →
        n = length (findManyPending (tieOrder (newestFirst 4))
                      (queuedCampaign fiveContacts 2) 0).
Proof.
  set (ret := (outcomeOfRun (newestFirst 4) sampleJob 2000
                 (queuedCampaign fiveContacts 2)).1).
  set (w' := (outcomeOfRun (newestFirst 4) sampleJob 2000
                (queuedCampaign fiveContacts 2)).2).
  assert (Hrun : handleSendBroadcast (newestFirst 4) sampleJob 2000
                   (startWorld (queuedCampaign fiveContacts 2))
                 = Some (ret, w'))
    by (vm_compute; reflexivity).
  exists ret, w'.
  destruct (rows_processed_in_creation_order (newestFirst 4) sampleJob
              2000 (queuedCampaign fiveContacts 2) ret w' Hrun)
    as (H1&H2&_&n&H3&H4).
  exists n. by split_and!.
Defined.

(** After the pause, [resume] queues a job that picks up the three pending
    rows and completes the campaign. *)
Lemma resume_completes_the_campaign :
  (λ r, (returned r, batches r, left_ r))
  <$> summarize 0
        (handleSendBroadcast (quiet channelUp)
           {| j_broadcastId := 0; j_tenantId := "t1"; j_resume := true |}
           3000
           (startWorld
              (resume "t1" 0
                 (db (outcomeOfRun pausedAfterFirstBatch sampleJob 2000
                        (queuedCampaign fiveContacts 2)).2)).2))
  = Some (Finished 5 0,
          [[2; 3]; [4]],
          {| campaign := Some (BroadcastStatus.COMPLETED, (5, 5, 0));
             rows := replicate 5 (RecipientStatus.SENT, None) |}).
Proof. vm_compute. reflexivity. Qed.

(** ** Where the hypotheses of the run theorems come from *)

Lemma filter_all {A} (P : A → Prop) `{∀ x, Decision (P x)} (l : list A) :
  Forall P l → filter P l = l.
Proof.
  induction 1 as [|x l Hx Hl IH]; [done|].
  by rewrite filter_cons, decide_True, IH.
Qed.

Lemma filter_none {A} (P : A → Prop) `{∀ x, Decision (P x)} (l : list A) :
  Forall (λ x, ¬ P x) l → filter P l = [].
Proof.
  induction 1 as [|x l Hx Hl IH]; [done|].
  by rewrite filter_cons, decide_False, IH.
Qed.

Lemma newRecipients_lookup id first now ids k :
  newRecipients id first now ids !! k
  = (λ contactId,
       {| r_id := first + k; r_broadcastId := id; r_contactId := contactId;
          r_status := RecipientStatus.PENDING; r_messageId := None;
          r_error := None; r_sentAt := None; r_createdAt := now |})
    <$> ids !! k.
Proof. unfold newRecipients. by rewrite list_lookup_imap. Qed.

Lemma newRecipients_length id first now ids :
  length (newRecipients id first now ids) = length ids.
Proof. unfold newRecipients. apply length_imap. Qed.

Lemma newRecipients_elem id first now ids r :
  r ∈ newRecipients id first now ids →
  first ≤ r_id r ∧ r_id r < first + length ids
  ∧ r_broadcastId r = id ∧ r_status r = RecipientStatus.PENDING
  ∧ r_createdAt r = now.
Proof.
  intros Hr. apply list_elem_of_lookup in Hr as [k Hk].
  rewrite newRecipients_lookup in Hk.
  destruct (ids !! k) as [cid|] eqn:Hc; [|done].
  apply lookup_lt_Some in Hc. injection Hk as <-. simpl.
  split_and!; try done; lia.
Qed.

Lemma newRecipients_NoDup id first now ids :
  NoDup (r_id <$> newRecipients id first now ids).
Proof.
  apply NoDup_alt. intros i j k Hi Hj.
  rewrite list_lookup_fmap, newRecipients_lookup in Hi, Hj.
  destruct (ids !! i), (ids !! j); simpl in *; try done.
  injection Hi as <-. injection Hj as Hj. lia.
Qed.

(** The rows that [create] appends. *)
Lemma create_rows tenantId dto now thisMonth s b s' :
  create tenantId dto now thisMonth s = (Ok b, s') →
  b = newBroadcast (nextBroadcastId s) tenantId dto (b_targetType b)
        (length (calculateRecipients s tenantId (dto_target dto)))
  ∧ broadcasts s' = <[nextBroadcastId s := b]> (broadcasts s)
  ∧ recipients s'
    = recipients s
      ++ newRecipients (nextBroadcastId s) (nextRecipientId s) now
           (calculateRecipients s tenantId (dto_target dto))
  ∧ nextBroadcastId s' = S (nextBroadcastId s)
  ∧ nextRecipientId s'
    = nextRecipientId s
      + length (calculateRecipients s tenantId (dto_target dto)).
Proof.
  unfold create. case_decide; [done|].
  destruct (tenants s !! tenantId); [|done].
  case_decide; [done|].
  destruct (targetType (dto_target dto)) as [ty|]; [|done].
  intros [= <- <-].
  destruct (dto_scheduledAt dto); [case_decide|]; simpl;
    rewrite newRecipients_length; by split_and!.
Qed.

(** X28: a created campaign starts with a total equal to the number of
    its rows, all pending, and counters at zero: its books balance.  The
    hygiene of the store is kept. *)
Lemma create_conserved tenantId dto now thisMonth s b s' :
  wellKeyed s →
  create tenantId dto now thisMonth s = (Ok b, s') →
  conserved (b_id b) s'
  ∧ broadcasts s' !! b_id b = Some b
  ∧ ledgerOf b
    = (length (calculateRecipients s tenantId (dto_target dto)), 0, 0)
  ∧ wellKeyed s'.
Proof.
  intros [Hnd Hkeys] Hc.
  apply create_rows in Hc as (Hb&Hbs&Hrs&Hnb&Hnr).
  set (ids := calculateRecipients s tenantId (dto_target dto)) in *.
  assert (Hid : b_id b = nextBroadcastId s) by (by rewrite Hb).
  assert (Hlookup : broadcasts s' !! b_id b = Some b)
    by (by rewrite Hbs, Hid, lookup_insert_eq).
  assert (Hledger : ledgerOf b = (length ids, 0, 0)) by (by rewrite Hb).
  split_and!; [|done|done|].
  - exists b. split; [done|].
    injection Hledger as -> -> ->. unfold rowsIn.
    rewrite Hrs, filter_app, length_app, Hid.
    rewrite filter_none, filter_all, newRecipients_length; [done|..].
    + apply Forall_forall. intros r Hr.
      by apply newRecipients_elem in Hr as (_&_&?&?&_).
    + apply Forall_forall. intros r Hr [Hrb _].
      apply Hkeys in Hr. lia.
  - split.
    + rewrite Hrs, fmap_app. apply NoDup_app. split_and!.
      * done.
      * intros k Hk Hk'.
        apply list_elem_of_fmap in Hk as (r&->&Hr).
        apply list_elem_of_fmap in Hk' as (r'&Heq&Hr').
        apply Hkeys in Hr. apply newRecipients_elem in Hr'. lia.
      * apply newRecipients_NoDup.
    + intros r Hr. rewrite Hrs in Hr. rewrite Hnb, Hnr.
      apply elem_of_app in Hr as [Hr|Hr].
      * apply Hkeys in Hr. lia.
      * apply newRecipients_elem in Hr. fold ids in Hr. lia.
Qed.

(** X29: [create] appends its rows with the time of the clock, so a
    clock that does not run backwards keeps the table in creation
    order. *)
Lemma create_inCreationOrder tenantId dto now thisMonth s b s' :
  inCreationOrder now s →
  create tenantId dto now thisMonth s = (Ok b, s') →
  inCreationOrder now s'.
Proof.
  intros [Hs Hle] Hc.
  apply create_rows in Hc as (_&_&Hrs&_). unfold inCreationOrder.
  rewrite Hrs.
  assert (Hnew : ∀ r, r ∈ newRecipients (nextBroadcastId s)
                            (nextRecipientId s) now
                            (calculateRecipients s tenantId (dto_target dto))
                      → r_createdAt r = now).
  { intros r Hr. by apply newRecipients_elem in Hr as (_&_&_&_&?). }
  split.
  - apply StronglySorted_app_2; [|done|].
    + intros x y Hx Hy. rewrite (Hnew y Hy). by apply Hle.
    + revert Hnew. generalize (newRecipients (nextBroadcastId s)
                                 (nextRecipientId s) now
                                 (calculateRecipients s tenantId
                                    (dto_target dto))).
      induction l as [|x l IH]; intros Hnew; constructor.
      * apply IH. intros r Hr. apply Hnew. by apply list_elem_of_further.
      * apply Forall_forall. intros y Hy.
        rewrite (Hnew x), (Hnew y); [done|by apply list_elem_of_further
                                     |apply list_elem_of_here].
  - intros r Hr. apply elem_of_app in Hr as [Hr|Hr]; [by apply Hle|].
    by rewrite (Hnew r Hr).
Qed.

(** A control request leaves rows, totals and counters alone, so it keeps
    the books of every campaign. *)
Lemma serveRequest_conserved tenantId id now q s r s' i :
  serveRequest tenantId id now q s = (r, s') →
  (conserved i s → conserved i s') ∧ totalOf i s' = totalOf i s
  ∧ recipients s' = recipients s.
Proof.
  intros Hq. pose proof (serveRequest_sameLedger _ _ _ _ _ _ _ Hq) as Hl.
  pose proof (rowsIn_sameLedger RecipientStatus.PENDING i _ _ Hl) as Hrows.
  destruct Hl as (Hrec&_&Hl). specialize (Hl i).
  split_and!; [|unfold totalOf|done].
  - intros (b&Hb&Hsum). rewrite Hb in Hl.
    destruct (broadcasts s' !! i) as [b'|] eqn:Hb'; simpl in Hl; [|done].
    injection Hl as Ht Hs Hf.
    exists b'. split; [done|]. lia.
  - destruct (broadcasts s' !! i), (broadcasts s !! i); simpl in *;
      try done. by injection Hl as ->.
Qed.

(** X30: [update] changes the total only by retargeting, and then to
    the size of the recomputed recipient list, whose rows replace all
    rows of the campaign. *)
Lemma update_total tenantId id dto now s b s' broadcast :
  findFirstBroadcast s id tenantId = Some broadcast →
  update tenantId id dto now s = (Ok b, s') →
  match retargeting dto broadcast with
  | Some t =>
      totalRecipients b = length (calculateRecipients s tenantId t)
      ∧ filter (λ r, r_broadcastId r = id) (recipients s')
        = newRecipients id (nextRecipientId s) now
            (calculateRecipients s tenantId t)
  | None =>
      totalRecipients b = totalRecipients broadcast
      ∧ recipients s' = recipients s
  end
  ∧ broadcasts s' !! id = Some b.
Proof.
  intros Hfind. unfold update. rewrite Hfind.
  apply findFirstBroadcast_Some in Hfind as [Hb _].
  case_decide; [done|].
  intros [= <- <-].
  assert (Hq : ∀ s1 : Store,
            recipients
              match u_scheduledAt dto with
              | Some (Some at_) =>
                  if decide (0 < at_ - now)%Z
                  then queueAdd (sendJob id tenantId (Some (at_ - now)%Z))
                         (queueRemoveJobs (JobBroadcast id) s1)
                  else queueRemoveJobs (JobBroadcast id) s1
              | _ => s1
              end = recipients s1
            ∧ broadcasts
                match u_scheduledAt dto with
                | Some (Some at_) =>
                    if decide (0 < at_ - now)%Z
                    then queueAdd (sendJob id tenantId (Some (at_ - now)%Z))
                           (queueRemoveJobs (JobBroadcast id) s1)
                    else queueRemoveJobs (JobBroadcast id) s1
                | _ => s1
                end = broadcasts s1).
  { intros s1. destruct (u_scheduledAt dto) as [[at_|]|]; [case_decide|..];
      done. }
  destruct (retargeting dto broadcast) as [t|]; simpl.
  - destruct (Hq (updateBroadcast id
                    (updatedBroadcast dto
                       (Some (calculateRecipients s tenantId t)))
                    (replaceRecipients id now
                       (calculateRecipients s tenantId t) s)))
      as [-> ->].
    simpl. split_and!; [done| |by rewrite lookup_alter_eq, Hb].
    rewrite filter_app, filter_none, filter_all; [done|..].
    + apply Forall_forall. intros r Hr.
      by apply newRecipients_elem in Hr as (_&_&?&_).
    + apply Forall_forall. intros r Hr.
      by apply list_elem_of_filter in Hr as [? _].
  - destruct (Hq (updateBroadcast id (updatedBroadcast dto None) s))
      as [-> ->].
    simpl. split_and!; [done|done|by rewrite lookup_alter_eq, Hb].
Qed.

(** * Further properties *)

(** ** Text substitution *)

#[local] Arguments Processor.isWordChar : simpl never.

Lemma list_ascii_of_string_app (a b : string) :
  String.list_ascii_of_string (a +:+ b)
  = String.list_ascii_of_string a ++ String.list_ascii_of_string b.
Proof. induction a as [|c a IH]; simpl; [done|]. by rewrite IH. Qed.

Lemma string_of_list_ascii_app (a b : list ascii) :
  String.string_of_list_ascii (a ++ b)
  = String.string_of_list_ascii a +:+ String.string_of_list_ascii b.
Proof. induction a as [|c a IH]; simpl; [done|]. by rewrite IH. Qed.

Lemma spanWord_app l :
  l = (Processor.spanWord l).1 ++ (Processor.spanWord l).2
  ∧ Forall (λ a, Processor.isWordChar a = true) (Processor.spanWord l).1.
Proof.
  induction l as [|a l [IH1 IH2]]; simpl; [done|].
  destruct (Processor.isWordChar a) eqn:Ha; simpl; [|done].
  split; [by rewrite <- IH1|by constructor].
Qed.

(** A match at the head is the text of a placeholder with a key of word
    characters, followed by the rest. *)
Lemma matchPlaceholder_Some l key rest :
  Processor.matchPlaceholder l = Some (key, rest) →
  l = Processor.placeholder key ++ rest ∧ key ≠ []
  ∧ Forall (λ a, Processor.isWordChar a = true) key.
Proof.
  unfold Processor.matchPlaceholder, Processor.placeholder.
  destruct l as [|a [|b l1]]; [done..|].
  case_decide as Hab; [|done]. destruct Hab as [-> ->].
  destruct (spanWord_app l1) as [Hl1 Hw].
  destruct (Processor.spanWord l1) as [[|k w] [|c [|d r]]]; try done.
  case_decide as Hcd; [|done]. destruct Hcd as [-> ->].
  intros [= <- <-]. simpl in *. split_and!; [|done|done].
  rewrite Hl1. simpl. by rewrite <- app_assoc.
Qed.

Lemma spanWord_run key tl :
  Forall (λ a, Processor.isWordChar a = true) key →
  match tl with a :: _ => Processor.isWordChar a = false | [] => True end →
  Processor.spanWord (key ++ tl) = (key, tl).
Proof.
  intros Hkey Htl. induction Hkey as [|a key Ha _ IH]; simpl.
  - destruct tl as [|a tl]; [done|]. simpl. by rewrite Htl.
  - by rewrite Ha, IH.
Qed.

Lemma matchPlaceholder_placeholder key rest :
  key ≠ [] →
  Forall (λ a, Processor.isWordChar a = true) key →
  Processor.matchPlaceholder (Processor.placeholder key ++ rest)
  = Some (key, rest).
Proof.
  intros Hne Hkey. unfold Processor.matchPlaceholder, Processor.placeholder.
  simpl. rewrite <- app_assoc. rewrite spanWord_run; [|done|done].
  by destruct key as [|k key].
Qed.

(** Passing over [skip] characters is dropping them. *)
Lemma replaceAll_skip variables l :
  ∀ skip, Processor.replaceAll variables skip l
          = Processor.replaceAll variables 0 (drop skip l).
Proof.
  induction l as [|a l IH]; intros [|k]; by simpl.
Qed.

Lemma replaceAll_0 variables a l :
  Processor.replaceAll variables 0 (a :: l)
  = match Processor.matchPlaceholder (a :: l) with
    | Some (key, _) =>
        Processor.replacement variables key
        ++ Processor.replaceAll variables (length key + 3) l
    | None => a :: Processor.replaceAll variables 0 l
    end.
Proof. done. Qed.

Lemma replaceAll_match variables key rest :
  key ≠ [] →
  Forall (λ a, Processor.isWordChar a = true) key →
  Processor.replaceAll variables 0 (Processor.placeholder key ++ rest)
  = Processor.replacement variables key
    ++ Processor.replaceAll variables 0 rest.
Proof.
  intros Hne Hkey.
  pose proof (matchPlaceholder_placeholder key rest Hne Hkey) as Hm.
  change (Processor.placeholder key ++ rest)
    with ("{"%char :: ("{"%char :: key ++ ["}"%char; "}"%char]) ++ rest) in *.
  rewrite replaceAll_0, Hm. f_equal. rewrite replaceAll_skip.
  replace (length key + 3)
    with (length ("{"%char :: key ++ ["}"%char; "}"%char]))
    by (simpl; rewrite length_app; simpl; lia).
  by rewrite drop_app_length.
Qed.

(** Text without an opening brace is kept as it is. *)
Lemma replaceAll_plain variables pre l :
  "{"%char ∉ pre →
  Processor.replaceAll variables 0 (pre ++ l)
  = pre ++ Processor.replaceAll variables 0 l.
Proof.
  induction pre as [|a pre IH]; intros Hpre; [done|].
  apply not_elem_of_cons in Hpre as [Ha Hpre].
  change ((a :: pre) ++ l) with (a :: pre ++ l). rewrite replaceAll_0.
  assert (Hm : Processor.matchPlaceholder (a :: pre ++ l) = None).
  { unfold Processor.matchPlaceholder. destruct (pre ++ l); [done|].
    rewrite decide_False; [done|]. intros [-> _]. done. }
  rewrite Hm. simpl. f_equal. by apply IH.
Qed.

(** With no variable defined, nothing is replaced. *)
Lemma replaceAll_undefined variables l :
  (∀ key, variables key = None) →
  ∀ skip, Processor.replaceAll variables skip l = drop skip l.
Proof.
  intros Hnone. induction l as [|a l IH]; intros [|k]; try done.
  - rewrite replaceAll_0.
    destruct (Processor.matchPlaceholder (a :: l)) as [[key rest]|] eqn:Hm.
    + apply matchPlaceholder_Some in Hm as (Hl&_&_).
      unfold Processor.replacement. rewrite Hnone, IH. simpl.
      unfold Processor.placeholder in Hl. simpl in Hl.
      injection Hl as -> ->. simpl. do 2 f_equal.
      replace (length key + 3) with (S (length (key ++ ["}"%char; "}"%char])))
        by (rewrite length_app; simpl; lia).
      simpl.
      by rewrite (drop_app_length (key ++ ["}"%char; "}"%char]) rest),
        <- app_assoc.
    + simpl. by rewrite IH.
  - simpl. apply IH.
Qed.

Lemma interpolateVariables_plain pre rest variables :
  "{"%char ∉ String.list_ascii_of_string pre →
  Processor.interpolateVariables (pre +:+ rest) variables
  = pre +:+ Processor.interpolateVariables rest variables.
Proof.
  intros Hpre. unfold Processor.interpolateVariables.
  rewrite list_ascii_of_string_app, replaceAll_plain by done.
  by rewrite string_of_list_ascii_app, String.string_of_list_ascii_of_string.
Qed.

Lemma interpolateVariables_head key post variables :
  key ≠ ""%string →
  Forall (λ a, Processor.isWordChar a = true)
    (String.list_ascii_of_string key) →
  Processor.interpolateVariables ("{{" +:+ key +:+ "}}" +:+ post) variables
  = default ("{{" +:+ key +:+ "}}") (variables key)
    +:+ Processor.interpolateVariables post variables.
Proof.
  intros Hne Hkey. unfold Processor.interpolateVariables.
  assert (Hl : String.list_ascii_of_string ("{{" +:+ key +:+ "}}" +:+ post)
               = Processor.placeholder (String.list_ascii_of_string key)
                 ++ String.list_ascii_of_string post).
  { rewrite !list_ascii_of_string_app. unfold Processor.placeholder.
    simpl. by rewrite <- app_assoc. }
  rewrite Hl, replaceAll_match; [|by destruct key|done].
  rewrite string_of_list_ascii_app. f_equal.
  unfold Processor.replacement.
  rewrite String.string_of_list_ascii_of_string.
  destruct (variables key) as [v|]; simpl.
  - apply String.string_of_list_ascii_of_string.
  - unfold Processor.placeholder.
    change ("{"%char :: "{"%char :: String.list_ascii_of_string key
            ++ ["}"%char; "}"%char])
      with (String.list_ascii_of_string "{{"
            ++ String.list_ascii_of_string key
            ++ String.list_ascii_of_string "}}").
    by rewrite !string_of_list_ascii_app,
      !String.string_of_list_ascii_of_string.
Qed.

Lemma contactName_word :
  Forall (λ a, Processor.isWordChar a = true)
    (String.list_ascii_of_string "contactName").
Proof. simpl. repeat (constructor; [reflexivity|]). constructor. Qed.

(** X1: [interpolateVariables] returns a template that holds no opening
    brace as it is, whatever the variables. *)
Theorem interpolate_without_braces template variables :
  "{"%char ∉ String.list_ascii_of_string template →
  Processor.interpolateVariables template variables = template.
Proof.
  intros Hplain.
  assert (Hnil : Processor.interpolateVariables "" variables = ""%string)
    by done.
  assert (Happ : template +:+ "" = template).
  { clear. induction template as [|a t IH]; [done|].
    change (String a t +:+ "") with (String a (t +:+ "")). by rewrite IH. }
  rewrite <- Happ at 1. rewrite interpolateVariables_plain by done.
  by rewrite Hnil.
Qed.

Lemma interpolate_without_braces_witness :
  Processor.interpolateVariables "hello }} and welcome"
    (contactVariables (λ _, None) "Mona")
  = "hello }} and welcome"%string.
Proof.
  apply interpolate_without_braces. vm_compute.
  intros H. repeat (apply elem_of_cons in H as [H|H]; [discriminate H|]).
  by apply elem_of_nil in H.
Defined.

(** X2: the first placeholder of a template.  When the text before it
    holds no opening brace and its key is a non-empty run of word
    characters, [interpolateVariables] keeps the text before it, puts the
    value of the key in its place (or the placeholder itself when the key
    is undefined), and goes on with the text after it: the value is not
    scanned again. *)
Theorem interpolate_placeholder pre key post variables :
  "{"%char ∉ String.list_ascii_of_string pre →
  key ≠ ""%string →
  Forall (λ a, Processor.isWordChar a = true)
    (String.list_ascii_of_string key) →
  Processor.interpolateVariables
    (pre +:+ "{{" +:+ key +:+ "}}" +:+ post) variables
  = pre +:+ default ("{{" +:+ key +:+ "}}") (variables key)
    +:+ Processor.interpolateVariables post variables.
Proof.
  intros Hpre Hne Hkey.
  by rewrite interpolateVariables_plain, interpolateVariables_head.
Qed.

Lemma interpolate_placeholder_witness :
  Processor.interpolateVariables
    ("Dear " +:+ "{{" +:+ "contactName" +:+ "}}" +:+ ", see {{offer}}")
    (contactVariables (λ _, None) "{{offer}}")
  = ("Dear " +:+ "{{offer}}" +:+ ", see {{offer}}")%string.
Proof.
  apply (interpolate_placeholder "Dear " "contactName" ", see {{offer}}"
           (contactVariables (λ _, None) "{{offer}}")).
  - vm_compute. intros H.
    repeat (apply elem_of_cons in H as [H|H]; [discriminate H|]).
    by apply elem_of_nil in H.
  - discriminate.
  - simpl. repeat (constructor; [reflexivity|]). constructor.
Defined.

(** X3: when no key is defined, [interpolateVariables] returns every
    template as it is: each placeholder is replaced by itself. *)
Theorem interpolate_undefined_keys template variables :
  (∀ key, variables key = None) →
  Processor.interpolateVariables template variables = template.
Proof.
  intros Hnone. unfold Processor.interpolateVariables.
  rewrite replaceAll_undefined by done. simpl.
  apply String.string_of_list_ascii_of_string.
Qed.

Lemma interpolate_undefined_keys_witness :
  Processor.interpolateVariables "{{a}} and {{{b}}" (λ _, None)
  = "{{a}} and {{{b}}"%string.
Proof. by apply interpolate_undefined_keys. Defined.

(** X4: a text campaign whose content greets the contact.  For a content
    [pre{{contactName}}post] with no opening brace in [pre] and [post],
    [sendMessage] asks the channel to send [pre], the contact's name, or
    the fallback name when the contact has none, and [post] to the
    contact's phone; the name goes out as it is stored, placeholders in it
    included.  The send succeeds exactly when the channel resolves. *)
Theorem text_message_carries_contact_name inherited service requests
    channel tenantId broadcast c pre post :
  messageType (b_message broadcast) = TEXT →
  content (b_message broadcast)
  = Some (pre +:+ "{{" +:+ "contactName" +:+ "}}" +:+ post) →
  "{"%char ∉ String.list_ascii_of_string pre →
  "{"%char ∉ String.list_ascii_of_string post →
  sendMessage
    (interpolateVariables (withInterpolation inherited service requests))
    channel tenantId broadcast (Some c)
  = match channel
            (SendTextMessage tenantId (c_phone c)
               (pre +:+ orElse (truthyString (c_name c)) fallbackContactName
                +:+ post)) with
    | Resolved keyId => {| success := true; messageId := keyId; error := None |}
    | Rejected message => sendFailure message
    end.
Proof.
  intros Hty Hcontent Hpre Hpost. unfold sendMessage.
  rewrite Hty, Hcontent. simpl.
  rewrite interpolateVariables_plain by done.
  rewrite interpolateVariables_head;
    [|discriminate|exact contactName_word].
  unfold contactVariables at 1. rewrite decide_True by done. simpl.
  assert (Hrest : ∀ variables,
            Processor.interpolateVariables post variables = post).
  { intros variables.
    pose proof (interpolateVariables_plain post "" variables Hpost) as H.
    assert (Happ : post +:+ "" = post).
    { clear. induction post as [|a t IH]; [done|].
      change (String a t +:+ "") with (String a (t +:+ "")).
      by rewrite IH. }
    change (Processor.interpolateVariables "" variables) with ""%string in H.
    by rewrite !Happ in H. }
  by rewrite Hrest.
Qed.

Lemma text_message_carries_contact_name_witness :
  sendMessage
    (interpolateVariables (withInterpolation (λ _, None) channelUp (λ _, [])))
    (channelUp 0) "t1"
    (newBroadcast 0 "t1"
       {| dto_name := "promo";
          dto_message :=
            {| messageType := TEXT;
               content :=
                 Some ("hello " +:+ "{{" +:+ "contactName" +:+ "}}" +:+ "!");
               mediaUrl := None; mediaCaption := None; templateName := None;
               templateParams := None |};
          dto_target := customTarget ["c1"%string];
          dto_scheduledAt := None; dto_batchSize := None;
          dto_batchDelayMs := None |} CUSTOM 1)
    (Some (sampleContact (Some "201000000001"%string) []))
  = {| success := true; messageId := Some "wamid"%string; error := None |}.
Proof.
  apply (text_message_carries_contact_name (λ _, None) channelUp (λ _, [])
           (channelUp 0) "t1" _ (sampleContact (Some "201000000001"%string) [])
           "hello " "!").
  - reflexivity.
  - reflexivity.
  - vm_compute. intros H.
    repeat (apply elem_of_cons in H as [H|H]; [discriminate H|]).
    by apply elem_of_nil in H.
  - vm_compute. intros H.
    repeat (apply elem_of_cons in H as [H|H]; [discriminate H|]).
    by apply elem_of_nil in H.
Defined.

(** ** The service operations *)

Lemma findFirstBroadcast_None s id tenantId :
  (∀ b, broadcasts s !! id = Some b → b_tenantId b ≠ tenantId) →
  findFirstBroadcast s id tenantId = None.
Proof.
  intros H. unfold findFirstBroadcast.
  destruct (broadcasts s !! id) as [b|] eqn:Hb; [|done].
  rewrite decide_False; [done|]. by apply H.
Qed.

Lemma updateBroadcast_sameElsewhere id f s :
  sameElsewhere id s (updateBroadcast id f s).
Proof.
  split_and!; [done..|]. intros j Hj. simpl. by rewrite lookup_alter_ne.
Qed.

Lemma sameElsewhere_refl id s : sameElsewhere id s s.
Proof. by split_and!. Qed.

Lemma sameElsewhere_trans id s1 s2 s3 :
  sameElsewhere id s1 s2 → sameElsewhere id s2 s3 → sameElsewhere id s1 s3.
Proof.
  intros (?&?&?&H12) (?&?&?&H23). split_and!; [congruence..|].
  intros j Hj. by rewrite H23, H12.
Qed.

(** X5: a campaign is visible to its tenant only.  When no campaign with
    the key belongs to the tenant, every operation on it ([send], [pause],
    [resume], [cancel], [update], [delete]) answers with the
    [NotFoundException] and leaves the store as it was. *)
Theorem foreign_campaign_not_found tenantId id now dto s :
  (∀ b, broadcasts s !! id = Some b → b_tenantId b ≠ tenantId) →
  (∀ q, serveRequest tenantId id now q s = (Throw NotFoundException, s))
  ∧ update tenantId id dto now s = (Throw NotFoundException, s)
  ∧ Service.delete tenantId id s = (DeleteNotFound, s).
Proof.
  intros Hnone%findFirstBroadcast_None. split_and!.
  - intros []; simpl; unfold send, pause, resume, cancel;
      by rewrite Hnone.
  - unfold update. by rewrite Hnone.
  - unfold Service.delete. by rewrite Hnone.
Qed.

(** X6: a permitted control request changes the status and the time
    stamps of its campaign and nothing else: the totals and counters, the
    message and the start time of the campaign, every recipient row, every
    other campaign and the contacts are as before. *)
Theorem accepted_request_touches_only_lifecycle tenantId id now q s
    broadcast :
  findFirstBroadcast s id tenantId = Some broadcast →
  permitted q (b_status broadcast) = true →
  ∃ s' b',
    serveRequest tenantId id now q s = (Ok (), s')
    ∧ broadcasts s' !! id = Some b'
    ∧ b_status b' = match q with
                    | ReqSend => BroadcastStatus.QUEUED
                    | ReqPause => BroadcastStatus.PAUSED
                    | ReqResume => BroadcastStatus.SENDING
                    | ReqCancel => BroadcastStatus.CANCELLED
                    end
    ∧ ledgerOf b' = ledgerOf broadcast
    ∧ b_message b' = b_message broadcast
    ∧ b_tenantId b' = b_tenantId broadcast
    ∧ startedAt b' = startedAt broadcast
    ∧ recipients s' = recipients s
    ∧ sameElsewhere id s s'.
Proof.
  intros Hfind Hperm.
  destruct (findFirstBroadcast_Some _ _ _ _ Hfind) as [Hb _].
  destruct q; simpl; unfold send, pause, resume, cancel; rewrite Hfind;
    destruct (b_status broadcast) eqn:Hst; simpl in Hperm; try discriminate;
    case_decide as Hguard; try (status_guard Hguard);
    eexists _, _; (split; [reflexivity|]); simpl;
    rewrite lookup_alter_eq; simpl; rewrite Hb; simpl;
    (split_and!; try reflexivity);
    (split_and!; [done..|]); intros j Hj; simpl;
    by rewrite lookup_alter_ne.
Qed.

(** X7: a cancelled campaign stays cancelled.  After a [cancel] that was
    carried out, every control request on the campaign is answered with
    its [BadRequestException], [update] with the one for a campaign that
    cannot be edited, and a job for the campaign that a worker still picks
    up returns at once, without a write and without a send. *)
Theorem cancel_is_final tenantId id now s s' :
  cancel tenantId id now s = (Ok (), s') →
  (∀ q now', serveRequest tenantId id now' q s'
             = (Throw (BadRequestException (rejection q)), s'))
  ∧ (∀ dto now', update tenantId id dto now' s'
                 = (Throw (BadRequestException NotEditable), s'))
  ∧ (∀ env job now' t,
       j_broadcastId job = id →
       handleSendBroadcast env job now' {| db := s'; trace := t |}
       = Some (Skipped, {| db := s'; trace := t |})).
Proof.
  unfold cancel.
  destruct (findFirstBroadcast s id tenantId) as [broadcast|] eqn:Hfind;
    [|done].
  case_decide; [done|]. intros [= <-].
  destruct (findFirstBroadcast_Some _ _ _ _ Hfind) as [Hb Ht].
  set (s' := updateBroadcast id _ _).
  assert (Hb' : broadcasts s' !! id
                = Some (withLifecycle BroadcastStatus.CANCELLED
                          (startedAt broadcast) (pausedAt broadcast)
                          (completedAt broadcast) (Some now)
                          (b_error broadcast) broadcast)).
  { subst s'. simpl. by rewrite lookup_alter_eq, Hb. }
  assert (Hfind' : findFirstBroadcast s' id tenantId
                   = Some (withLifecycle BroadcastStatus.CANCELLED
                             (startedAt broadcast) (pausedAt broadcast)
                             (completedAt broadcast) (Some now)
                             (b_error broadcast) broadcast)).
  { unfold findFirstBroadcast. rewrite Hb'. simpl. by rewrite decide_True. }
  split_and!.
  - intros [] now'; simpl; unfold send, pause, resume, cancel;
      rewrite Hfind'; simpl;
      first [reflexivity
            |case_decide as Hguard; [reflexivity|status_guard Hguard]].
  - intros dto now'. unfold update. rewrite Hfind'. simpl.
    first [reflexivity
          |case_decide as Hguard; [reflexivity|status_guard Hguard]].
  - intros env job now' t Hj. unfold handleSendBroadcast.
    change (db {| db := s'; trace := t |}) with s'.
    rewrite Hj, Hb'. by rewrite decide_True.
Qed.

(** X8: [pause] followed by [resume] gives the campaign back as it was
    while it was being sent, with [pausedAt] cleared; the recipient rows
    and everything else in the store, the queue apart, are as before. *)
Theorem pause_then_resume_restores_campaign tenantId id now s broadcast :
  findFirstBroadcast s id tenantId = Some broadcast →
  b_status broadcast = BroadcastStatus.SENDING →
  ∃ s1 s2,
    pause tenantId id now s = (Ok (), s1)
    ∧ resume tenantId id s1 = (Ok (), s2)
    ∧ broadcasts s2 !! id
      = Some (withLifecycle BroadcastStatus.SENDING (startedAt broadcast)
                None (completedAt broadcast) (cancelledAt broadcast)
                (b_error broadcast) broadcast)
    ∧ (pausedAt broadcast = None → broadcasts s2 = broadcasts s)
    ∧ recipients s2 = recipients s
    ∧ sameElsewhere id s s2.
Proof.
  intros Hfind Hst.
  destruct (findFirstBroadcast_Some _ _ _ _ Hfind) as [Hb Ht].
  unfold pause. rewrite Hfind, decide_False by (by rewrite Hst; intros []).
  eexists _, _. split; [reflexivity|].
  set (s1 := updateBroadcast id _ s).
  assert (Hb1 : broadcasts s1 !! id
                = Some (withLifecycle BroadcastStatus.PAUSED
                          (startedAt broadcast) (Some now)
                          (completedAt broadcast) (cancelledAt broadcast)
                          (b_error broadcast) broadcast)).
  { subst s1. simpl. by rewrite lookup_alter_eq, Hb. }
  unfold resume, findFirstBroadcast. rewrite Hb1. simpl.
  rewrite decide_True by done. simpl.
  split; [reflexivity|]. simpl.
  assert (Hb2 : alter
                  (λ b, withLifecycle BroadcastStatus.SENDING (startedAt b)
                          None (completedAt b) (cancelledAt b) (b_error b) b)
                  id (broadcasts s1) !! id
                = Some (withLifecycle BroadcastStatus.SENDING
                          (startedAt broadcast) None (completedAt broadcast)
                          (cancelledAt broadcast) (b_error broadcast)
                          broadcast)).
  { by rewrite lookup_alter_eq, Hb1. }
  split_and!; [done| |done|].
  - intros Hp. apply map_eq. intros j.
    destruct (decide (j = id)) as [->|Hj].
    + etrans; [exact Hb2|]. rewrite Hb. f_equal.
      destruct broadcast. simpl in *. by rewrite Hst, Hp.
    + subst s1. simpl. by rewrite !lookup_alter_ne.
  - split_and!; [done..|]. intros j Hj. subst s1. simpl.
    by rewrite !lookup_alter_ne.
Qed.

(** X9: a campaign is queued for sending once.  After a [send] that was
    carried out, a second [send] is answered with the
    [BadRequestException] for a campaign that is running or done, and
    [update] with the one for a campaign that cannot be edited; both leave
    the store as it is. *)
Theorem send_only_once tenantId id s s' :
  send tenantId id s = (Ok (), s') →
  send tenantId id s'
  = (Throw (BadRequestException AlreadyRunningOrDone), s')
  ∧ ∀ dto now, update tenantId id dto now s'
               = (Throw (BadRequestException NotEditable), s').
Proof.
  unfold send at 1.
  destruct (findFirstBroadcast s id tenantId) as [broadcast|] eqn:Hfind;
    [|done].
  case_decide; [done|]. intros [= <-].
  destruct (findFirstBroadcast_Some _ _ _ _ Hfind) as [Hb Ht].
  set (s' := updateBroadcast id _ _).
  assert (Hfind' : findFirstBroadcast s' id tenantId
                   = Some (withStatus BroadcastStatus.QUEUED broadcast)).
  { unfold findFirstBroadcast. subst s'. simpl.
    rewrite lookup_alter_eq, Hb. simpl. by rewrite decide_True. }
  split.
  - unfold send. rewrite Hfind'. simpl.
    first [reflexivity
          |case_decide as Hguard; [reflexivity|status_guard Hguard]].
  - intros dto now. unfold update. rewrite Hfind'. simpl.
    first [reflexivity
          |case_decide as Hguard; [reflexivity|status_guard Hguard]].
Qed.

Lemma foreign_campaign_not_found_witness :
  (∀ q, serveRequest "t2" 0 2000 q (storeWithCampaign fiveContacts 2)
        = (Throw NotFoundException, storeWithCampaign fiveContacts 2))
  ∧ update "t2" 0 (renameDto "mine") 2000 (storeWithCampaign fiveContacts 2)
    = (Throw NotFoundException, storeWithCampaign fiveContacts 2)
  ∧ Service.delete "t2" 0 (storeWithCampaign fiveContacts 2)
    = (DeleteNotFound, storeWithCampaign fiveContacts 2).
Proof.
  apply (foreign_campaign_not_found "t2" 0 2000 (renameDto "mine")
           (storeWithCampaign fiveContacts 2)).
  intros b Hb. vm_compute in Hb. injection Hb as <-. discriminate.
Defined.

Lemma accepted_request_touches_only_lifecycle_witness :
  ∃ s' b',
    serveRequest "t1" 0 2000 ReqCancel (queuedCampaign fiveContacts 2)
    = (Ok (), s')
    ∧ broadcasts s' !! 0 = Some b'
    ∧ b_status b' = BroadcastStatus.CANCELLED
    ∧ ledgerOf b' = ledgerOf (queuedBroadcast fiveContacts 2)
    ∧ b_message b' = b_message (queuedBroadcast fiveContacts 2)
    ∧ b_tenantId b' = b_tenantId (queuedBroadcast fiveContacts 2)
    ∧ startedAt b' = startedAt (queuedBroadcast fiveContacts 2)
    ∧ recipients s' = recipients (queuedCampaign fiveContacts 2)
    ∧ sameElsewhere 0 (queuedCampaign fiveContacts 2) s'.
Proof.
  apply (accepted_request_touches_only_lifecycle "t1" 0 2000 ReqCancel
           (queuedCampaign fiveContacts 2) (queuedBroadcast fiveContacts 2)).
  - vm_compute. reflexivity.
  - reflexivity.
Defined.

Lemma cancel_is_final_witness :
  (∀ q now', serveRequest "t1" 0 now' q
               (cancel "t1" 0 2000 (queuedCampaign fiveContacts 2)).2
             = (Throw (BadRequestException (rejection q)),
                (cancel "t1" 0 2000 (queuedCampaign fiveContacts 2)).2))
  ∧ (∀ dto now', update "t1" 0 dto now'
                   (cancel "t1" 0 2000 (queuedCampaign fiveContacts 2)).2
                 = (Throw (BadRequestException NotEditable),
                    (cancel "t1" 0 2000 (queuedCampaign fiveContacts 2)).2))
  ∧ (∀ env job now' t,
       j_broadcastId job = 0 →
       handleSendBroadcast env job now'
         {| db := (cancel "t1" 0 2000 (queuedCampaign fiveContacts 2)).2;
            trace := t |}
       = Some (Skipped,
               {| db := (cancel "t1" 0 2000
                           (queuedCampaign fiveContacts 2)).2;
                  trace := t |})).
Proof.
  apply (cancel_is_final "t1" 0 2000 (queuedCampaign fiveContacts 2)).
  vm_compute. reflexivity.
Defined.

Lemma pause_then_resume_restores_campaign_witness :
  ∃ s1 s2,
    pause "t1" 0 2000 (sendingCampaign fiveContacts 2) = (Ok (), s1)
    ∧ resume "t1" 0 s1 = (Ok (), s2)
    ∧ broadcasts s2 !! 0
      = Some (withLifecycle BroadcastStatus.SENDING (Some 1500%Z) None None
                None None (sending false 1500 (queuedBroadcast fiveContacts 2)))
    ∧ (pausedAt (sending false 1500 (queuedBroadcast fiveContacts 2)) = None →
       broadcasts s2 = broadcasts (sendingCampaign fiveContacts 2))
    ∧ recipients s2 = recipients (sendingCampaign fiveContacts 2)
    ∧ sameElsewhere 0 (sendingCampaign fiveContacts 2) s2.
Proof.
  apply (pause_then_resume_restores_campaign "t1" 0 2000
           (sendingCampaign fiveContacts 2)
           (sending false 1500 (queuedBroadcast fiveContacts 2))).
  - vm_compute. reflexivity.
  - reflexivity.
Defined.

Lemma send_only_once_witness :
  send "t1" 0 (queuedCampaign fiveContacts 2)
  = (Throw (BadRequestException AlreadyRunningOrDone),
     queuedCampaign fiveContacts 2)
  ∧ ∀ dto now, update "t1" 0 dto now (queuedCampaign fiveContacts 2)
               = (Throw (BadRequestException NotEditable),
                  queuedCampaign fiveContacts 2).
Proof.
  apply (send_only_once "t1" 0 (storeWithCampaign fiveContacts 2)
           (queuedCampaign fiveContacts 2)).
  vm_compute. reflexivity.
Defined.

(** ** Editing and deleting *)

Lemma filter_filter_implied {A} (P Q : A → Prop)
    `{∀ x, Decision (P x)} `{∀ x, Decision (Q x)} (l : list A) :
  (∀ x, P x → Q x) → filter P (filter Q l) = filter P l.
Proof.
  intros HPQ. induction l as [|x l IH]; [done|].
  rewrite (filter_cons Q), (filter_cons P).
  destruct (decide (Q x)) as [Hq|Hq].
  - rewrite filter_cons, IH. done.
  - rewrite IH. rewrite decide_False; [done|]. intros Hp. by apply Hq, HPQ.
Qed.

(** The store that an [update] leaves. *)
Lemma update_store tenantId id dto now s b s' broadcast :
  findFirstBroadcast s id tenantId = Some broadcast →
  update tenantId id dto now s = (Ok b, s') →
  b = updatedBroadcast dto
        (calculateRecipients s tenantId <$> retargeting dto broadcast)
        broadcast
  ∧ broadcasts s' !! id = Some b
  ∧ (∀ j, j ≠ id → broadcasts s' !! j = broadcasts s !! j)
  ∧ recipients s'
    = match retargeting dto broadcast with
      | Some t =>
          filter (λ r, r_broadcastId r ≠ id) (recipients s)
          ++ newRecipients id (nextRecipientId s) now
               (calculateRecipients s tenantId t)
      | None => recipients s
      end
  ∧ tenants s' = tenants s ∧ contacts s' = contacts s
  ∧ groupMembers s' = groupMembers s.
Proof.
  intros Hfind. unfold update. rewrite Hfind.
  apply findFirstBroadcast_Some in Hfind as [Hb _].
  case_decide; [done|]. intros [= <- <-].
  destruct (retargeting dto broadcast) as [t|]; simpl;
    (destruct (u_scheduledAt dto) as [[at_|]|]; [case_decide|..]); simpl;
    rewrite lookup_alter_eq, Hb; simpl;
    (split_and!; try done); intros j Hj; by rewrite lookup_alter_ne.
Qed.

(** X10: [update] keeps the books of every campaign.  The edited campaign
    has sent nothing yet; after the update its total is again the number
    of its pending rows, whether the update named new recipients or not,
    and no other campaign loses or gains a row. *)
Theorem update_keeps_books tenantId id dto now s b s' broadcast :
  findFirstBroadcast s id tenantId = Some broadcast →
  sentCount broadcast + failedCount broadcast = 0 →
  update tenantId id dto now s = (Ok b, s') →
  ∀ j, conserved j s → conserved j s'.
Proof.
  intros Hfind Hzero Hupd j (bj&Hbj&Hsum).
  destruct (update_store _ _ _ _ _ _ _ _ Hfind Hupd)
    as (Hb&Hbs&Hother&Hrows&_).
  apply findFirstBroadcast_Some in Hfind as [Hbr _].
  unfold conserved, rowsIn in *. rewrite Hrows.
  destruct (decide (j = id)) as [->|Hj].
  - rewrite Hbr in Hbj. injection Hbj as <-.
    exists b. split; [done|]. rewrite Hb.
    destruct (retargeting dto broadcast) as [t|]; simpl; [|lia].
    rewrite filter_app, length_app, filter_none, filter_all,
      newRecipients_length; [simpl; lia|..].
    + apply Forall_forall. intros r Hr.
      by apply newRecipients_elem in Hr as (_&_&?&?&_).
    + apply Forall_forall. intros r Hr [Hrb _].
      by apply list_elem_of_filter in Hr as [? _].
  - exists bj. rewrite Hother by done. split; [done|].
    destruct (retargeting dto broadcast) as [t|]; simpl; [|lia].
    rewrite filter_app, length_app, filter_filter_implied,
      (filter_none _ (newRecipients _ _ _ _)); [simpl; lia|..].
    + apply Forall_forall. intros r Hr [Hrb _].
      apply newRecipients_elem in Hr as (_&_&?&_). congruence.
    + intros r [Hrb _]. congruence.
Qed.

(** X11: unlike [create], [update] accepts a targeting rule that resolves
    to nobody: the update is carried out, the campaign is left with a
    total of zero and without a recipient row. *)
Theorem update_accepts_empty_retarget tenantId id dto now s broadcast t :
  findFirstBroadcast s id tenantId = Some broadcast →
  b_status broadcast ∈ [BroadcastStatus.DRAFT; BroadcastStatus.SCHEDULED] →
  retargeting dto broadcast = Some t →
  calculateRecipients s tenantId t = [] →
  ∃ b s',
    update tenantId id dto now s = (Ok b, s')
    ∧ broadcasts s' !! id = Some b
    ∧ totalRecipients b = 0
    ∧ filter (λ r, r_broadcastId r = id) (recipients s') = [].
Proof.
  intros Hfind Hst Ht Hnone.
  destruct (update tenantId id dto now s) as [r s'] eqn:Hupd.
  assert (Hok : ∃ b, r = Ok b).
  { revert Hupd. unfold update. rewrite Hfind.
    rewrite decide_False by (by intros Hn; apply Hn).
    intros [= <- _]. eauto. }
  destruct Hok as [b ->]. exists b, s'. split; [done|].
  destruct (update_store _ _ _ _ _ _ _ _ Hfind Hupd)
    as (Hb&Hbs&_&Hrows&_).
  rewrite Ht in Hb, Hrows. simpl in Hb. rewrite Hnone in Hb, Hrows.
  split_and!; [done|by rewrite Hb|].
  rewrite Hrows. simpl. rewrite app_nil_r.
  apply filter_none, Forall_forall. intros r Hr.
  by apply list_elem_of_filter in Hr as [? _].
Qed.

Lemma deleteBroadcast_rows id s r :
  r ∈ recipients (deleteBroadcast id s)
  ↔ r ∈ recipients s ∧ r_broadcastId r ≠ id.
Proof. simpl. rewrite list_elem_of_filter. tauto. Qed.

(** X12: [delete] refuses a campaign that is being sent and leaves the
    store as it is; in every other state it removes the campaign and
    exactly the recipient rows of that campaign, in one step, and leaves
    every other campaign, the rows of other campaigns in their order, and
    the contacts as they were. *)
Theorem delete_removes_campaign_and_rows tenantId id s broadcast :
  findFirstBroadcast s id tenantId = Some broadcast →
  (b_status broadcast = BroadcastStatus.SENDING →
   Service.delete tenantId id s = (DeleteWhileSending, s))
  ∧ (b_status broadcast ≠ BroadcastStatus.SENDING →
     ∃ s', Service.delete tenantId id s = (Deleted, s')
           ∧ broadcasts s' !! id = None
           ∧ recipients s'
             = filter (λ r, r_broadcastId r ≠ id) (recipients s)
           ∧ (∀ j, rowsIn RecipientStatus.PENDING j s'
                   = if decide (j = id) then 0
                     else rowsIn RecipientStatus.PENDING j s)
           ∧ sameElsewhere id s s').
Proof.
  intros Hfind. unfold Service.delete. rewrite Hfind. split.
  - intros Hst. by rewrite decide_True.
  - intros Hst. rewrite decide_False by done.
    eexists. split; [reflexivity|]. simpl.
    split_and!; [by rewrite lookup_delete_eq|done| |].
    + intros j. unfold rowsIn. simpl. case_decide as Hj.
      * subst j. apply length_zero_iff_nil, filter_none, Forall_forall.
        intros r Hr [Hrb _]. by apply list_elem_of_filter in Hr as [? _].
      * f_equal. apply filter_filter_implied. intros r [Hrb _]. congruence.
    + split_and!; [done..|]. intros j Hj. simpl.
      by rewrite lookup_delete_ne.
Qed.

Lemma update_keeps_books_witness :
  conserved 0 (storeWithCampaign fiveContacts 2)
  ∧ conserved 0
      (update "t1" 0 (retargetDto ["c1"; "c2"]%string) 2000
         (storeWithCampaign fiveContacts 2)).2.
Proof.
  assert (H : conserved 0 (storeWithCampaign fiveContacts 2)).
  { exists (newBroadcast 0 "t1" (sampleDto fiveContacts 2) CUSTOM 5).
    split; vm_compute; reflexivity. }
  split; [exact H|].
  apply (update_keeps_books "t1" 0 (retargetDto ["c1"; "c2"]%string) 2000
           (storeWithCampaign fiveContacts 2)
           (updatedBroadcast (retargetDto ["c1"; "c2"]%string)
              (Some ["c1"; "c2"]%string)
              (newBroadcast 0 "t1" (sampleDto fiveContacts 2) CUSTOM 5))
           _
           (newBroadcast 0 "t1" (sampleDto fiveContacts 2) CUSTOM 5)).
  - vm_compute. reflexivity.
  - reflexivity.
  - vm_compute. reflexivity.
  - exact H.
Defined.

Lemma update_accepts_empty_retarget_witness :
  ∃ b s',
    update "t1" 0 (retargetDto []) 2000 (storeWithCampaign fiveContacts 2)
    = (Ok b, s')
    ∧ broadcasts s' !! 0 = Some b
    ∧ totalRecipients b = 0
    ∧ filter (λ r, r_broadcastId r = 0) (recipients s') = [].
Proof.
  apply (update_accepts_empty_retarget "t1" 0 (retargetDto []) 2000
           (storeWithCampaign fiveContacts 2)
           (newBroadcast 0 "t1" (sampleDto fiveContacts 2) CUSTOM 5)
           {| targetType := Some CUSTOM; targetGroupIds := Some [];
              targetTags := Some []; targetContactIds := Some [];
              filters := Some emptyFilters |}).
  - vm_compute. reflexivity.
  - simpl. apply list_elem_of_here.
  - vm_compute. reflexivity.
  - vm_compute. reflexivity.
Defined.

Lemma delete_removes_campaign_and_rows_witness :
  (BroadcastStatus.DRAFT = BroadcastStatus.SENDING →
   Service.delete "t1" 0 (storeWithCampaign fiveContacts 2)
   = (DeleteWhileSending, storeWithCampaign fiveContacts 2))
  ∧ (BroadcastStatus.DRAFT ≠ BroadcastStatus.SENDING →
     ∃ s', Service.delete "t1" 0 (storeWithCampaign fiveContacts 2)
           = (Deleted, s')
           ∧ broadcasts s' !! 0 = None
           ∧ recipients s'
             = filter (λ r, r_broadcastId r ≠ 0)
                 (recipients (storeWithCampaign fiveContacts 2))
           ∧ (∀ j, rowsIn RecipientStatus.PENDING j s'
                   = if decide (j = 0) then 0
                     else rowsIn RecipientStatus.PENDING j
                            (storeWithCampaign fiveContacts 2))
           ∧ sameElsewhere 0 (storeWithCampaign fiveContacts 2) s').
Proof.
  apply (delete_removes_campaign_and_rows "t1" 0
           (storeWithCampaign fiveContacts 2)
           (newBroadcast 0 "t1" (sampleDto fiveContacts 2) CUSTOM 5)).
  vm_compute. reflexivity.
Defined.

(** ** A created campaign *)

Lemma newRecipients_contacts id first now ids :
  r_contactId <$> newRecipients id first now ids = ids.
Proof.
  apply list_eq. intros k.
  rewrite list_lookup_fmap, newRecipients_lookup.
  by destruct (ids !! k).
Qed.

Lemma newRecipients_sorted id first now ids :
  StronglySorted (λ x y, (r_createdAt x ≤ r_createdAt y)%Z)
    (newRecipients id first now ids).
Proof.
  assert (H : ∀ l : list BroadcastRecipient,
            (∀ r, r ∈ l → r_createdAt r = now) →
            StronglySorted (λ x y, (r_createdAt x ≤ r_createdAt y)%Z) l).
  { induction l as [|x l IH]; intros Hl; constructor.
    - apply IH. intros r Hr. apply Hl. by apply list_elem_of_further.
    - apply Forall_forall. intros y Hy.
      rewrite (Hl x), (Hl y); [done|by apply list_elem_of_further
                                |apply list_elem_of_here]. }
  apply H. intros r Hr. by apply newRecipients_elem in Hr as (_&_&_&_&?).
Qed.

(** X13: a created campaign as the processor will read it.  On a store
    whose rows point at existing campaigns, the pending rows that a job
    reads for the new campaign are one per resolved recipient, whatever
    the order in which the database returns rows of one creation time;
    they come in the order in which [calculateRecipients] returned them
    when the database does not reorder such rows.  For a batch size and a
    delay that are natural numbers, those the processor will use are the
    ones of the DTO, or 50 and 1000 where the DTO gives none or zero. *)
Theorem created_campaign_as_the_processor_reads_it tenantId dto now
    thisMonth s b s' rank :
  wellKeyed s →
  create tenantId dto now thisMonth s = (Ok b, s') →
  r_contactId <$> findManyPending rank s' (b_id b)
  ≡ₚ calculateRecipients s tenantId (dto_target dto)
  ∧ ((∀ key key', rank key = rank key') →
     r_contactId <$> findManyPending rank s' (b_id b)
     = calculateRecipients s tenantId (dto_target dto))
  ∧ batchSizeOf b = orDefault (dto_batchSize dto) 50
  ∧ batchDelayMsOf b = orDefault (dto_batchDelayMs dto) 1000.
Proof.
  intros [_ Hkeys] Hc. apply create_rows in Hc as (Hb&_&Hrs&_).
  assert (Hid : b_id b = nextBroadcastId s) by (by rewrite Hb).
  assert (Hpend : filter (isPendingOf (b_id b)) (recipients s')
                  = newRecipients (nextBroadcastId s) (nextRecipientId s)
                      now (calculateRecipients s tenantId (dto_target dto))).
  { rewrite Hrs, filter_app, Hid.
    rewrite filter_none, filter_all; simpl; [done|..].
    - apply Forall_forall. intros r Hr.
      by apply newRecipients_elem in Hr as (_&_&?&?&_).
    - apply Forall_forall. intros r Hr [Hrb _]. apply Hkeys in Hr. lia. }
  split_and!.
  - rewrite findManyPending_Permutation, Hpend.
    by rewrite newRecipients_contacts.
  - intros Hrank. unfold findManyPending. rewrite Hpend.
    rewrite orderByCreatedAtAsc_tableOrder;
      [apply newRecipients_contacts|done|apply newRecipients_sorted].
  - rewrite Hb. unfold batchSizeOf. simpl.
    by destruct (dto_batchSize dto) as [[|n]|].
  - rewrite Hb. unfold batchDelayMsOf. simpl.
    by destruct (dto_batchDelayMs dto) as [[|m]|].
Qed.

Lemma created_campaign_as_the_processor_reads_it_witness :
  r_contactId
  <$> findManyPending (tieOrder (newestFirst 4))
        (storeWithCampaign fiveContacts 0) 0
  ≡ₚ calculateRecipients sampleStore "t1"
       (dto_target (sampleDto fiveContacts 0))
  ∧ batchSizeOf (newBroadcast 0 "t1" (sampleDto fiveContacts 0) CUSTOM 5)
    = orDefault (dto_batchSize (sampleDto fiveContacts 0)) 50
  ∧ batchDelayMsOf (newBroadcast 0 "t1" (sampleDto fiveContacts 0) CUSTOM 5)
    = orDefault (dto_batchDelayMs (sampleDto fiveContacts 0)) 1000.
Proof.
  destruct (created_campaign_as_the_processor_reads_it "t1"
              (sampleDto fiveContacts 0) 1000 0 sampleStore
              (newBroadcast 0 "t1" (sampleDto fiveContacts 0) CUSTOM 5)
              (storeWithCampaign fiveContacts 0)
              (tieOrder (newestFirst 4))) as (H1&_&H2&H3).
  - split; [constructor|]. intros r Hr. by apply elem_of_nil in Hr.
  - vm_compute. reflexivity.
  - by split_and!.
Defined.

(** ** Recipient resolution, rule by rule *)

Lemma findManyContactIds_iff s w id :
  id ∈ findManyContactIds s w
  ↔ ∃ c, contacts s !! id = Some c ∧ matchesWhere w id c = true.
Proof.
  split; [apply findManyContactIds_elem|].
  intros (c&Hc&Hm). unfold findManyContactIds.
  apply list_elem_of_fmap. exists (id, c). split; [done|].
  apply list_elem_of_filter. split; [done|]. by apply elem_of_map_to_list.
Qed.

Lemma newSet_elem xs x : x ∈ newSet xs ↔ x ∈ xs.
Proof.
  unfold newSet.
  assert (H : ∀ acc, x ∈ foldl setAdd acc xs ↔ x ∈ acc ∨ x ∈ xs).
  { induction xs as [|y xs IH]; intros acc; simpl.
    - rewrite elem_of_nil. tauto.
    - rewrite IH, elem_of_cons. unfold setAdd. case_decide as Hy.
      + split; [tauto|]. intros [?|[->|?]]; tauto.
      + rewrite elem_of_app, list_elem_of_singleton. tauto. }
  rewrite H, elem_of_nil. tauto.
Qed.

Lemma matchesWhere_whereAll tenantId id c :
  matchesWhere (whereAll tenantId) id c = true
  ↔ c_tenantId c = tenantId ∧ c_phone c ≠ None.
Proof.
  unfold matchesWhere. simpl. rewrite !andb_true_r, andb_true_iff.
  by rewrite !bool_decide_eq_true.
Qed.

Lemma matchesWhere_whereTagged tenantId tags id c :
  matchesWhere (whereTagged tenantId tags) id c = true
  ↔ c_tenantId c = tenantId ∧ ∃ t, t ∈ tags ∧ t ∈ c_tags c.
Proof.
  unfold matchesWhere. simpl. rewrite !andb_true_r, andb_true_iff.
  rewrite !bool_decide_eq_true, Exists_exists. tauto.
Qed.

Lemma matchesWhere_whereFiltered tenantId ids f id c :
  matchesWhere (whereFiltered tenantId ids f) id c = true →
  id ∈ ids ∧ c_tenantId c = tenantId ∧ c_phone c ≠ None.
Proof.
  unfold matchesWhere. simpl. rewrite !andb_true_iff.
  intros [[[[[[[Hid Ht] Hp] _] _] _] _] _].
  by rewrite !bool_decide_eq_true in Hid, Ht, Hp.
Qed.

(** X14: the ALL rule.  Without additional filters it resolves to exactly
    the contacts of the tenant that have a phone number, each one once;
    no contact of another tenant is among them. *)
Theorem all_rule_resolves_reachable_contacts s tenantId dto :
  targetType dto = Some ALL →
  filters dto = None →
  NoDup (calculateRecipients s tenantId dto)
  ∧ ∀ id, id ∈ calculateRecipients s tenantId dto ↔ reachable s tenantId id.
Proof.
  intros Hty Hf. unfold calculateRecipients. rewrite Hty, Hf.
  split; [apply findManyContactIds_NoDup|].
  intros id. rewrite findManyContactIds_iff. unfold reachable.
  by setoid_rewrite matchesWhere_whereAll.
Qed.

Lemma all_rule_resolves_reachable_contacts_witness :
  NoDup (calculateRecipients sampleStore "t1" (plainTarget ALL [] [] []))
  ∧ ∀ id, id ∈ calculateRecipients sampleStore "t1"
                 (plainTarget ALL [] [] [])
          ↔ reachable sampleStore "t1" id.
Proof.
  apply (all_rule_resolves_reachable_contacts sampleStore "t1"
           (plainTarget ALL [] [] [])); reflexivity.
Defined.

(** X15: the GROUP rule.  Without additional filters it resolves to
    exactly the contacts that a membership row puts into one of the named
    groups, each one once; the tenant and the phone number of the contact
    are not looked at. *)
Theorem group_rule_resolves_members s tenantId dto g gs :
  targetType dto = Some GROUP →
  targetGroupIds dto = Some (g :: gs) →
  filters dto = None →
  NoDup (calculateRecipients s tenantId dto)
  ∧ ∀ id, id ∈ calculateRecipients s tenantId dto
          ↔ memberOf s (g :: gs) id.
Proof.
  intros Hty Hg Hf. unfold calculateRecipients. rewrite Hty, Hg, Hf.
  split; [apply newSet_NoDup|].
  intros id. rewrite newSet_elem, list_elem_of_fmap. unfold memberOf.
  split.
  - intros (m&->&Hm). apply list_elem_of_filter in Hm as [? ?]. eauto.
  - intros (m&Hm&Hgm&<-). exists m. split; [done|].
    by apply list_elem_of_filter.
Qed.

Lemma group_rule_resolves_members_witness :
  NoDup (calculateRecipients groupedStore "t1"
           (plainTarget GROUP ["g1"%string] [] []))
  ∧ ∀ id, id ∈ calculateRecipients groupedStore "t1"
                 (plainTarget GROUP ["g1"%string] [] [])
          ↔ memberOf groupedStore ["g1"%string] id.
Proof.
  apply (group_rule_resolves_members groupedStore "t1"
           (plainTarget GROUP ["g1"%string] [] []) "g1" []); reflexivity.
Defined.

(** X16: the TAG rule.  Without additional filters it resolves to exactly
    the contacts of the tenant that carry one of the named tags, each one
    once, with or without a phone number. *)
Theorem tag_rule_resolves_tagged_contacts s tenantId dto t ts :
  targetType dto = Some TAG →
  targetTags dto = Some (t :: ts) →
  filters dto = None →
  NoDup (calculateRecipients s tenantId dto)
  ∧ ∀ id, id ∈ calculateRecipients s tenantId dto
          ↔ tagged s tenantId (t :: ts) id.
Proof.
  intros Hty Ht Hf. unfold calculateRecipients. rewrite Hty, Ht, Hf.
  split; [apply findManyContactIds_NoDup|].
  intros id. rewrite findManyContactIds_iff. unfold tagged.
  by setoid_rewrite matchesWhere_whereTagged.
Qed.

Lemma tag_rule_resolves_tagged_contacts_witness :
  NoDup (calculateRecipients sampleStore "t1" (tagTarget ["vip"%string]))
  ∧ ∀ id, id ∈ calculateRecipients sampleStore "t1"
                 (tagTarget ["vip"%string])
          ↔ tagged sampleStore "t1" ["vip"%string] id.
Proof.
  apply (tag_rule_resolves_tagged_contacts sampleStore "t1"
           (tagTarget ["vip"%string]) "vip" []); reflexivity.
Defined.

(** X17: additional filters only narrow.  Whatever the rule, every
    recipient that comes out of the additional-filters query is one of
    the contacts the rule resolved to, belongs to the tenant and has a
    phone number, and comes out once. *)
Theorem filters_only_narrow s tenantId dto f :
  filters dto = Some f →
  NoDup (calculateRecipients s tenantId dto)
  ∧ ∀ id, id ∈ calculateRecipients s tenantId dto →
          id ∈ calculateRecipients s tenantId (withoutFilters dto)
          ∧ reachable s tenantId id.
Proof.
  intros Hf. unfold calculateRecipients. simpl. rewrite Hf.
  set (contactIds := match targetType dto with
                     | Some ALL => _ | Some GROUP => _ | Some TAG => _
                     | Some CUSTOM => _ | None => _ end).
  case_decide as Hlen.
  - split; [apply findManyContactIds_NoDup|].
    intros id (c&Hc&Hm)%findManyContactIds_elem.
    apply matchesWhere_whereFiltered in Hm as (?&?&?).
    split; [done|]. by exists c.
  - destruct contactIds; [|simpl in Hlen; lia].
    split; [apply NoDup_nil_2|]. intros id Hid.
    by apply elem_of_nil in Hid.
Qed.

Lemma filters_only_narrow_witness :
  NoDup (calculateRecipients sampleStore "t1"
           (withFilters (customTarget ["c1"; "c1"; "c6"]%string)
              emptyFilters))
  ∧ ∀ id, id ∈ calculateRecipients sampleStore "t1"
                 (withFilters (customTarget ["c1"; "c1"; "c6"]%string)
                    emptyFilters) →
          id ∈ calculateRecipients sampleStore "t1"
                 (withoutFilters
                    (withFilters (customTarget ["c1"; "c1"; "c6"]%string)
                       emptyFilters))
          ∧ reachable sampleStore "t1" id.
Proof.
  apply (filters_only_narrow sampleStore "t1"
           (withFilters (customTarget ["c1"; "c1"; "c6"]%string)
              emptyFilters) emptyFilters).
  reflexivity.
Defined.

(** X18: of two bounds on the same column the later one stays.  The
    [where] object is built by spreads in source order, so when
    [maxSpent] is given [minSpent] has no effect on the result, and when
    [lastContactBefore] is given [lastContactAfter] has none. *)
Theorem later_bound_wins s tenantId dto f :
  (truthyNumber (maxSpent f) ≠ None →
   calculateRecipients s tenantId (withFilters dto f)
   = calculateRecipients s tenantId (withFilters dto (onlyMaxSpent f)))
  ∧ (lastContactBefore f ≠ None →
     calculateRecipients s tenantId (withFilters dto f)
     = calculateRecipients s tenantId (withFilters dto (onlyBefore f))).
Proof.
  split; intros Hset; unfold calculateRecipients; simpl;
    case_decide; try done; f_equal; unfold whereFiltered; simpl.
  - by destruct (truthyNumber (maxSpent f)).
  - by destruct (lastContactBefore f).
Qed.

Lemma later_bound_wins_witness :
  calculateRecipients sampleStore "t1"
    (withFilters (customTarget fiveContacts) (spendingBetween 50 100))
  = calculateRecipients sampleStore "t1"
      (withFilters (customTarget fiveContacts)
         (onlyMaxSpent (spendingBetween 50 100))).
Proof.
  apply (proj1 (later_bound_wins sampleStore "t1" (customTarget fiveContacts)
                  (spendingBetween 50 100))).
  discriminate.
Defined.

(** X19: a rule that names nothing.  When the GROUP rule comes without a
    group, the TAG rule without a tag or the CUSTOM rule without a
    contact, [create] resolves to nobody, with or without additional
    filters, throws the [BadRequestException] for no matching recipients
    and leaves the store as it was. *)
Theorem empty_selection_creates_nothing tenantId dto now thisMonth s :
  (targetType (dto_target dto) = Some GROUP
   ∧ default [] (targetGroupIds (dto_target dto)) = [])
  ∨ (targetType (dto_target dto) = Some TAG
     ∧ default [] (targetTags (dto_target dto)) = [])
  ∨ (targetType (dto_target dto) = Some CUSTOM
     ∧ default [] (targetContactIds (dto_target dto)) = []) →
  create tenantId dto now thisMonth s
  = (Throw (BadRequestException NoMatchingRecipients), s).
Proof.
  intros Hrule.
  assert (Hnone : calculateRecipients s tenantId (dto_target dto) = []).
  { unfold calculateRecipients.
    destruct Hrule as [[-> Hl]|[[-> Hl]|[-> Hl]]].
    - destruct (targetGroupIds (dto_target dto)) as [[|g gs]|];
        simpl in Hl; try done;
        destruct (filters (dto_target dto)); try case_decide;
        simpl in *; first [done|lia].
    - destruct (targetTags (dto_target dto)) as [[|t ts]|];
        simpl in Hl; try done;
        destruct (filters (dto_target dto)); try case_decide;
        simpl in *; first [done|lia].
    - rewrite Hl. destruct (filters (dto_target dto)); try case_decide;
        simpl in *; first [done|lia]. }
  unfold create. by rewrite Hnone.
Qed.

Lemma empty_selection_creates_nothing_witness :
  create "t1"
    {| dto_name := "promo"; dto_message := textMessage;
       dto_target := tagTarget []; dto_scheduledAt := None;
       dto_batchSize := None; dto_batchDelayMs := None |} 1000 0 sampleStore
  = (Throw (BadRequestException NoMatchingRecipients), sampleStore).
Proof.
  apply empty_selection_creates_nothing.
  right. left. split; reflexivity.
Defined.

(** ** The table a run leaves *)

Lemma serveRequest_sameElsewhere tenantId id now q s r s' :
  serveRequest tenantId id now q s = (r, s') → sameElsewhere id s s'.
Proof.
  destruct q; simpl; unfold send, pause, resume, cancel;
    destruct (findFirstBroadcast s id tenantId); intros H;
    try (injection H as <- <-; apply sameElsewhere_refl);
    case_decide; injection H as <- <-; try apply sameElsewhere_refl.
  - eapply sameElsewhere_trans; [|apply updateBroadcast_sameElsewhere].
    by split_and!.
  - apply updateBroadcast_sameElsewhere.
  - eapply sameElsewhere_trans; [|apply updateBroadcast_sameElsewhere].
    by split_and!.
  - eapply sameElsewhere_trans; [|apply updateBroadcast_sameElsewhere].
    by split_and!.
Qed.

Lemma serve_sameElsewhere tenantId id now w q :
  sameElsewhere id (db w) (db (serve tenantId id now w q)).
Proof.
  unfold serve.
  destruct (serveRequest tenantId id now q (db w)) as [[[]|e] s'] eqn:Hq;
    simpl; [by eapply serveRequest_sameElsewhere|apply sameElsewhere_refl].
Qed.

(** A run writes to its campaign and to recipient rows only. *)
Lemma reach_elsewhere c p0 d k f p :
  Reach c p0 d k f p →
  sameElsewhere (j_broadcastId (run_job c)) (db (world p0)) (db (world p)).
Proof.
  induction 1 as [|d k f p q _ IH|n p _ IH Hgo|d k f p x _ IH Hk Hx|d f p _ IH
                 |d k f p ms _ IH|d f p _ IH]; try exact IH.
  - apply sameElsewhere_refl.
  - eapply sameElsewhere_trans; [exact IH|]. apply serve_sameElsewhere.
  - destruct (recordResult_effect c p x) as (g&_&_&Hdb&_).
    rewrite Hdb. eapply sameElsewhere_trans; [exact IH|]. by split_and!.
  - eapply sameElsewhere_trans; [exact IH|].
    apply updateBroadcast_sameElsewhere.
  - eapply sameElsewhere_trans; [exact IH|].
    apply updateBroadcast_sameElsewhere.
Qed.

Lemma recordedRow_identity c x : rowIdentity (recordedRow c x) = rowIdentity x.
Proof. unfold recordedRow. by destruct (success _). Qed.

Lemma recordedRow_not_pending c x id : ¬ isPendingOf id (recordedRow c x).
Proof.
  intros [_ H]. rewrite recordedRow_status in H.
  by destruct (statusFor_cases (outcomeOf c x)) as [Hs|Hs]; rewrite Hs in H.
Qed.

Section run_table.
Context (c : Run) (p0 : Progress).

Local Abbreviation id := (j_broadcastId (run_job c)).
Local Abbreviation rs := (run_recipients c).
Local Abbreviation s0 := (db (world p0)).

Hypothesis table_keys : NoDup (r_id <$> recipients s0).
Hypothesis rows_read : ∀ x, x ∈ rs → x ∈ recipients s0 ∧ isPendingOf id x.
Hypothesis rows_distinct : NoDup (r_id <$> rs).

(** The table in closed form: the rows of the start, those of the first
    [k] rows of the list replaced by their recorded versions. *)
Lemma reach_table d k f p :
  Reach c p0 d k f p →
  recipients (db (world p)) = tableAfter c k (recipients s0).
Proof using All.
  induction 1 as [|d k f p q _ IH|n p _ IH Hgo|d k f p x _ IH Hk Hx|d f p _ IH
                 |d k f p ms _ IH|d f p _ IH]; try exact IH.
  - unfold tableAfter. rewrite <- (list_fmap_id (recipients s0)) at 1.
    apply list_fmap_ext. intros i r _. cbv beta.
    destruct (decide _) as [Hin|_]; [|done].
    simpl in Hin. by apply elem_of_nil in Hin.
  - destruct (serve_effect (j_tenantId (run_job c)) id (run_now c)
                (world p) q) as [(Hrec&_&_) _].
    simpl in *. by rewrite Hrec.
  - destruct (recordResult_effect c p x) as (g&Hg&Hgx&Hdb&_).
    rewrite Hdb. simpl. rewrite IH. unfold tableAfter.
    rewrite <- list_fmap_compose. apply list_fmap_ext. intros i r Hr.
    apply list_elem_of_lookup_2 in Hr. simpl.
    rewrite (take_S_r _ _ _ Hx), fmap_app.
    destruct (decide (r_id r ∈ r_id <$> take k rs)) as [Hin|Hnot];
      cbn iota.
    + assert (Hne : r_id r ≠ r_id x).
      { apply list_elem_of_fmap in Hin as (y&Hy&Hyin).
        apply elem_of_take in Hyin as (j&Hj&Hjk). rewrite Hy.
        eapply (NoDup_fmap_lookup_ne r_id rs j k y x); eauto; lia. }
      rewrite (decide_False (P := r_id (recordedRow c r) = r_id x))
        by (by rewrite recordedRow_id).
      by rewrite (decide_True (P := r_id r ∈ _ ++ _))
        by (apply elem_of_app; by left).
    + destruct (decide (r_id r = r_id x)) as [Heq|Hne]; cbn iota.
      * assert (r = x) as ->.
        { eapply same_key_same_row; [exact table_keys|done| |done].
          by apply rows_read, (list_elem_of_lookup_2 _ k). }
        by rewrite (decide_True (P := r_id x ∈ _ ++ _))
          by (apply elem_of_app; right; apply list_elem_of_here).
      * rewrite (decide_False (P := r_id r ∈ _ ++ _)); [done|].
        intros Hin. apply elem_of_app in Hin as [Hin|Hin]; [done|].
        by apply list_elem_of_singleton in Hin.
Qed.

End run_table.

(** The pending rows of a campaign in a table of which some rows are
    recorded. *)
Lemma tableAfter_pending c k l id :
  filter (isPendingOf id) (tableAfter c k l)
  = filter (λ r, r_id r ∉ r_id <$> take k (run_recipients c))
      (filter (isPendingOf id) l).
Proof.
  unfold tableAfter. induction l as [|r l IH]; [done|].
  rewrite fmap_cons, (filter_cons (isPendingOf id) r l).
  rewrite (filter_cons (isPendingOf id)).
  destruct (decide (r_id r ∈ r_id <$> take k (run_recipients c)))
    as [Hin|Hnot].
  - rewrite (decide_False (P := isPendingOf id (recordedRow c r)))
      by apply recordedRow_not_pending.
    rewrite IH. destruct (decide (isPendingOf id r)); [|done].
    rewrite filter_cons, decide_False; [done|]. by intros Hn.
  - destruct (decide (isPendingOf id r)); [|done].
    by rewrite filter_cons, decide_True, IH.
Qed.

Lemma tableAfter_lookup c k l i r :
  l !! i = Some r →
  ∃ r', tableAfter c k l !! i = Some r'
        ∧ rowIdentity r' = rowIdentity r
        ∧ (r_id r ∉ r_id <$> take k (run_recipients c) → r' = r).
Proof.
  intros Hr. unfold tableAfter. rewrite list_lookup_fmap, Hr. simpl.
  eexists. split; [done|]. case_decide.
  - split; [apply recordedRow_identity|done].
  - done.
Qed.

Lemma filter_not_taken {A B} `{EqDecision B} (f : A → B) (l : list A) k :
  NoDup (f <$> l) →
  filter (λ r, f r ∉ f <$> take k l) l = drop k l.
Proof.
  intros Hnd. set (P := λ r, f r ∉ f <$> take k l).
  transitivity (filter P (take k l ++ drop k l)); [by rewrite take_drop|].
  rewrite filter_app, filter_none, filter_all; [done|..].
  - apply Forall_forall. intros x Hx. by apply NoDup_fmap_drop_take.
  - apply Forall_forall. intros x Hx Hn. apply Hn.
    apply list_elem_of_fmap. eauto.
Qed.
(** ** Whole runs *)

(** What a run that returns normally from the end of its loop leaves, in
    terms of the store the job found. *)
Lemma finished_facts env job now s sent failed w' :
  NoDup (r_id <$> recipients s) →
  handleSendBroadcast env job now (startWorld s)
  = Some (Finished sent failed, w') →
  ∃ broadcast b,
    let c := runOf env job now broadcast s in
    broadcasts s !! j_broadcastId job = Some broadcast
    ∧ broadcasts (db w') !! j_broadcastId job
      = Some (completed now sent failed b)
    ∧ totalRecipients b = totalRecipients broadcast
    ∧ sent = sentCount broadcast
             + recordedIn c RecipientStatus.SENT (length (run_recipients c))
    ∧ failed = failedCount broadcast
               + recordedIn c RecipientStatus.FAILED
                   (length (run_recipients c))
    ∧ (∀ st, rowsIn st (j_broadcastId job) (db w')
             + (if decide (st = RecipientStatus.PENDING)
                then rowsIn RecipientStatus.PENDING (j_broadcastId job) s
                else 0)
             = rowsIn st (j_broadcastId job) s
               + recordedIn c st (length (run_recipients c)))
    ∧ length (run_recipients c)
      = rowsIn RecipientStatus.PENDING (j_broadcastId job) s
    ∧ NoDup (r_id <$> recipients (db w')).
Proof.
  intros Hnd Hrun.
  destruct (broadcasts s !! j_broadcastId job) as [broadcast|] eqn:Hb;
    [|by unfold handleSendBroadcast in Hrun; simpl in Hrun;
         rewrite Hb in Hrun].
  destruct (run_cases _ _ _ _ broadcast _ _ Hnd Hb Hrun)
    as [(_&?&_)|(Hst&p'&n&Hr&_&Hret)]; [done|].
  destruct Hret as [(Hfin&->&->&(b1&Hb1)&_)|(st&?&_)]; [|done].
  injection Hfin as -> ->.
  destruct (entry_facts env job now s broadcast Hnd Hb)
    as (_&Hkeys&Hread&Hdist&(b0&Hent&Hled&_)&_&_&_&Hl0&_).
  injection Hled as Ht0 Hs0 Hf0.
  destruct (reach_ledger _ _ b0 Hkeys Hread Hdist Hent
              (eq_sym Hs0) (eq_sym Hf0) _ _ _ _ Hr)
    as (Hs&Hf&(b&Hb'&Htot&_&_)&Hrows).
  pose proof (reach_keys _ _ Hkeys Hread Hdist _ _ _ _ Hr) as Hnd1.
  simpl in Hb'. rewrite Hb1 in Hb'. injection Hb' as <-.
  exists broadcast, b1. simpl.
  split_and!; [done|done|simpl in Htot; congruence|congruence|congruence
              | |apply findManyPending_length|done].
  intros st. pose proof (Hrows st) as H. simpl in H.
  rewrite (rowsIn_sameLedger st _ _ _ Hl0) in H.
  by rewrite <- (findManyPending_length (tieOrder env) s).
Qed.

(** X20: a run that reaches the end of its loop.  Whatever control
    requests were served meanwhile, the campaign is left COMPLETED with
    the time of the run as [completedAt]; its stored counters are the
    returned ones; they have grown by the number of rows that were
    pending, and no row of the campaign is pending any more. *)
Theorem finished_run_completes_campaign env job now s sent failed w' :
  NoDup (r_id <$> recipients s) →
  handleSendBroadcast env job now (startWorld s)
  = Some (Finished sent failed, w') →
  ∃ broadcast b,
    broadcasts s !! j_broadcastId job = Some broadcast
    ∧ broadcasts (db w') !! j_broadcastId job = Some b
    ∧ b_status b = BroadcastStatus.COMPLETED
    ∧ completedAt b = Some now
    ∧ sentCount b = sent ∧ failedCount b = failed
    ∧ totalRecipients b = totalRecipients broadcast
    ∧ sent + failed
      = sentCount broadcast + failedCount broadcast
        + rowsIn RecipientStatus.PENDING (j_broadcastId job) s
    ∧ rowsIn RecipientStatus.PENDING (j_broadcastId job) (db w') = 0.
Proof.
  intros Hnd Hrun.
  destruct (finished_facts _ _ _ _ _ _ _ Hnd Hrun)
    as (broadcast&b&Hb&Hb'&Htot&Hs&Hf&Hrows&Hlen&_).
  exists broadcast, (completed now sent failed b).
  pose proof (recordedIn_split (runOf env job now broadcast s) _ (le_n _))
    as Hsplit.
  pose proof (Hrows RecipientStatus.PENDING) as Hp.
  rewrite decide_True, recordedIn_pending in Hp by done.
  simpl in Hsplit, Hlen, Hs, Hf.
  split_and!; try done; lia.
Qed.

Lemma finished_run_completes_campaign_witness :
  ∃ broadcast b,
    broadcasts (queuedCampaign fiveContacts 2) !! j_broadcastId sampleJob
    = Some broadcast
    ∧ broadcasts
        (db (outcomeOfRun (quiet channelUp) sampleJob 2000
               (queuedCampaign fiveContacts 2)).2) !! j_broadcastId sampleJob
      = Some b
    ∧ b_status b = BroadcastStatus.COMPLETED
    ∧ completedAt b = Some 2000%Z
    ∧ sentCount b = 5 ∧ failedCount b = 0
    ∧ totalRecipients b = totalRecipients broadcast
    ∧ 5 + 0
      = sentCount broadcast + failedCount broadcast
        + rowsIn RecipientStatus.PENDING (j_broadcastId sampleJob)
            (queuedCampaign fiveContacts 2)
    ∧ rowsIn RecipientStatus.PENDING (j_broadcastId sampleJob)
        (db (outcomeOfRun (quiet channelUp) sampleJob 2000
               (queuedCampaign fiveContacts 2)).2) = 0.
Proof.
  apply (finished_run_completes_campaign (quiet channelUp) sampleJob 2000
           (queuedCampaign fiveContacts 2) 5 0).
  - apply sample_keys. vm_compute. reflexivity.
  - vm_compute. reflexivity.
Defined.

(** X21: a second job for a campaign whose run has finished, a resume job
    or a repeated one, sends nothing: it dispatches no batch, leaves every
    recipient row as it is, returns the same counters and leaves them
    stored with the campaign, which is COMPLETED again. *)
Theorem second_run_sends_nothing env job now s sent failed w' env' job'
    now' :
  NoDup (r_id <$> recipients s) →
  handleSendBroadcast env job now (startWorld s)
  = Some (Finished sent failed, w') →
  j_broadcastId job' = j_broadcastId job →
  ∃ w'',
    handleSendBroadcast env' job' now' (startWorld (db w'))
    = Some (Finished sent failed, w'')
    ∧ batchesOf (trace w'') = []
    ∧ recipients (db w'') = recipients (db w')
    ∧ countersOf (j_broadcastId job) (db w'') = (sent, failed)
    ∧ b_status <$> broadcasts (db w'') !! j_broadcastId job
      = Some BroadcastStatus.COMPLETED.
Proof.
  intros Hnd Hrun Hjob.
  destruct (finished_facts _ _ _ _ _ _ _ Hnd Hrun)
    as (broadcast&b&Hb&Hb'&_&_&_&Hrows&_&Hnd').
  pose proof (Hrows RecipientStatus.PENDING) as Hp.
  rewrite decide_True, recordedIn_pending in Hp by done.
  rewrite <- Hjob in Hb', Hp |- *.
  destruct (handleSendBroadcast_total env' job' now' (startWorld (db w')))
    as [[ret'' w''] Hrun'].
  assert (Hnil : findManyPending (tieOrder env') (db w') (j_broadcastId job')
                 = []).
  { apply length_zero_iff_nil. rewrite findManyPending_length. lia. }
  pose proof Hrun' as Hcases.
  apply (run_cases _ _ _ _ _ _ _ Hnd' Hb') in Hcases
    as [(Hst&_)|(_&p'&n&Hr&_&Hret)]; [done|].
  rewrite Hnil in Hret.
  destruct Hret as [(->&->&->&(b1&Hb1)&_)|(st&_&Hn&_)];
    [|simpl in Hn; lia].
  destruct (entry_facts env' job' now' (db w') _ Hnd' Hb')
    as (_&Hkeys&Hread&Hdist&(b0&Hent&Hled&_)&_&_&_&(Hrec0&_)&_&Hbat0).
  injection Hled as Ht0 Hs0 Hf0.
  destruct (reach_ledger _ _ b0 Hkeys Hread Hdist Hent
              (eq_sym Hs0) (eq_sym Hf0) _ _ _ _ Hr) as (Hs&Hf&_).
  destruct (reach_idle
              (runOf env' job' now' (completed now sent failed b) (db w'))
              _ _ _ _ _ Hnil Hr) as [Hrec Hbat].
  assert (Hnone : ∀ st k,
            recordedIn
              (runOf env' job' now' (completed now sent failed b) (db w'))
              st k = 0).
  { intros st k. unfold recordedIn. simpl. by rewrite Hnil, take_nil. }
  rewrite Hnone, Nat.add_0_r in Hs, Hf. simpl in Hs0, Hf0.
  exists (world p'). rewrite Hrun', Hs, Hf, <- Hs0, <- Hf0.
  split_and!; [done|by rewrite Hbat, Hbat0|by rewrite Hrec, Hrec0| |].
  - unfold countersOf. rewrite Hb1. simpl. by rewrite Hs, Hf.
  - by rewrite Hb1.
Qed.

Lemma second_run_sends_nothing_witness :
  ∃ w'',
    handleSendBroadcast (quiet channelTimeout)
      {| j_broadcastId := 0; j_tenantId := "t1"; j_resume := true |} 3000
      (startWorld
         (db (outcomeOfRun (quiet channelUp) sampleJob 2000
                (queuedCampaign fiveContacts 2)).2))
    = Some (Finished 5 0, w'')
    ∧ batchesOf (trace w'') = []
    ∧ recipients (db w'')
      = recipients
          (db (outcomeOfRun (quiet channelUp) sampleJob 2000
                 (queuedCampaign fiveContacts 2)).2)
    ∧ countersOf (j_broadcastId sampleJob) (db w'') = (5, 0)
    ∧ b_status <$> broadcasts (db w'') !! j_broadcastId sampleJob
      = Some BroadcastStatus.COMPLETED.
Proof.
  apply (second_run_sends_nothing (quiet channelUp) sampleJob 2000
           (queuedCampaign fiveContacts 2) 5 0 _ (quiet channelTimeout)
           {| j_broadcastId := 0; j_tenantId := "t1"; j_resume := true |}
           3000).
  - apply sample_keys. vm_compute. reflexivity.
  - vm_compute. reflexivity.
  - reflexivity.
Defined.

(** The pending rows in the course of a run: the rows of the list whose
    results are not recorded yet. *)
Lemma reach_pending env job now s broadcast d k f p :
  NoDup (r_id <$> recipients s) →
  broadcasts s !! j_broadcastId job = Some broadcast →
  Reach (runOf env job now broadcast s)
    (entry job now broadcast (beforeSending env job now (startWorld s)))
    d k f p →
  filter (isPendingOf (j_broadcastId job)) (recipients (db (world p)))
  ≡ₚ drop k (findManyPending (tieOrder env) s (j_broadcastId job)).
Proof.
  intros Hnd Hb Hr.
  destruct (entry_facts env job now s broadcast Hnd Hb)
    as (_&Hkeys&Hread&Hdist&_&_&_&_&(Hrec0&_)&_).
  pose proof (reach_table _ _ Hkeys Hread Hdist _ _ _ _ Hr) as Htable.
  rewrite Htable, tableAfter_pending, Hrec0.
  rewrite <- (findManyPending_Permutation (tieOrder env)).
  simpl. by rewrite (filter_not_taken r_id).
Qed.

(** A run dispatches a prefix of the list it read and leaves the rest of
    that list pending. *)
Lemma run_prefix env job now s ret w' :
  NoDup (r_id <$> recipients s) →
  handleSendBroadcast env job now (startWorld s) = Some (ret, w') →
  let rows := findManyPending (tieOrder env) s (j_broadcastId job) in
  ∃ n,
    concat (batchesOf (trace w')) = r_id <$> take n rows
    ∧ filter (isPendingOf (j_broadcastId job)) (recipients (db w'))
      ≡ₚ drop n rows
    ∧ NoDup (r_id <$> recipients (db w'))
    ∧ match ret with
      | Finished _ _ => n = length rows
      | Stopped _ _ => n < length rows
      | _ => n = 0
      end.
Proof.
  intros Hnd Hrun rows.
  destruct (broadcasts s !! j_broadcastId job) as [b|] eqn:Hb.
  2: { unfold handleSendBroadcast in Hrun. simpl in Hrun.
       rewrite Hb in Hrun. injection Hrun as <- <-. exists 0.
       rewrite take_0, drop_0. split_and!; [done| |done..].
       symmetry. apply findManyPending_Permutation. }
  destruct (run_cases _ _ _ _ b _ _ Hnd Hb Hrun)
    as [(_&->&->)|(Hst&p'&n&Hr&Hleft&Hret)].
  { exists 0. rewrite take_0, drop_0. split_and!; [done| |done..].
    symmetry. apply findManyPending_Permutation. }
  exists n.
  destruct (entry_facts env job now s b Hnd Hb)
    as (_&Hkeys&Hread&Hdist&_&_&_&_&_&_&Hbat0).
  pose proof (reach_batches _ _ _ _ _ _ Hr) as Hbat.
  rewrite Hbat0 in Hbat. simpl in Hbat.
  rewrite (leftBy_db _ _ Hleft), (leftBy_batches _ _ Hleft).
  split_and!; [done|by eapply reach_pending
              |by eapply (reach_keys _ _ Hkeys Hread Hdist)|].
  by destruct Hret as [(->&->&_)|(st&->&Hne&_)].
Qed.

(** X22: a run dispatches a prefix of the list it read and leaves the
    rest pending.  The rows dispatched, in order, are the first [n] rows
    of the list of pending rows read at the start, each one once; the
    rows of the campaign that are pending in the store the run leaves are
    the other rows of that list, whatever the order in which a later job
    will read them.  A run that finishes takes the whole list, a run that
    stops at a status check less, and a run that is skipped nothing. *)
Theorem run_leaves_the_rest_pending env job now s ret w' :
  NoDup (r_id <$> recipients s) →
  handleSendBroadcast env job now (startWorld s) = Some (ret, w') →
  let rows := findManyPending (tieOrder env) s (j_broadcastId job) in
  ∃ n,
    concat (batchesOf (trace w')) = r_id <$> take n rows
    ∧ filter (isPendingOf (j_broadcastId job)) (recipients (db w'))
      ≡ₚ drop n rows
    ∧ NoDup (concat (batchesOf (trace w')))
    ∧ match ret with
      | Finished _ _ => n = length rows
      | Stopped _ _ => n < length rows
      | _ => n = 0
      end.
Proof.
  intros Hnd Hrun rows.
  destruct (run_prefix _ _ _ _ _ _ Hnd Hrun) as (n&Hbat&Hpend&_&Hn).
  exists n. split_and!; [done..| |done].
  rewrite Hbat. eapply sublist_NoDup;
    [by apply (findManyPending_NoDup (tieOrder env) s (j_broadcastId job))|].
  apply fmap_sublist, sublist_take.
Qed.

Lemma run_leaves_the_rest_pending_witness :
  ∃ n,
    concat (batchesOf (trace pausedWorld))
    = r_id <$> take n (findManyPending (tieOrder pausedAfterFirstBatch)
                         (queuedCampaign fiveContacts 2)
                         (j_broadcastId sampleJob))
    ∧ filter (isPendingOf (j_broadcastId sampleJob))
        (recipients (db pausedWorld))
      ≡ₚ drop n (findManyPending (tieOrder pausedAfterFirstBatch)
                   (queuedCampaign fiveContacts 2)
                   (j_broadcastId sampleJob))
    ∧ NoDup (concat (batchesOf (trace pausedWorld)))
    ∧ n < length (findManyPending (tieOrder pausedAfterFirstBatch)
                    (queuedCampaign fiveContacts 2)
                    (j_broadcastId sampleJob)).
Proof.
  apply (run_leaves_the_rest_pending pausedAfterFirstBatch sampleJob 2000
           (queuedCampaign fiveContacts 2)
           (Stopped BroadcastStatus.PAUSED 2)).
  - apply sample_keys. vm_compute. reflexivity.
  - vm_compute. reflexivity.
Defined.

(** X23: two runs of a campaign, one after the other, dispatch no row
    twice.  The second job starts on a store that holds the recipient
    rows as the first run left them, that is, after the first job has
    returned; nothing in the service makes a resume job wait for that,
    and two jobs that overlap are not covered.  Then the rows that the
    two runs dispatch are all different, each is a pending row of the
    campaign in the store the first job found, and the rows of the
    campaign still pending after the second run are those rows less the
    dispatched ones: none if the second run finishes. *)
Theorem consecutive_runs_dispatch_no_row_twice env job now s ret w1 env'
    job' now' s1 ret' w2 :
  NoDup (r_id <$> recipients s) →
  handleSendBroadcast env job now (startWorld s) = Some (ret, w1) →
  recipients s1 = recipients (db w1) →
  j_broadcastId job' = j_broadcastId job →
  handleSendBroadcast env' job' now' (startWorld s1) = Some (ret', w2) →
  NoDup (concat (batchesOf (trace w1)) ++ concat (batchesOf (trace w2)))
  ∧ (concat (batchesOf (trace w1)) ++ concat (batchesOf (trace w2)))
    ++ (r_id <$> filter (isPendingOf (j_broadcastId job))
                   (recipients (db w2)))
    ≡ₚ r_id <$> filter (isPendingOf (j_broadcastId job)) (recipients s)
  ∧ (∀ sent failed,
       ret' = Finished sent failed →
       filter (isPendingOf (j_broadcastId job)) (recipients (db w2)) = []).
Proof.
  intros Hnd Hrun1 Hrows Hjob Hrun2.
  destruct (run_prefix _ _ _ _ _ _ Hnd Hrun1) as (n1&Hbat1&Hpend1&Hnd1&_).
  assert (Hnd' : NoDup (r_id <$> recipients s1)) by (by rewrite Hrows).
  destruct (run_prefix _ _ _ _ _ _ Hnd' Hrun2) as (n2&Hbat2&Hpend2&_&Hn2).
  rewrite Hjob in Hbat2, Hpend2, Hn2.
  set (rows1 := findManyPending (tieOrder env) s (j_broadcastId job)) in *.
  set (rows2 := findManyPending (tieOrder env') s1 (j_broadcastId job)) in *.
  assert (Hread : rows2 ≡ₚ drop n1 rows1).
  { subst rows2. rewrite findManyPending_Permutation, Hrows. exact Hpend1. }
  assert (Hsplit : ∀ (l : list BroadcastRecipient) n,
            take n l ++ drop n l ≡ₚ l)
    by (intros l n; by rewrite take_drop).
  assert (Hall : (concat (batchesOf (trace w1))
                  ++ concat (batchesOf (trace w2)))
                 ++ (r_id <$> filter (isPendingOf (j_broadcastId job))
                                (recipients (db w2)))
                 ≡ₚ r_id <$> rows1).
  { rewrite Hbat1, Hbat2, Hpend2, <- app_assoc, <- !fmap_app.
    by rewrite (Hsplit rows2 n2), Hread, (Hsplit rows1 n1). }
  split_and!.
  - pose proof (findManyPending_NoDup (tieOrder env) s (j_broadcastId job)
                  Hnd) as Hdist.
    fold rows1 in Hdist. rewrite <- Hall in Hdist.
    by apply NoDup_app in Hdist as (?&_&_).
  - rewrite Hall. subst rows1.
    by rewrite findManyPending_Permutation.
  - intros sent failed ->. apply Permutation_nil_r.
    rewrite Hpend2. by rewrite drop_ge by lia.
Qed.

Lemma consecutive_runs_dispatch_no_row_twice_witness :
  NoDup (concat (batchesOf (trace pausedWorld))
         ++ concat (batchesOf (trace resumedWorld)))
  ∧ (concat (batchesOf (trace pausedWorld))
     ++ concat (batchesOf (trace resumedWorld)))
    ++ (r_id <$> filter (isPendingOf (j_broadcastId sampleJob))
                   (recipients (db resumedWorld)))
    ≡ₚ r_id <$> filter (isPendingOf (j_broadcastId sampleJob))
                  (recipients (queuedCampaign fiveContacts 2))
  ∧ (∀ sent failed,
       Finished 5 0 = Finished sent failed →
       filter (isPendingOf (j_broadcastId sampleJob))
         (recipients (db resumedWorld)) = []).
Proof.
  apply (consecutive_runs_dispatch_no_row_twice pausedAfterFirstBatch
           sampleJob 2000 (queuedCampaign fiveContacts 2)
           (Stopped BroadcastStatus.PAUSED 2) pausedWorld
           (quiet channelUp) resumeSampleJob 3000 resumedStore
           (Finished 5 0) resumedWorld).
  - apply sample_keys. vm_compute. reflexivity.
  - vm_compute. reflexivity.
  - vm_compute. reflexivity.
  - reflexivity.
  - vm_compute. reflexivity.
Defined.

Lemma keptElsewhere_of id s s' : sameElsewhere id s s' → keptElsewhere id s s'.
Proof. intros (?&_&?&?). by split_and!. Qed.

Lemma beforeSending_sameElsewhere env job now w :
  sameElsewhere (j_broadcastId job) (db w) (db (beforeSending env job now w)).
Proof.
  unfold beforeSending. revert w.
  induction (arrivals env BeforeSending) as [|q qs IH]; intros w; simpl.
  - apply sameElsewhere_refl.
  - eapply sameElsewhere_trans; [apply serve_sameElsewhere|apply IH].
Qed.

(** X24: what a run leaves alone among the tables of the campaigns.  The
    processor writes to its own campaign and to recipient rows: tenants,
    group members and every other campaign are as the job found them.
    No recipient row is added, removed or moved, no row changes its key,
    campaign, contact or creation time, and every row that was not a
    pending row of the campaign is exactly as it was.  (The channel
    keeps a log of its own, of contacts, conversations and messages,
    which is not part of the statement.) *)
Theorem run_leaves_the_rest_alone env job now s ret w' :
  NoDup (r_id <$> recipients s) →
  handleSendBroadcast env job now (startWorld s) = Some (ret, w') →
  keptElsewhere (j_broadcastId job) s (db w')
  ∧ rowIdentity <$> recipients (db w') = rowIdentity <$> recipients s
  ∧ ∀ i r, recipients s !! i = Some r →
           ¬ isPendingOf (j_broadcastId job) r →
           recipients (db w') !! i = Some r.
Proof.
  intros Hnd Hrun.
  assert (Hrefl : keptElsewhere (j_broadcastId job) s s) by (by split_and!).
  destruct (broadcasts s !! j_broadcastId job) as [b|] eqn:Hb.
  2: { unfold handleSendBroadcast in Hrun. simpl in Hrun.
       rewrite Hb in Hrun. by injection Hrun as <- <-. }
  destruct (run_cases _ _ _ _ b _ _ Hnd Hb Hrun)
    as [(_&_&->)|(Hst&p'&n&Hr&Hleft&_)]; [done|].
  rewrite (leftBy_db _ _ Hleft).
  destruct (entry_facts env job now s b Hnd Hb)
    as (_&Hkeys&Hread&Hdist&_&_&_&_&(Hrec0&_)&_).
  pose proof (reach_table _ _ Hkeys Hread Hdist _ _ _ _ Hr) as Htable.
  pose proof (reach_elsewhere _ _ _ _ _ _ Hr) as Hels.
  rewrite Hrec0 in Htable. simpl in Hels, Hread.
  split_and!.
  - apply keptElsewhere_of.
    eapply sameElsewhere_trans; [|exact Hels]. simpl.
    eapply sameElsewhere_trans;
      [apply (beforeSending_sameElsewhere env job now (startWorld s))|].
    apply updateBroadcast_sameElsewhere.
  - rewrite Htable. unfold tableAfter. rewrite <- list_fmap_compose.
    apply list_fmap_ext. intros i r _. simpl.
    case_decide; [apply recordedRow_identity|done].
  - intros i r Hi Hnot. rewrite Htable.
    destruct (tableAfter_lookup (runOf env job now b s) n _ _ _ Hi)
      as (r'&Hr'&_&Heq).
    rewrite Hr'. f_equal. apply Heq. intros Hin. apply Hnot.
    apply list_elem_of_fmap in Hin as (y&Hy&Hyin).
    apply elem_of_take in Hyin as (j&Hj&_).
    apply list_elem_of_lookup_2 in Hj. apply Hread in Hj as [Hys Hyp].
    assert (r = y) as ->; [|done].
    eapply same_key_same_row; [exact Hnd| |by rewrite <- Hrec0|done].
    by eapply list_elem_of_lookup_2.
Qed.

Lemma run_leaves_the_rest_alone_witness :
  keptElsewhere (j_broadcastId sampleJob) (queuedCampaign fiveContacts 2)
    (db pausedWorld)
  ∧ rowIdentity <$> recipients (db pausedWorld)
    = rowIdentity <$> recipients (queuedCampaign fiveContacts 2)
  ∧ ∀ i r, recipients (queuedCampaign fiveContacts 2) !! i = Some r →
           ¬ isPendingOf (j_broadcastId sampleJob) r →
           recipients (db pausedWorld) !! i = Some r.
Proof.
  apply (run_leaves_the_rest_alone pausedAfterFirstBatch sampleJob 2000
           (queuedCampaign fiveContacts 2)
           (Stopped BroadcastStatus.PAUSED 2)).
  - apply sample_keys. vm_compute. reflexivity.
  - vm_compute. reflexivity.
Defined.

(** *** The channel decides the counters *)

Lemma recordedIn_all c st :
  (∀ x, x ∈ run_recipients c → statusFor (outcomeOf c x) = st) →
  recordedIn c st (length (run_recipients c)) = length (run_recipients c).
Proof.
  intros Hall. unfold recordedIn. rewrite firstn_all, filter_all; [done|].
  by apply Forall_forall.
Qed.

Lemma outcome_resolved env job now broadcast s x :
  alwaysResolves env →
  sendable s (j_broadcastId job) broadcast →
  x ∈ findPendingRecipients s (j_broadcastId job) →
  success (outcomeOf (runOf env job now broadcast s) x) = true.
Proof.
  intros Hup [Htext Hcontacts] Hx. unfold outcomeOf, sendMessage. simpl.
  destruct (Hcontacts x Hx) as [contact ->].
  destruct (messageType (b_message broadcast)) eqn:Hty; simpl.
  - destruct (Htext eq_refl) as [text ->]. simpl.
    by destruct (Hup (r_id x) (SendTextMessage (j_tenantId job)
                                 (c_phone contact)
                                 (interpolateVariables env text
                                    (orElse (truthyString (c_name contact))
                                       fallbackContactName))))
      as [keyId ->].
  - by match goal with
       | |- context [whatsappService env ?r ?q] =>
           destruct (Hup r q) as [keyId ->]
       end.
  - by match goal with
       | |- context [whatsappService env ?r ?q] =>
           destruct (Hup r q) as [keyId ->]
       end.
  - by match goal with
       | |- context [whatsappService env ?r ?q] =>
           destruct (Hup r q) as [keyId ->]
       end.
  - by match goal with
       | |- context [whatsappService env ?r ?q] =>
           destruct (Hup r q) as [keyId ->]
       end.
Qed.

Lemma outcome_rejected env job now broadcast s x :
  alwaysRejects env →
  success (outcomeOf (runOf env job now broadcast s) x) = false.
Proof.
  intros Hdown. unfold outcomeOf, sendMessage. simpl.
  destruct (contacts s !! r_contactId x) as [contact|]; [|done].
  match goal with
  | |- context [match ?o with Some q => _ | None => sendFailure _ end] =>
      destruct o as [q|] eqn:Hq; [|done]
  end.
  by destruct (Hdown (r_id x) q) as [message ->].
Qed.

(** X25: on a channel that resolves every call, a run that finishes has
    sent to every row that was pending: for a campaign whose text is not
    null and whose pending rows all have their contact, the sent counter
    has grown by the number of pending rows, the failed counter has not
    moved, and the rows have gone from PENDING to SENT. *)
Theorem accepting_channel_sends_every_row env job now s broadcast sent
    failed w' :
  alwaysResolves env →
  NoDup (r_id <$> recipients s) →
  broadcasts s !! j_broadcastId job = Some broadcast →
  sendable s (j_broadcastId job) broadcast →
  handleSendBroadcast env job now (startWorld s)
  = Some (Finished sent failed, w') →
  sent = sentCount broadcast
         + rowsIn RecipientStatus.PENDING (j_broadcastId job) s
  ∧ failed = failedCount broadcast
  ∧ rowsIn RecipientStatus.SENT (j_broadcastId job) (db w')
    = rowsIn RecipientStatus.SENT (j_broadcastId job) s
      + rowsIn RecipientStatus.PENDING (j_broadcastId job) s
  ∧ rowsIn RecipientStatus.FAILED (j_broadcastId job) (db w')
    = rowsIn RecipientStatus.FAILED (j_broadcastId job) s.
Proof.
  intros Hup Hnd Hb Hsend Hrun.
  destruct (finished_facts _ _ _ _ _ _ _ Hnd Hrun)
    as (broadcast'&b&Hb'&_&_&Hs&Hf&Hrows&Hlen&_).
  rewrite Hb in Hb'. injection Hb' as <-.
  set (c := runOf env job now broadcast s) in *.
  assert (Hall : recordedIn c RecipientStatus.SENT
                   (length (run_recipients c))
                 = length (run_recipients c)).
  { apply recordedIn_all. intros x Hx. unfold statusFor.
    assert (Hx' : x ∈ findPendingRecipients s (j_broadcastId job)).
    { apply findManyPending_elem. by apply findManyPending_elem in Hx. }
    pose proof (outcome_resolved env job now broadcast s x Hup Hsend Hx')
      as Ho.
    fold c in Ho. by rewrite Ho. }
  pose proof (recordedIn_split c (length (run_recipients c)) (le_n _))
    as Hsplit.
  pose proof (Hrows RecipientStatus.SENT) as H1.
  pose proof (Hrows RecipientStatus.FAILED) as H2.
  rewrite decide_False in H1 by done.
  rewrite decide_False in H2 by done.
  lia.
Qed.

Lemma accepting_channel_sends_every_row_witness :
  5 = sentCount (queuedBroadcast fiveContacts 2)
      + rowsIn RecipientStatus.PENDING (j_broadcastId sampleJob)
          (queuedCampaign fiveContacts 2)
  ∧ 0 = failedCount (queuedBroadcast fiveContacts 2)
  ∧ rowsIn RecipientStatus.SENT (j_broadcastId sampleJob) (db completedWorld)
    = rowsIn RecipientStatus.SENT (j_broadcastId sampleJob)
        (queuedCampaign fiveContacts 2)
      + rowsIn RecipientStatus.PENDING (j_broadcastId sampleJob)
          (queuedCampaign fiveContacts 2)
  ∧ rowsIn RecipientStatus.FAILED (j_broadcastId sampleJob)
      (db completedWorld)
    = rowsIn RecipientStatus.FAILED (j_broadcastId sampleJob)
        (queuedCampaign fiveContacts 2).
Proof.
  apply (accepting_channel_sends_every_row (quiet channelUp) sampleJob 2000
           (queuedCampaign fiveContacts 2) (queuedBroadcast fiveContacts 2)
           5 0 completedWorld).
  - intros r q. by eexists.
  - apply sample_keys. vm_compute. reflexivity.
  - vm_compute. reflexivity.
  - split; [by eexists|].
    intros x Hx. vm_compute in Hx.
    repeat (apply elem_of_cons in Hx as [->|Hx]; [by eexists|]).
    by apply elem_of_nil in Hx.
  - vm_compute. reflexivity.
Defined.

(** X26: on a channel that rejects every call, a run that finishes has
    failed every row that was pending, and the campaign is COMPLETED all
    the same: the failed counter has grown by the number of pending rows,
    the sent counter has not moved, and the rows have gone from PENDING to
    FAILED. *)
Theorem rejecting_channel_fails_every_row env job now s broadcast sent
    failed w' :
  alwaysRejects env →
  NoDup (r_id <$> recipients s) →
  broadcasts s !! j_broadcastId job = Some broadcast →
  handleSendBroadcast env job now (startWorld s)
  = Some (Finished sent failed, w') →
  sent = sentCount broadcast
  ∧ failed = failedCount broadcast
             + rowsIn RecipientStatus.PENDING (j_broadcastId job) s
  ∧ rowsIn RecipientStatus.FAILED (j_broadcastId job) (db w')
    = rowsIn RecipientStatus.FAILED (j_broadcastId job) s
      + rowsIn RecipientStatus.PENDING (j_broadcastId job) s
  ∧ rowsIn RecipientStatus.SENT (j_broadcastId job) (db w')
    = rowsIn RecipientStatus.SENT (j_broadcastId job) s
  ∧ b_status <$> broadcasts (db w') !! j_broadcastId job
    = Some BroadcastStatus.COMPLETED.
Proof.
  intros Hdown Hnd Hb Hrun.
  destruct (finished_facts _ _ _ _ _ _ _ Hnd Hrun)
    as (broadcast'&b&Hb'&Hdone&_&Hs&Hf&Hrows&Hlen&_).
  rewrite Hb in Hb'. injection Hb' as <-.
  set (c := runOf env job now broadcast s) in *.
  assert (Hall : recordedIn c RecipientStatus.FAILED
                   (length (run_recipients c))
                 = length (run_recipients c)).
  { apply recordedIn_all. intros x Hx. unfold statusFor.
    pose proof (outcome_rejected env job now broadcast s x Hdown) as Ho.
    fold c in Ho. by rewrite Ho. }
  pose proof (recordedIn_split c (length (run_recipients c)) (le_n _))
    as Hsplit.
  pose proof (Hrows RecipientStatus.SENT) as H1.
  pose proof (Hrows RecipientStatus.FAILED) as H2.
  rewrite decide_False in H1 by done.
  rewrite decide_False in H2 by done.
  rewrite Hdone. simpl. split_and!; try done; lia.
Qed.

Lemma rejecting_channel_fails_every_row_witness :
  0 = sentCount (queuedBroadcast fiveContacts 2)
  ∧ 5 = failedCount (queuedBroadcast fiveContacts 2)
        + rowsIn RecipientStatus.PENDING (j_broadcastId sampleJob)
            (queuedCampaign fiveContacts 2)
  ∧ rowsIn RecipientStatus.FAILED (j_broadcastId sampleJob)
      (db (outcomeOfRun (quiet channelTimeout) sampleJob 2000
             (queuedCampaign fiveContacts 2)).2)
    = rowsIn RecipientStatus.FAILED (j_broadcastId sampleJob)
        (queuedCampaign fiveContacts 2)
      + rowsIn RecipientStatus.PENDING (j_broadcastId sampleJob)
          (queuedCampaign fiveContacts 2)
  ∧ rowsIn RecipientStatus.SENT (j_broadcastId sampleJob)
      (db (outcomeOfRun (quiet channelTimeout) sampleJob 2000
             (queuedCampaign fiveContacts 2)).2)
    = rowsIn RecipientStatus.SENT (j_broadcastId sampleJob)
        (queuedCampaign fiveContacts 2)
  ∧ b_status
    <$> broadcasts
          (db (outcomeOfRun (quiet channelTimeout) sampleJob 2000
                 (queuedCampaign fiveContacts 2)).2)
        !! j_broadcastId sampleJob
    = Some BroadcastStatus.COMPLETED.
Proof.
  apply (rejecting_channel_fails_every_row (quiet channelTimeout) sampleJob
           2000 (queuedCampaign fiveContacts 2)
           (queuedBroadcast fiveContacts 2) 0 5).
  - intros r q. by eexists.
  - apply sample_keys. vm_compute. reflexivity.
  - vm_compute. reflexivity.
  - vm_compute. reflexivity.
Defined.

(** ** The sample campaign under the bookkeeping lemmas *)

Lemma create_conserved_witness :
  conserved (b_id (newBroadcast 0 "t1" (sampleDto fiveContacts 2) CUSTOM 5))
    (storeWithCampaign fiveContacts 2)
  ∧ broadcasts (storeWithCampaign fiveContacts 2)
    !! b_id (newBroadcast 0 "t1" (sampleDto fiveContacts 2) CUSTOM 5)
    = Some (newBroadcast 0 "t1" (sampleDto fiveContacts 2) CUSTOM 5)
  ∧ ledgerOf (newBroadcast 0 "t1" (sampleDto fiveContacts 2) CUSTOM 5)
    = (length (calculateRecipients sampleStore "t1"
                 (dto_target (sampleDto fiveContacts 2))), 0, 0)
  ∧ wellKeyed (storeWithCampaign fiveContacts 2).
Proof.
  apply (create_conserved "t1" (sampleDto fiveContacts 2) 1000 0 sampleStore).
  - split; [constructor|]. intros r Hr. by apply elem_of_nil in Hr.
  - vm_compute. reflexivity.
Defined.

Lemma create_inCreationOrder_witness :
  inCreationOrder 1000 (storeWithCampaign fiveContacts 2).
Proof.
  apply (create_inCreationOrder "t1" (sampleDto fiveContacts 2) 1000 0
           sampleStore
           (newBroadcast 0 "t1" (sampleDto fiveContacts 2) CUSTOM 5)).
  - split; [constructor|]. intros r Hr. by apply elem_of_nil in Hr.
  - vm_compute. reflexivity.
Defined.

Lemma update_total_witness :
  (totalRecipients
     (updatedBroadcast (retargetDto ["c1"; "c2"]%string)
        (Some ["c1"; "c2"]%string)
        (newBroadcast 0 "t1" (sampleDto fiveContacts 2) CUSTOM 5))
   = 2
   ∧ filter (λ r, r_broadcastId r = 0)
       (recipients
          (update "t1" 0 (retargetDto ["c1"; "c2"]%string) 2000
             (storeWithCampaign fiveContacts 2)).2)
     = newRecipients 0 5 2000 ["c1"; "c2"]%string)
  ∧ broadcasts
      (update "t1" 0 (retargetDto ["c1"; "c2"]%string) 2000
         (storeWithCampaign fiveContacts 2)).2 !! 0
    = Some (updatedBroadcast (retargetDto ["c1"; "c2"]%string)
              (Some ["c1"; "c2"]%string)
              (newBroadcast 0 "t1" (sampleDto fiveContacts 2) CUSTOM 5)).
Proof.
  apply (update_total "t1" 0 (retargetDto ["c1"; "c2"]%string) 2000
           (storeWithCampaign fiveContacts 2)
           (updatedBroadcast (retargetDto ["c1"; "c2"]%string)
              (Some ["c1"; "c2"]%string)
              (newBroadcast 0 "t1" (sampleDto fiveContacts 2) CUSTOM 5))
           _
           (newBroadcast 0 "t1" (sampleDto fiveContacts 2) CUSTOM 5)).
  - vm_compute. reflexivity.
  - vm_compute. reflexivity.
Defined.
